(** * IA_Core orchestration engine: a shallow embedding

    The development follows the Python sources
      - [iacore/core/opencore_executor.py]  (module [Executor]),
      - [iacore/core/llm_client.py]         (module [Gateway]),
      - [iacore/agent/autonomous.py]        (module [Agent]),
      - [iacore/api/server.py]              (module [ApiServer]),
      - [iacore/mcp/tools_server.py]        (module [ToolsServer]),
      - [iacore/mcp/memory_server.py]       (module [MemoryServer]),
      - [iacore/core/analyzer.py]           (module [Analyzer]),
      - [iacore/core/detector.py]           (module [Detector]).

    Conventions.
      - A Python [str] is the [string] of its UTF-8 bytes, a lone surrogate
        being held as the three bytes that scheme gives it.  The white
        space [str.strip] removes is Unicode's; [str.lower] follows the
        ASCII table on ASCII letters and the library's Unicode table on
        every other character.
      - [async def] functions are run to completion: every [await] is a
        sequential call.  Nothing here speaks about interleavings.
      - Everything outside the repository (the operating system, the
        file system, the completion backend, the clock, the interpreter's
        recursion limit, the standard library's [hashlib], [json.dumps],
        [datetime] and [pathlib]) is an explicit parameter. *)

From Stdlib Require Import ZArith Ascii String List Bool Lia DecimalString DecimalZ Sorted.
From stdpp Require Import base option gmap strings list pretty.
Import ListNotations.
Local Open Scope string_scope.
Local Open Scope Z_scope.
Local Open Scope list_scope.

(** ** Python values shared by the three modules *)

(** Result of a statement that may raise. *)
Inductive outcome (A : Type) : Type :=
| Return (a : A)
| Raised (e : string).
Arguments Return {A} a.
Arguments Raised {A} e.

(** The dictionary every executor path returns. *)
Record ExecutionResult := {
  success : bool;
  output : string;
  error : string;
  exit_code : Z;
}.

(** ** The [str] methods the sources call *)
Module PyStr.

Definition code (a : ascii) : nat := nat_of_ascii a.

(** The characters [str.strip] takes for white space, by the bytes that
    hold them: U+0009 to U+000D and U+001C to U+0020 (one byte); U+0085
    and U+00A0 (two bytes); U+1680, U+2000 to U+200A, U+2028, U+2029,
    U+202F, U+205F and U+3000 (three bytes). *)
Definition space1 (a : ascii) : bool :=
  ((9 <=? code a) && (code a <=? 13) || (28 <=? code a) && (code a <=? 32))%nat.

Definition space2 (a b : ascii) : bool :=
  ((code a =? 194) && ((code b =? 133) || (code b =? 160)))%nat.

Definition space3 (a b c : ascii) : bool :=
  ((code a =? 225) && (code b =? 154) && (code c =? 128)
   || (code a =? 226) && (code b =? 128)
      && ((128 <=? code c) && (code c <=? 138)
          || (code c =? 168) || (code c =? 169) || (code c =? 175))
   || (code a =? 226) && (code b =? 129) && (code c =? 159)
   || (code a =? 227) && (code b =? 128) && (code c =? 128))%nat.

(** A byte of an ASCII character, and a byte that continues a longer
    character. *)
Definition is_ascii_char (a : ascii) : bool := (code a <? 128)%nat.

Definition is_continuation (a : ascii) : bool :=
  ((128 <=? code a) && (code a <? 192))%nat.

Fixpoint is_ascii (s : string) : bool :=
  match s with
  | EmptyString => true
  | String a r => is_ascii_char a && is_ascii r
  end.

(** The ASCII table of [str.lower]. *)
Definition lower_char (a : ascii) : ascii :=
  if ((65 <=? code a) && (code a <=? 90))%nat then ascii_of_nat (code a + 32) else a.

Fixpoint ascii_lower (s : string) : string :=
  match s with
  | EmptyString => EmptyString
  | String a r => String (lower_char a) (ascii_lower r)
  end.

(** Unicode's lower-case table beyond ASCII: [lower_wide before here] is
    what [str.lower] makes of the character that starts [here], which is
    not an ASCII one, in a text where [before] stands in front of it.
    The answer can be one character or several, an ASCII letter among
    them (U+212A gives [k]), and for some letters it depends on the
    text around them. *)
Class Unicode := {
  lower_wide : string -> string -> string;
}.

Fixpoint lower_from {U : Unicode} (before s : string) : string :=
  match s with
  | EmptyString => EmptyString
  | String a r =>
      (if is_ascii_char a then String (lower_char a) EmptyString
       else if is_continuation a then EmptyString
       else lower_wide before s)
      +:+ lower_from (before +:+ String a EmptyString) r
  end.

(** [s.lower()] *)
Definition lower {U : Unicode} (s : string) : string := lower_from EmptyString s.

(** [s.startswith(p)] *)
Fixpoint startswith (s p : string) : bool :=
  match p, s with
  | EmptyString, _ => true
  | String _ _, EmptyString => false
  | String a p', String b s' => Ascii.eqb a b && startswith s' p'
  end.

(** [p in s] *)
Fixpoint contains (s p : string) : bool :=
  startswith s p ||
  match s with
  | EmptyString => false
  | String _ r => contains r p
  end.

(** [s.lstrip()] *)
Fixpoint lstrip (s : string) : string :=
  match s with
  | EmptyString => EmptyString
  | String a r =>
      if space1 a then lstrip r
      else
        match r with
        | EmptyString => s
        | String b r1 =>
            if space2 a b then lstrip r1
            else
              match r1 with
              | EmptyString => s
              | String c r2 => if space3 a b c then lstrip r2 else s
              end
        end
  end.

(** Nothing but white space. *)
Definition all_space (s : string) : bool :=
  match lstrip s with EmptyString => true | String _ _ => false end.

(** [s.rstrip()]: the text up to where nothing but white space follows. *)
Fixpoint rstrip (s : string) : string :=
  match s with
  | EmptyString => EmptyString
  | String a r => if all_space s then EmptyString else String a (rstrip r)
  end.

(** [s.strip()] *)
Definition strip (s : string) : string := rstrip (lstrip s).

(** [s[:n]]: the first [n] characters. *)
Fixpoint take_chars (n : nat) (s : string) : string :=
  match s with
  | EmptyString => EmptyString
  | String a r =>
      if is_continuation a then String a (take_chars n r)
      else
        match n with
        | O => EmptyString
        | S n' => String a (take_chars n' r)
        end
  end.

(** [s.split("\n")]: never empty, one more piece than there are line
    feeds. *)
Fixpoint split_lines (s : string) : list string :=
  match s with
  | EmptyString => [EmptyString]
  | String c r =>
      if Ascii.eqb c "010"%char then EmptyString :: split_lines r
      else match split_lines r with
           | [] => [String c EmptyString]
           | l :: ls => String c l :: ls
           end
  end.

(** Truth value of a [str]: empty is false. *)
Definition truthy (s : string) : bool :=
  match s with EmptyString => false | _ => true end.

End PyStr.

(** ** JSON documents and the standard library

    Values produced by [json.loads]; also the Python values [complete]
    can hand back (a cached ["response"] is returned as it was parsed). *)
#[local] Set Warnings "-register-all".
Inductive json :=
| JNull
| JBool (b : bool)
| JNum (z : Z)
| JStr (s : string)
| JArr (items : list json)
| JObj (fields : list (string * json)).

(** Truth value, as tested by [if cached:]. *)
Definition truthy (v : json) : bool :=
  match v with
  | JNull => false
  | JBool b => b
  | JNum z => negb (z =? 0)
  | JStr s => PyStr.truthy s
  | JArr items => match items with [] => false | _ => true end
  | JObj fields => match fields with [] => false | _ => true end
  end.

Fixpoint assoc (fields : list (string * json)) (key : string) : option json :=
  match fields with
  | [] => None
  | (k, v) :: rest => if String.eqb k key then Some v else assoc rest key
  end.

(** [data[key]]: [None] stands for the [KeyError] or [TypeError]. *)
Definition subscript (data : json) (key : string) : option json :=
  match data with
  | JObj fields => assoc fields key
  | _ => None
  end.

(** The standard-library functions the sources rely on.
      - [unicode] is the lower-case table of [str.lower].
      - [md5_hexdigest s] is [hashlib.md5(s.encode()).hexdigest()]; [None]
        when [s.encode()] raises [UnicodeEncodeError], which it does on a
        text that holds a lone surrogate.
      - [json_dumps indent data] is [json.dumps(data, indent=indent)].
      - [fromisoformat s] is [datetime.fromisoformat(s)], in microseconds;
        [None] when it raises [ValueError] or yields a value that cannot
        be subtracted from [datetime.now()].
      - [isoformat t] is [t.isoformat()].
      - [path_match path pattern] is [Path(path).match(pattern)]. *)
Class PyLib := {
  unicode :: PyStr.Unicode;
  md5_hexdigest : string -> option string;
  json_dumps : option Z -> json -> string;
  fromisoformat : string -> option Z;
  isoformat : Z -> string;
  path_match : string -> string -> bool;
}.

(** ** [OpenCoreExecutor] *)
Module Executor.

(** The two ways the executor creates a process. *)
Inductive spawn :=
| SpawnExec (argv : list string)        (* asyncio.create_subprocess_exec *)
| SpawnShell (command cwd : string).    (* asyncio.create_subprocess_shell *)

(** What the host observes, in order: one [EvSpawn] per call to
    [create_subprocess_*], one [EvKill] per [process.kill()]. *)
Inductive os_event :=
| EvSpawn (s : spawn)
| EvKill (s : spawn).

(** What becomes of a created process under [wait_for(..., timeout)]. *)
Inductive proc_outcome :=
| SpawnError (msg : string)                    (* create_subprocess_* raised *)
| Exited (returncode : Z) (stdout stderr : string)
| TimedOut.                                    (* asyncio.TimeoutError *)

(** The host.  Both answers may depend on everything that happened
    before.  [which_opencore] is the return code of [which opencore]
    ([None] when creating that process raised). *)
Record Host := {
  which_opencore : list os_event -> option Z;
  run_process : list os_event -> spawn -> proc_outcome;
}.

Record OpenCoreExecutor := {
  project_root : string;
  silent_mode : bool;
  timeout : Z;
}.

Definition which_probe : spawn := SpawnExec ["which"; "opencore"].

Definition _opencore_available (h : Host) (tr : list os_event)
  : bool * list os_event :=
  let tr' := tr ++ [EvSpawn which_probe] in
  match which_opencore h tr with
  | Some rc => (rc =? 0, tr')
  | None => (false, tr')
  end.

Definition timeout_result (x : OpenCoreExecutor) : ExecutionResult :=
  {| success := false;
     output := "";
     error := "Command timed out after " +:+ pretty (timeout x) +:+ "s";
     exit_code := -1 |}.

(** Shared tail of [_execute_via_opencore] and [_execute_via_subprocess]:
    create the process, wait for it under the timeout, kill it on
    expiry. *)
Definition run_spawned (x : OpenCoreExecutor) (h : Host) (s : spawn)
    (tr : list os_event) : outcome ExecutionResult * list os_event :=
  let tr' := tr ++ [EvSpawn s] in
  match run_process h tr s with
  | SpawnError msg => (Raised msg, tr')
  | Exited rc out err =>
      (Return {| success := rc =? 0; output := out; error := err;
                 exit_code := rc |}, tr')
  | TimedOut => (Return (timeout_result x), tr' ++ [EvKill s])
  end.

Definition opencore_argv (command cwd : string) : list string :=
  ["opencore"; "exec"; "--silent"; "--sandbox"; "--cwd"; cwd; "--"; command].

Definition _execute_via_opencore (x : OpenCoreExecutor) (h : Host)
    (command cwd : string) (tr : list os_event) :=
  run_spawned x h (SpawnExec (opencore_argv command cwd)) tr.

Definition _execute_via_subprocess (x : OpenCoreExecutor) (h : Host)
    (command cwd : string) (tr : list os_event) :=
  run_spawned x h (SpawnShell command cwd) tr.

(** [execute(command, silent=None, cwd=None)].  [silent] only selects
    the log level. *)
Definition execute (x : OpenCoreExecutor) (h : Host) (command : string)
    (silent : option bool) (cwd : option string) (tr : list os_event)
  : ExecutionResult * list os_event :=
  let cwd := default (project_root x) cwd in
  let '(available, tr1) := _opencore_available h tr in
  let '(r, tr2) :=
    if available then _execute_via_opencore x h command cwd tr1
    else _execute_via_subprocess x h command cwd tr1 in
  match r with
  | Return res => (res, tr2)
  | Raised e =>
      ({| success := false; output := ""; error := e; exit_code := -1 |}, tr2)
  end.

(** [execute_batch(commands, stop_on_error)]: the [for] loop with its
    [break]; results are accumulated in order. *)
Fixpoint execute_batch (x : OpenCoreExecutor) (h : Host)
    (commands : list string) (stop_on_error : bool) (tr : list os_event)
  : list ExecutionResult * list os_event :=
  match commands with
  | [] => ([], tr)
  | cmd :: rest =>
      let '(result, tr1) := execute x h cmd None None tr in
      if stop_on_error && negb (success result) then ([result], tr1)
      else
        let '(results, tr2) := execute_batch x h rest stop_on_error tr1 in
        (result :: results, tr2)
  end.

Definition dangerous : list string :=
  ["rm -rf /"; "dd if="; "mkfs"; ":(){ :|:& };:"; "curl | sh"; "wget | sh"].

(** [is_safe_command(command)] *)
Definition is_safe_command {U : PyStr.Unicode} (command : string) : bool :=
  let cmd_lower := PyStr.lower command in
  negb (existsb (fun dangerous_pattern => PyStr.contains cmd_lower dangerous_pattern)
                dangerous).

(** The commands handed to the host for execution, in order: every
    spawn except the [which] probe. *)
Definition launched_command (e : os_event) : option string :=
  match e with
  | EvSpawn (SpawnShell c _) => Some c
  | EvSpawn (SpawnExec ["opencore"; "exec"; "--silent"; "--sandbox"; "--cwd"; _; "--"; c]) =>
      Some c
  | _ => None
  end.

Definition launched (tr : list os_event) : list string :=
  omap launched_command tr.

Definition is_spawn (e : os_event) : bool :=
  match e with EvSpawn _ => true | EvKill _ => false end.

(** The spawn-count probe of the specification's tests. *)
Definition spawn_count (tr : list os_event) : nat :=
  length (List.filter is_spawn tr).

End Executor.

(** ** [LLMClient] *)
Module Gateway.

(** Time is counted in microseconds, the resolution of [datetime]. *)
Definition seconds (n : Z) : Z := n * 1000000.
Definition hours (n : Z) : Z := seconds (n * 3600).

(** Set once in [__init__] and never changed. *)
Definition rate_limit : nat := 10.
Definition rate_window : Z := seconds 60.

Record LLMClient := {
  model : string;
  provider : string;
  request_times : list Z;
}.

Definition set_request_times (c : LLMClient) (ts : list Z) : LLMClient :=
  {| model := model c; provider := provider c; request_times := ts |}.

(** A file of the cache directory, by what [json.loads(read_text())]
    makes of it: writing a document and reading it back yields the
    document. *)
Inductive file :=
| Unreadable                (* read_text() raises *)
| NotJson                   (* json.loads() raises *)
| Document (data : json).

(** How [write_text] on a cache file ends: the text is written; the file
    cannot be opened for writing and stays as it was ([OSError]); or the
    file is opened, hence emptied, and the write breaks off, leaving an
    incomplete text behind ([OSError]). *)
Inductive write_end :=
| Written
| Refused
| Torn.

(** What the client shares with the rest of the process: the clock, the
    cache directory (file [<key>.json] is stored under [<key>]), whether
    the process may search that directory (without the permission
    [exists()] raises [PermissionError] and no file can be opened), how
    a write to each cache file ends and, as a probe, the instants at
    which the backend was invoked.  The clock moves when the client
    sleeps and between two calls of the caller; the client's own
    statements and the backend's answer take no time. *)
Record World := {
  clock : Z;
  cache_dir : gmap string file;
  invocations : list Z;
  searchable : bool;
  on_write : string -> write_end;
}.

Definition sleep (d : Z) (w : World) : World :=
  {| clock := clock w + d; cache_dir := cache_dir w; invocations := invocations w;
     searchable := searchable w; on_write := on_write w |}.

Definition store (key : string) (f : file) (w : World) : World :=
  {| clock := clock w; cache_dir := <[key := f]> (cache_dir w);
     invocations := invocations w; searchable := searchable w;
     on_write := on_write w |}.

(** [cache_file.write_text(...)]: whether it returned, and the world
    after it. *)
Definition write_file (key : string) (f : file) (w : World) : bool * World :=
  if negb (searchable w) then (false, w)
  else
    match on_write w key with
    | Written => (true, store key f w)
    | Refused => (false, w)
    | Torn => (false, store key NotJson w)
    end.

Definition invoke (w : World) : World :=
  {| clock := clock w; cache_dir := cache_dir w;
     invocations := invocations w ++ [clock w]; searchable := searchable w;
     on_write := on_write w |}.

(** How [openai.ChatCompletion.create] can end. *)
Inductive backend_outcome :=
| Completion (text : string)
| RateLimitError
| AuthenticationError
| OtherError (msg : string).

(** The backend: [reply n prompt max_tokens] is the end of the call
    number [n] (counted from 0 over the life of the process).  The
    sampling temperature is passed through and not modelled. *)
Record Backend := {
  openai_installed : bool;
  reply : nat -> string -> Z -> backend_outcome;
}.

Section WithLibrary.
Context {lib : PyLib}.

(** [_check_rate_limit()].  When the pruned list is at the limit it is
    not empty, so [request_times[0]] exists. *)
Definition _check_rate_limit (c : LLMClient) (w : World) : LLMClient * World :=
  let now := clock w in
  let times := List.filter (fun t => now - t <? rate_window) (request_times c) in
  let w' :=
    if (rate_limit <=? length times)%nat then
      match times with
      | oldest :: _ =>
          let wait_time := oldest + rate_window - now in
          if 0 <? wait_time then sleep wait_time w else w
      | [] => w
      end
    else w in
  (set_request_times c (times ++ [now]), w').

(** [_get_cached(prompt)].  The digest and the test [exists()] stand
    before the [try]: a prompt that cannot be encoded raises, and so
    does a cache directory that cannot be searched.  Every [None] below
    the first is the bare [except: pass]. *)
Definition _get_cached (prompt : string) (w : World) : outcome (option json) :=
  match md5_hexdigest prompt with
  | None => Raised "UnicodeEncodeError"
  | Some cache_key =>
      if negb (searchable w) then Raised "PermissionError"
      else
        Return
          match cache_dir w !! cache_key with
          | None => None
          | Some Unreadable => None
          | Some NotJson => None
          | Some (Document data) =>
              match subscript data "timestamp" with
              | Some (JStr ts) =>
                  match fromisoformat ts with
                  | Some cached_at =>
                      if clock w - cached_at <? hours 24
                      then subscript data "response"
                      else None
                  | None => None
                  end
              | _ => None
              end
          end
  end.

(** [prompt[:200]] *)
Definition truncate (n : nat) (s : string) : string := PyStr.take_chars n s.

(** The dictionary [_cache_response] writes. *)
Definition cache_entry (c : LLMClient) (prompt response : string) (now : Z) : json :=
  JObj [("prompt", JStr (truncate 200 prompt));
        ("response", JStr response);
        ("timestamp", JStr (isoformat now));
        ("model", JStr (model c))].

(** [_cache_response(prompt, response)]: it raises when the prompt
    cannot be encoded and when the write fails. *)
Definition _cache_response (c : LLMClient) (prompt response : string)
    (w : World) : outcome unit * World :=
  match md5_hexdigest prompt with
  | None => (Raised "UnicodeEncodeError", w)
  | Some cache_key =>
      let data := cache_entry c prompt response (clock w) in
      match write_file cache_key (Document data) w with
      | (true, w') => (Return tt, w')
      | (false, w') => (Raised "OSError", w')
      end
  end.

(** [_fallback_response(prompt)] *)
Definition _fallback_response (prompt : string) : string :=
  if PyStr.contains (PyStr.lower prompt) "commands"
  then "# Unable to generate commands at this time" +:+ String "010"%char "echo 'LLM unavailable'"
  else "Unable to process request. LLM service unavailable.".

(** [_openai_complete(prompt, max_tokens, temperature)].  After a quota
    error the method waits and calls itself, each call inside the one
    before.  [retries] is the number of these nested calls that the
    interpreter's recursion limit admits below the first one; the call
    beyond them raises [RecursionError], which none of the handlers
    here catches. *)
Fixpoint _openai_complete (b : Backend) (retries : nat) (c : LLMClient)
    (prompt : string) (max_tokens : Z) (w : World) {struct retries}
  : outcome string * World :=
  if negb (openai_installed b) then (Return "", w)
  else
    let n := length (invocations w) in
    let w1 := invoke w in
    match reply b n prompt max_tokens with
    | Completion text => (Return text, w1)
    | RateLimitError =>
        let w2 := sleep (seconds 60) w1 in
        match retries with
        | O => (Raised "RecursionError", w2)
        | S retries' => _openai_complete b retries' c prompt max_tokens w2
        end
    | AuthenticationError => (Return "", w1)
    | OtherError msg => (Raised msg, w1)
    end.

(** [complete(prompt, max_tokens, temperature, use_cache)].  The cache
    lookup and the rate limiter stand before the [try]; the backend
    call and the cache write stand inside it, and every exception they
    raise ends in the fallback. *)
Definition complete (b : Backend) (retries : nat) (c : LLMClient)
    (prompt : string) (max_tokens : Z) (use_cache : bool) (w : World)
  : outcome json * LLMClient * World :=
  let hit :=
    if use_cache then
      match _get_cached prompt w with
      | Return (Some cached) => Return (if truthy cached then Some cached else None)
      | Return None => Return None
      | Raised e => Raised e
      end
    else Return None in
  match hit with
  | Raised e => (Raised e, c, w)
  | Return (Some cached) => (Return cached, c, w)
  | Return None =>
      let '(c1, w1) := _check_rate_limit c w in
      let '(attempt, w2) :=
        if String.eqb (provider c1) "openai"
        then _openai_complete b retries c1 prompt max_tokens w1
        else (Raised ("Unsupported provider: " +:+ provider c1), w1) in
      match attempt with
      | Return response =>
          if use_cache then
            match _cache_response c1 prompt response w2 with
            | (Return _, w3) => (Return (JStr response), c1, w3)
            | (Raised _, w3) => (Return (JStr (_fallback_response prompt)), c1, w3)
            end
          else (Return (JStr response), c1, w2)
      | Raised _ => (Return (JStr (_fallback_response prompt)), c1, w2)
      end
  end.

End WithLibrary.

(** A caller that issues its calls one after the other: before each call
    it lets [delay] microseconds pass, then awaits [complete] with
    [use_cache=False]. *)
Fixpoint run_calls {lib : PyLib} (b : Backend) (retries : nat) (calls : list (Z * string))
    (c : LLMClient) (w : World) : LLMClient * World :=
  match calls with
  | [] => (c, w)
  | (delay, prompt) :: rest =>
      let '(_, c', w') := complete b retries c prompt 500 false (sleep delay w) in
      run_calls b retries rest c' w'
  end.

(** Number of backend invocations in the window [[from, from + 60s)]. *)
Definition invocations_in_window (from : Z) (w : World) : nat :=
  length (List.filter (fun t => (from <=? t) && (t <? from + rate_window))
                      (invocations w)).

End Gateway.

(** ** [AutonomousAgent] *)
Module Agent.

(** An entry of [.iacore/runtime/tasks.json]. *)
Record Task := {
  id : string;
  description : string;
  status : string;
  auto_execute : bool;
  created_at : string;
}.

(** The keys of the configuration read here; [None] is a missing key. *)
Record Config := {
  agent_ignore_patterns : option (list string);
  workflows_on_file_change : option (list string);
}.

(** [self.context_cache] and [self.last_analysis]. *)
Record AutonomousAgent := {
  config : Config;
  project_type : option string;                    (* context_cache["project_type"] *)
  project_files : option (list string);            (* context_cache["project_files"] *)
  analysis : option (list (string * json));        (* context_cache["analysis"] *)
  last_analysis : option Z;
}.

(** The result of [ProjectDetector.detect()], as far as it is read. *)
Record Detection := {
  detected_type : string;
  detected_files : list string;
}.

(** The collaborators the agent calls, over their own state [W]:
    [self.llm], [self.executor], [self.detector], [self.analyzer] and
    the clock.  [llm_complete] and [executor_execute] return normally
    (both catch what their body raises); the detector and the project
    analysis read the project tree unguarded and may raise. *)
Class Services (W : Type) := {
  llm_complete : string -> W -> string * W;
  executor_execute : string -> W -> ExecutionResult * W;
  detector_detect : W -> outcome Detection;
  analyzer_analyze_project : string -> W -> outcome (list (string * json)) * W;
  analyzer_analyze_file_change :
    string -> string -> option string -> W -> list (string * json) * W;
  datetime_now : W -> Z;
}.

(** What the agent does, in order. *)
Inductive event :=
| EvTask (task : Task)               (* _execute_task(task) entered *)
| EvComplete (prompt : string)       (* self.llm.complete(prompt) *)
| EvExecute (command : string)       (* self.executor.execute(command, silent=True) *)
| EvAnalysis                         (* _initial_analysis() entered *)
| EvAction (action : string)         (* _execute_workflow_action(action, _) entered *)
| EvUnknownAction (action : string). (* logger.warning("Unknown action: ...") *)

(** The agent, its collaborators' state, the task store on disk and the
    events so far.  Nothing but the agent's own code touches [tasks_file]
    here: producers append to it between two runs. *)
Record State (W : Type) := {
  self : AutonomousAgent;
  world : W;
  tasks_file : option (list Task);     (* None: the file does not exist *)
  trace : list event;
}.
Arguments self {W} _.
Arguments world {W} _.
Arguments tasks_file {W} _.
Arguments trace {W} _.

(** State and exceptions. *)
Definition M (W A : Type) : Type := State W -> outcome A * State W.

Definition ret {W A} (a : A) : M W A := fun st => (Return a, st).
Definition raise {W A} (e : string) : M W A := fun st => (Raised e, st).
Definition bind {W A B} (m : M W A) (k : A -> M W B) : M W B :=
  fun st =>
    match m st with
    | (Return a, st') => k a st'
    | (Raised e, st') => (Raised e, st')
    end.

Declare Scope agent_scope.
Delimit Scope agent_scope with agent.
Notation "x <- c ;; k" := (bind c (fun x => k))
  (at level 100, c at next level, right associativity) : agent_scope.
Notation "c ;; k" := (bind c (fun _ => k))
  (at level 100, right associativity) : agent_scope.

Definition log {W} (e : event) : M W unit :=
  fun st => (Return tt,
             {| self := self st; world := world st; tasks_file := tasks_file st;
                trace := trace st ++ [e] |}).

Definition get_self {W} : M W AutonomousAgent := fun st => (Return (self st), st).

Definition put_self {W} (a : AutonomousAgent) : M W unit :=
  fun st => (Return tt,
             {| self := a; world := world st; tasks_file := tasks_file st;
                trace := trace st |}).

(** Run a collaborator on its own state. *)
Definition call {W A} (f : W -> A * W) : M W A :=
  fun st =>
    let '(a, w) := f (world st) in
    (Return a,
     {| self := self st; world := w; tasks_file := tasks_file st;
        trace := trace st |}).

Definition lift {W A} (o : outcome A) : M W A := fun st => (o, st).

(** [for x in l: body(x)] *)
Fixpoint for_each {W A} (l : list A) (body : A -> M W unit) : M W unit :=
  match l with
  | [] => ret tt
  | x :: rest => bind (body x) (fun _ => for_each rest body)
  end.

Definition default_ignore_patterns : list string :=
  ["node_modules/**"; ".git/**"; "__pycache__/**"; "*.pyc"; ".iacore/runtime/**"].

(** [len(v)]; [None] is the [TypeError]. *)
Definition py_len (v : json) : option nat :=
  match v with
  | JStr s => Some (String.length s)
  | JArr items => Some (length items)
  | JObj fields => Some (length fields)
  | _ => None
  end.

Section WithServices.
Context {W : Type} {lib : PyLib} {services : Services W}.
Local Open Scope agent_scope.

(** [await self.llm.complete(prompt)] *)
Definition self_llm_complete (prompt : string) : M W string :=
  log (EvComplete prompt) ;; call (llm_complete prompt).

(** [await self.executor.execute(command, silent=True)] *)
Definition self_executor_execute (command : string) : M W ExecutionResult :=
  log (EvExecute command) ;; call (executor_execute command).

(** [_initial_analysis()] *)
Definition _initial_analysis : M W unit :=
  log EvAnalysis ;;
  detection <- (fun st => (detector_detect (world st), st)) ;;
  a <- get_self ;;
  put_self {| config := config a;
              project_type := Some (detected_type detection);
              project_files := Some (detected_files detection);
              analysis := analysis a;
              last_analysis := last_analysis a |} ;;
  r <- call (analyzer_analyze_project (detected_type detection)) ;;
  result <- lift r ;;
  a <- get_self ;;
  now <- (fun st => (Return (datetime_now (world st)), st)) ;;
  put_self {| config := config a;
              project_type := project_type a;
              project_files := project_files a;
              analysis := Some result;
              last_analysis := Some now |} ;;
  match py_len (default (JArr []) (assoc result "insights")) with
  | Some _ => ret tt
  | None => raise "TypeError"
  end.

(** [_build_execution_prompt(task)] *)
Definition _build_execution_prompt (a : AutonomousAgent) (task : Task) : string :=
  let context := default [] (analysis a) in
  "You are an AI agent managing a " +:+ default "None" (project_type a) +:+ " project.

PROJECT CONTEXT:
" +:+ json_dumps (Some 2) (JObj context) +:+ "

TASK:
" +:+ description task +:+ "

Generate a list of shell commands to complete this task.
Return ONLY the commands, one per line, with no explanation.
Commands will be executed silently via OpenCore.

COMMANDS:".

Definition is_command_line (line : string) : bool :=
  PyStr.truthy line && negb (PyStr.startswith line "#")
  && negb (PyStr.startswith line "```").

(** [_parse_commands(llm_response)] *)
Definition _parse_commands (llm_response : string) : list string :=
  let lines := PyStr.split_lines (PyStr.strip llm_response) in
  List.filter is_command_line (List.map PyStr.strip lines).

Definition fallback_prompt (failed_cmd error : string) : string :=
  "The command failed:
Command: " +:+ failed_cmd +:+ "
Error: " +:+ error +:+ "

Provide ONE alternative command to achieve the same goal, or return "
  +:+ String "034"%char "SKIP" +:+ String "034"%char " if not possible.
ALTERNATIVE:".

(** [_get_fallback_strategy(failed_cmd, error)] *)
Definition _get_fallback_strategy (failed_cmd error : string)
  : M W (option string) :=
  response <- self_llm_complete (fallback_prompt failed_cmd error) ;;
  let fallback := PyStr.strip response in
  ret (if String.eqb fallback "SKIP" then None else Some fallback).

(** Body of the loop of [_execute_task]. *)
Definition run_step (cmd : string) : M W unit :=
  result <- self_executor_execute cmd ;;
  if success result then ret tt
  else
    fallback <- _get_fallback_strategy cmd (error result) ;;
    match fallback with
    | Some f => if PyStr.truthy f then (self_executor_execute f ;; ret tt) else ret tt
    | None => ret tt
    end.

(** [_execute_task(task)] *)
Definition _execute_task (task : Task) : M W unit :=
  log (EvTask task) ;;
  a <- get_self ;;
  response <- self_llm_complete (_build_execution_prompt a task) ;;
  for_each (_parse_commands response) run_step.


(** [_should_ignore(path)] *)
Definition _should_ignore (a : AutonomousAgent) (path : string) : bool :=
  existsb (fun pattern => path_match path pattern)
          (default default_ignore_patterns (agent_ignore_patterns (config a))).

Definition _action_detect_impact : M W unit := ret tt.

Definition _action_analyze_context : M W unit := _initial_analysis.

Definition _action_analyze_commit : M W unit :=
  self_executor_execute "git log -1 --pretty=format:'%H %s'" ;; ret tt.

Definition suggestions_prompt (file : string) (impact : list (string * json))
  : string :=
  "Analyze this code change and suggest improvements:

File: " +:+ file +:+ "
Impact: " +:+ json_dumps None (JObj impact) +:+ "

Provide 3 concrete suggestions for improvement.
SUGGESTIONS:".

Definition _action_suggest_improvements (file : string)
    (impact : list (string * json)) : M W unit :=
  self_llm_complete (suggestions_prompt file impact) ;; ret tt.

(** [actions_map.get(action)] *)
Definition actions_map (file : string) (impact : list (string * json))
    (action : string) : option (M W unit) :=
  if String.eqb action "detect_impact" then Some _action_detect_impact
  else if String.eqb action "analyze_context" then Some _action_analyze_context
  else if String.eqb action "analyze_commit" then Some _action_analyze_commit
  else if String.eqb action "suggest_improvements"
       then Some (_action_suggest_improvements file impact)
  else None.

(** [_execute_workflow_action(action, {"file": file, "impact": impact})] *)
Definition _execute_workflow_action (action file : string)
    (impact : list (string * json)) : M W unit :=
  log (EvAction action) ;;
  match actions_map file impact action with
  | Some handler => handler
  | None => log (EvUnknownAction action)
  end.

Definition is_high (impact : list (string * json)) : bool :=
  match assoc impact "severity" with
  | Some (JStr s) => String.eqb s "high"
  | _ => false
  end.

(** [on_file_change(path, event_type)] *)
Definition on_file_change (path event_type : string) : M W unit :=
  a <- get_self ;;
  if _should_ignore a path then ret tt
  else
    impact <- call (analyzer_analyze_file_change path event_type (project_type a)) ;;
    if is_high impact then
      a <- get_self ;;
      let workflow := default [] (workflows_on_file_change (config a)) in
      for_each workflow
        (fun action => _execute_workflow_action action path impact)
    else ret tt.

End WithServices.

(** The actions whose dispatch the trace records, in order. *)
Definition dispatched (tr : list event) : list string :=
  omap (fun e => match e with EvAction a => Some a | _ => None end) tr.


End Agent.

(** * Properties of the executor *)
Module ExecutorSpec.
Import Executor.

(** [Runs x h cmds rs tr tr']: starting from the history [tr], the
    commands [cmds] are executed one after the other, nothing in
    between; [rs] are their results and [tr'] the history afterwards. *)
Inductive Runs (x : OpenCoreExecutor) (h : Host)
  : list string -> list ExecutionResult -> list os_event -> list os_event -> Prop :=
| Runs_nil tr : Runs x h [] [] tr tr
| Runs_cons cmd cmds r rs tr tr1 tr2 :
    execute x h cmd None None tr = (r, tr1) ->
    Runs x h cmds rs tr1 tr2 ->
    Runs x h (cmd :: cmds) (r :: rs) tr tr2.

Lemma launched_app tr1 tr2 : launched (tr1 ++ tr2) = launched tr1 ++ launched tr2.
Proof. unfold launched. apply omap_app. Qed.

Lemma spawn_count_app tr1 tr2 :
  spawn_count (tr1 ++ tr2) = (spawn_count tr1 + spawn_count tr2)%nat.
Proof. unfold spawn_count. now rewrite List.filter_app, length_app. Qed.

(** Whatever the command and whatever the host answers, [execute] asks
    the host for the [which] probe and then for the command itself. *)
Lemma execute_launches x h command silent cwd tr :
  launched (execute x h command silent cwd tr).2 = launched tr ++ [command]
  /\ spawn_count (execute x h command silent cwd tr).2 = (spawn_count tr + 2)%nat.
Proof.
  unfold execute, _opencore_available, _execute_via_opencore,
    _execute_via_subprocess, run_spawned.
  destruct (which_opencore h tr) as [rc|]; [destruct (rc =? 0)|];
    match goal with
    | |- context [run_process h ?t ?s] => destruct (run_process h t s)
    end; cbn [fst snd];
    rewrite ?launched_app, ?spawn_count_app; cbn; rewrite ?app_nil_r;
    split; try reflexivity; lia.
Qed.

Lemma Runs_launched x h cmds rs tr tr' :
  Runs x h cmds rs tr tr' -> launched tr' = launched tr ++ cmds.
Proof.
  induction 1 as [tr|cmd cmds r rs tr tr1 tr2 Hexec _ IH].
  - now rewrite app_nil_r.
  - rewrite IH.
    pose proof (execute_launches x h cmd None None tr) as [Hl _].
    rewrite Hexec in Hl; cbn [fst snd] in Hl. rewrite Hl.
    now rewrite <- app_assoc.
Qed.

Lemma Runs_length x h cmds rs tr tr' :
  Runs x h cmds rs tr tr' -> length rs = length cmds.
Proof. induction 1; cbn; congruence. Qed.

(** Without [stop_on_error] the batch is the plain run of all commands. *)
Lemma execute_batch_no_stop x h cmds tr :
  Runs x h cmds (execute_batch x h cmds false tr).1 tr
       (execute_batch x h cmds false tr).2.
Proof.
  revert tr; induction cmds as [|cmd cmds IH]; intros tr; cbn.
  - constructor.
  - destruct (execute x h cmd None None tr) as [r tr1] eqn:Hexec; cbn.
    specialize (IH tr1).
    destruct (execute_batch x h cmds false tr1) as [rs tr2]; cbn in *.
    econstructor; eauto.
Qed.

(** With or without [stop_on_error], what the batch did is the plain
    run of a prefix of the list, and it returns one result per command
    of that prefix. *)
Lemma execute_batch_runs_prefix x h cmds stop tr :
  exists n, (n <= length cmds)%nat /\
    Runs x h (take n cmds) (execute_batch x h cmds stop tr).1 tr
         (execute_batch x h cmds stop tr).2.
Proof.
  revert tr; induction cmds as [|cmd cmds IH]; intros tr; cbn.
  - exists 0%nat; split; [lia | constructor].
  - destruct (execute x h cmd None None tr) as [r tr1] eqn:Hexec.
    destruct (stop && negb (success r)).
    + exists 1%nat; cbn; split; [lia|].
      rewrite take_0. econstructor; [eassumption | constructor].
    + destruct (IH tr1) as (n & Hn & Hruns).
      destruct (execute_batch x h cmds stop tr1) as [rs tr2]; cbn in *.
      exists (S n); cbn; split; [lia|]. econstructor; eauto.
Qed.

(** When every command succeeds the batch runs them all. *)
Lemma execute_batch_all_succeed x h cmds rs stop tr tr' :
  Runs x h cmds rs tr tr' ->
  Forall (fun r => success r = true) rs ->
  execute_batch x h cmds stop tr = (rs, tr').
Proof.
  induction 1 as [tr|cmd cmds r rs tr tr1 tr2 Hexec _ IH]; intros Hok; cbn.
  - reflexivity.
  - inversion Hok as [|? ? Hr Hrs]; subst.
    rewrite Hexec, Hr, andb_false_r. now rewrite (IH Hrs).
Qed.

(** C8.  Whatever the list, [execute_batch] runs a prefix of it, in list
    order and with nothing in between, and returns exactly the results
    of that run, one per command and in the same order.  Without
    [stop_on_error] the prefix is the whole list.  With [stop_on_error]
    every result but the last is a success, and the prefix is shorter
    than the list only when its last command failed: the batch stops at
    the first failure, the commands after it are not handed to the host
    and have no entry in the returned list. *)
Theorem execute_batch_stops_at_first_failure x h cmds stop_on_error tr :
  let rs := (execute_batch x h cmds stop_on_error tr).1 in
  let tr' := (execute_batch x h cmds stop_on_error tr).2 in
  exists n,
    (n <= length cmds)%nat
    /\ Runs x h (take n cmds) rs tr tr'
    /\ launched tr' = launched tr ++ take n cmds
    /\ length rs = n
    /\ (stop_on_error = false -> n = length cmds)
    /\ (stop_on_error = true ->
        Forall (fun r => success r = true) (removelast rs)
        /\ ((n < length cmds)%nat ->
            exists r, last rs = Some r /\ success r = false)).
Proof.
  cbn zeta. revert tr.
  induction cmds as [|cmd cmds IH]; intros tr; cbn [execute_batch].
  - exists 0%nat. cbn. rewrite app_nil_r.
    repeat split; try constructor; try lia.
  - destruct (execute x h cmd None None tr) as [r tr1] eqn:Hexec.
    pose proof (execute_launches x h cmd None None tr) as [Hl _].
    rewrite Hexec in Hl; cbn [fst snd] in Hl.
    destruct (stop_on_error && negb (success r)) eqn:Hstop.
    + apply andb_true_iff in Hstop as [-> Hfail]. apply negb_true_iff in Hfail.
      exists 1%nat. cbn [fst snd length take]. rewrite take_0.
      split; [lia|]. split; [econstructor; [eassumption|constructor]|].
      split; [exact Hl|]. split; [reflexivity|]. split; [discriminate|].
      intros _. split; [constructor|]. intros _. now exists r.
    + destruct (IH tr1) as (n & Hn & Hruns & Hlaunched & Hlen & Hall & Hstopped).
      destruct (execute_batch x h cmds stop_on_error tr1) as [rs tr2];
        cbn [fst snd] in *.
      exists (S n). cbn [length take].
      split; [lia|]. split; [econstructor; eassumption|].
      split; [rewrite Hlaunched, Hl; now rewrite <- app_assoc|].
      split; [now rewrite Hlen|]. split; [intros Hs; now rewrite (Hall Hs)|].
      intros ->. cbn [andb] in Hstop. apply negb_false_iff in Hstop.
      destruct (Hstopped eq_refl) as [Hok Hlast].
      destruct rs as [|r' rs].
      * cbn [length] in Hlen. subst n. split; [constructor|].
        intros Hshort. destruct (Hlast ltac:(lia)) as (r0 & Hr0 & _). discriminate.
      * split.
        -- change (removelast (r :: r' :: rs)) with (r :: removelast (r' :: rs)).
           now constructor.
        -- intros Hshort. destruct (Hlast ltac:(lia)) as (r0 & Hr0 & Hfail).
           exists r0. split; [|exact Hfail]. rewrite last_cons, Hr0. reflexivity.
Qed.

(** A host without the sandbox helper ([which opencore] exits with 1)
    whose shell runs every command to exit code 0, except the command
    [false], which exits with 1. *)
Definition plain_host : Host := {|
  which_opencore := fun _ => Some 1;
  run_process := fun _ s =>
    match s with
    | SpawnShell command _ =>
        if String.eqb command "false" then Exited 1 "" "" else Exited 0 "" ""
    | SpawnExec _ => SpawnError "No such file or directory"
    end;
|}.

Definition app_executor : OpenCoreExecutor :=
  {| project_root := "/srv/app"; silent_mode := true; timeout := 300 |}.

Definition exit_result (rc : Z) : ExecutionResult :=
  {| success := rc =? 0; output := ""; error := ""; exit_code := rc |}.

(** A batch of three on [plain_host]: [false] fails, [echo never] is
    not run and has no result. *)
Lemma batch_of_three_stops_at_false :
  execute_batch app_executor plain_host ["true"; "false"; "echo never"] true []
  = ([exit_result 0; exit_result 1],
     [EvSpawn which_probe; EvSpawn (SpawnShell "true" "/srv/app");
      EvSpawn which_probe; EvSpawn (SpawnShell "false" "/srv/app")])
  /\ (execute_batch app_executor plain_host ["true"; "false"; "echo never"] false []).1
     = [exit_result 0; exit_result 1; exit_result 0].
Proof. split; reflexivity. Qed.

(** C1 (the code differs).  The blacklist rejects [rm -rf /], but
    [execute] does not consult it: for every command, the host is asked
    for the [which] probe and then for the command itself; on
    [plain_host] the blacklisted command is spawned through the shell
    and its result reports success. *)
Theorem execute_spawns_blacklisted_command {U : PyStr.Unicode} :
  is_safe_command "rm -rf /" = false
  /\ (forall x h command silent cwd tr,
        launched (execute x h command silent cwd tr).2 = launched tr ++ [command]
        /\ spawn_count (execute x h command silent cwd tr).2
           = (spawn_count tr + 2)%nat)
  /\ execute app_executor plain_host "rm -rf /" None None []
     = (exit_result 0,
        [EvSpawn which_probe; EvSpawn (SpawnShell "rm -rf /" "/srv/app")]).
Proof.
  split; [reflexivity|]. split; [|reflexivity].
  intros; apply execute_launches.
Qed.

End ExecutorSpec.

(** * Properties of the gateway *)
Module GatewaySpec.
Import Gateway.

(** ** Quota errors and the retry *)

(** The backend answers [k] quota errors in a row, starting with call
    number [n0], and then the outcome [o], which is not a quota error. *)
Definition settles (b : Backend) (n0 : nat) (prompt : string) (max_tokens : Z)
    (k : nat) (o : backend_outcome) : Prop :=
  (forall i, (i < k)%nat -> reply b (n0 + i) prompt max_tokens = RateLimitError)
  /\ reply b (n0 + k) prompt max_tokens = o
  /\ o <> RateLimitError.

(** The backend answers a quota error to each of the [n] calls that
    start with call number [n0]. *)
Definition quota_persists (b : Backend) (n0 : nat) (prompt : string)
    (max_tokens : Z) (n : nat) : Prop :=
  forall i, (i < n)%nat -> reply b (n0 + i) prompt max_tokens = RateLimitError.

(** [k + 1] instants, 60 seconds apart, from [t0] on. *)
Fixpoint retry_instants (t0 : Z) (k : nat) : list Z :=
  match k with
  | O => [t0]
  | S k' => t0 :: retry_instants (t0 + seconds 60) k'
  end.

(** The world after [k] back-off waits and [k + 1] backend calls. *)
Definition after_retries (k : nat) (w : World) : World :=
  {| clock := clock w + seconds 60 * Z.of_nat k;
     cache_dir := cache_dir w;
     invocations := invocations w ++ retry_instants (clock w) k;
     searchable := searchable w;
     on_write := on_write w |}.

(** The world after [n + 1] backend calls, each followed by its
    back-off wait. *)
Definition after_quota_errors (n : nat) (w : World) : World :=
  {| clock := clock w + seconds 60 * Z.of_nat (S n);
     cache_dir := cache_dir w;
     invocations := invocations w ++ retry_instants (clock w) n;
     searchable := searchable w;
     on_write := on_write w |}.

(** How [_openai_complete] ends on a backend outcome other than a quota
    error. *)
Definition raw_result (o : backend_outcome) : outcome string :=
  match o with
  | Completion text => Return text
  | OtherError msg => Raised msg
  | AuthenticationError | RateLimitError => Return ""
  end.

Lemma retry_instants_length t0 k : length (retry_instants t0 k) = S k.
Proof. revert t0; induction k; intros; cbn; auto. Qed.

Lemma world_eq w t m i :
  t = clock w -> m = cache_dir w -> i = invocations w ->
  {| clock := t; cache_dir := m; invocations := i; searchable := searchable w;
     on_write := on_write w |} = w.
Proof. intros -> -> ->. now destruct w. Qed.

Section WithLibrary.
Context {lib : PyLib}.

Lemma _openai_complete_settles b c prompt max_tokens k :
  forall retries w o,
    openai_installed b = true ->
    settles b (length (invocations w)) prompt max_tokens k o ->
    (k <= retries)%nat ->
    _openai_complete b retries c prompt max_tokens w
    = (raw_result o, after_retries k w).
Proof.
  assert (Hstep : forall retries w,
            openai_installed b = true ->
            _openai_complete b retries c prompt max_tokens w
            = match reply b (length (invocations w)) prompt max_tokens with
              | Completion text => (Return text, invoke w)
              | RateLimitError =>
                  match retries with
                  | O => (Raised "RecursionError", sleep (seconds 60) (invoke w))
                  | S retries' =>
                      _openai_complete b retries' c prompt max_tokens
                        (sleep (seconds 60) (invoke w))
                  end
              | AuthenticationError => (Return "", invoke w)
              | OtherError msg => (Raised msg, invoke w)
              end).
  { intros [|retries] w Hinst; cbn [_openai_complete]; now rewrite Hinst. }
  induction k as [|k IH]; intros retries w o Hinst (Hquota & Hlast & Hneq) Hretries;
    rewrite Hstep by assumption.
  - rewrite Nat.add_0_r in Hlast. rewrite Hlast.
    assert (Hw : after_retries 0 w = invoke w).
    { unfold after_retries, invoke; cbn. f_equal. lia. }
    rewrite Hw. destruct o; try reflexivity. congruence.
  - destruct retries as [|retries]; [lia|].
    rewrite <- (Nat.add_0_r (length (invocations w))).
    rewrite (Hquota 0%nat) by lia.
    rewrite (IH retries (sleep (seconds 60) (invoke w)) o); try lia; try assumption.
    + f_equal. unfold after_retries, sleep, invoke;
        cbn [clock cache_dir invocations searchable on_write].
      f_equal; [lia|]. now rewrite <- app_assoc.
    + cbn [sleep invoke invocations]. rewrite length_app; cbn [length].
      repeat split.
      * intros i Hi. replace (length (invocations w) + 1 + i)%nat
          with (length (invocations w) + S i)%nat by lia.
        apply Hquota; lia.
      * replace (length (invocations w) + 1 + k)%nat
          with (length (invocations w) + S k)%nat by lia. exact Hlast.
      * exact Hneq.
Qed.

(** A backend that keeps reporting quota errors drives the method to
    the recursion limit: after [retries + 1] calls, each followed by its
    wait, the next nested call raises [RecursionError]. *)
Lemma _openai_complete_exhausted b c prompt max_tokens :
  openai_installed b = true ->
  forall retries w,
    quota_persists b (length (invocations w)) prompt max_tokens (S retries) ->
    _openai_complete b retries c prompt max_tokens w
    = (Raised "RecursionError", after_quota_errors retries w).
Proof.
  intros Hinst. induction retries as [|retries IH]; intros w Hquota;
    cbn [_openai_complete]; rewrite Hinst; cbn [negb];
    rewrite <- (Nat.add_0_r (length (invocations w)));
    rewrite (Hquota 0%nat) by lia.
  - reflexivity.
  - rewrite IH.
    + f_equal. unfold after_quota_errors, sleep, invoke;
        cbn [clock cache_dir invocations searchable on_write retry_instants].
      f_equal; [lia|]. now rewrite <- app_assoc.
    + intros i Hi. cbn [sleep invoke invocations]. rewrite length_app; cbn [length].
      replace (length (invocations w) + 1 + i)%nat
        with (length (invocations w) + S i)%nat by lia.
      apply Hquota; lia.
Qed.

(** The cache file of a prompt, when the prompt can be encoded, the
    cache directory can be searched and the file exists. *)
Definition cache_file (prompt : string) (w : World) : option file :=
  match md5_hexdigest prompt with
  | Some key => if searchable w then cache_dir w !! key else None
  | None => None
  end.

(** The cache lookup of [complete], with its truth test. *)
Definition cache_hit (prompt : string) (use_cache : bool) (w : World)
  : outcome (option json) :=
  if use_cache then
    match _get_cached prompt w with
    | Return (Some cached) => Return (if truthy cached then Some cached else None)
    | Return None => Return None
    | Raised e => Raised e
    end
  else Return None.

Lemma complete_on_hit b retries c prompt max_tokens use_cache w cached :
  cache_hit prompt use_cache w = Return (Some cached) ->
  complete b retries c prompt max_tokens use_cache w = (Return cached, c, w).
Proof. unfold complete, cache_hit. now intros ->. Qed.

Lemma complete_on_lookup_error b retries c prompt max_tokens use_cache w e :
  cache_hit prompt use_cache w = Raised e ->
  complete b retries c prompt max_tokens use_cache w = (Raised e, c, w).
Proof. unfold complete, cache_hit. now intros ->. Qed.

(** The exception of the cache lookup, if it raises one. *)
Definition lookup_error (prompt : string) (w : World) : option string :=
  match md5_hexdigest prompt with
  | None => Some "UnicodeEncodeError"
  | Some _ => if searchable w then None else Some "PermissionError"
  end.

Lemma cache_hit_raises prompt use_cache w e :
  cache_hit prompt use_cache w = Raised e
  <-> use_cache = true /\ lookup_error prompt w = Some e.
Proof.
  unfold cache_hit, _get_cached, lookup_error. destruct use_cache.
  - destruct (md5_hexdigest prompt) as [key|].
    + destruct (searchable w); cbn [negb].
      * split; [|intros (_ & H); discriminate].
        repeat (case_match; try discriminate).
      * split; [intros [= <-]; auto | intros (_ & [= <-]); reflexivity].
    + split; [intros [= <-]; auto | intros (_ & [= <-]); reflexivity].
  - split; [discriminate | intros (H & _); discriminate].
Qed.

Lemma lookup_error_spec prompt w e :
  lookup_error prompt w = Some e
  <-> (md5_hexdigest prompt = None /\ e = "UnicodeEncodeError")
      \/ (md5_hexdigest prompt <> None /\ searchable w = false
          /\ e = "PermissionError").
Proof.
  unfold lookup_error. destruct (md5_hexdigest prompt) as [key|].
  - destruct (searchable w); split.
    + discriminate.
    + intros [[H _]|(_ & H & _)]; discriminate.
    + intros [= <-]. right. now repeat split.
    + intros [[H _]|(_ & _ & ->)]; [discriminate|reflexivity].
  - split.
    + intros [= <-]. now left.
    + intros [[_ ->]|(H & _)]; [reflexivity|congruence].
Qed.

Lemma cache_hit_returns prompt w v :
  cache_hit prompt true w = Return v -> searchable w = true.
Proof.
  unfold cache_hit, _get_cached.
  destruct (md5_hexdigest prompt); [|discriminate].
  now destruct (searchable w).
Qed.

Lemma _check_rate_limit_invocations c w :
  invocations (_check_rate_limit c w).2 = invocations w
  /\ cache_dir (_check_rate_limit c w).2 = cache_dir w
  /\ provider (_check_rate_limit c w).1 = provider c
  /\ model (_check_rate_limit c w).1 = model c
  /\ on_write (_check_rate_limit c w).2 = on_write w
  /\ searchable (_check_rate_limit c w).2 = searchable w.
Proof.
  unfold _check_rate_limit; cbn [fst snd set_request_times provider model].
  repeat split; repeat (case_match; cbn; try reflexivity).
Qed.

(** Whether [write_text] on the cache file of the prompt returns. *)
Definition writes (prompt : string) (w : World) : bool :=
  match md5_hexdigest prompt with
  | Some key =>
      searchable w && match on_write w key with Written => true | _ => false end
  | None => false
  end.

(** Whether a completion gets past the cache write, if there is one. *)
Definition stored (prompt : string) (use_cache : bool) (w : World) : bool :=
  negb use_cache || writes prompt w.

(** What a call that misses the cache returns, by how the backend call
    ends and by whether the text gets past the cache write. *)
Definition answer (c : LLMClient) (b : Backend) (prompt : string)
    (o : backend_outcome) (kept : bool) : string :=
  if negb (String.eqb (provider c) "openai") then _fallback_response prompt
  else
    let text :=
      if negb (openai_installed b) then Some ""
      else match o with
           | Completion text => Some text
           | AuthenticationError => Some ""
           | OtherError _ | RateLimitError => None
           end in
    match text with
    | Some text => if kept then text else _fallback_response prompt
    | None => _fallback_response prompt
    end.

Lemma _cache_response_end c prompt response w :
  (_cache_response c prompt response w).1
  = (if writes prompt w then Return tt
     else Raised (match md5_hexdigest prompt with
                  | Some _ => "OSError"
                  | None => "UnicodeEncodeError"
                  end))
  /\ invocations (_cache_response c prompt response w).2 = invocations w
  /\ clock (_cache_response c prompt response w).2 = clock w
  /\ on_write (_cache_response c prompt response w).2 = on_write w
  /\ searchable (_cache_response c prompt response w).2 = searchable w.
Proof.
  unfold _cache_response, writes, write_file.
  destruct (md5_hexdigest prompt) as [key|]; [|repeat split].
  destruct (searchable w) eqn:Hs; cbn [negb andb]; [|now repeat split].
  destruct (on_write w key); repeat split; assumption.
Qed.

Lemma _cache_response_written c prompt response w key :
  md5_hexdigest prompt = Some key ->
  searchable w = true ->
  on_write w key = Written ->
  _cache_response c prompt response w
  = (Return tt,
     store key (Document (cache_entry c prompt response (clock w))) w).
Proof.
  intros Hkey Hs Hw. unfold _cache_response, write_file. now rewrite Hkey, Hs, Hw.
Qed.

(** The end of [complete] once the backend call is over. *)
Definition finish (c1 : LLMClient) (prompt : string) (use_cache : bool)
    (attempt : outcome string) (w2 : World) : outcome json * LLMClient * World :=
  match attempt with
  | Return response =>
      if use_cache then
        (Return (JStr (if writes prompt w2 then response
                       else _fallback_response prompt)),
         c1, (_cache_response c1 prompt response w2).2)
      else (Return (JStr response), c1, w2)
  | Raised _ => (Return (JStr (_fallback_response prompt)), c1, w2)
  end.

Lemma complete_on_miss_raw b retries c prompt max_tokens use_cache w :
  cache_hit prompt use_cache w = Return None ->
  let c1 := (_check_rate_limit c w).1 in
  let w1 := (_check_rate_limit c w).2 in
  let attempt :=
    if String.eqb (provider c) "openai"
    then _openai_complete b retries c1 prompt max_tokens w1
    else (Raised ("Unsupported provider: " +:+ provider c), w1) in
  complete b retries c prompt max_tokens use_cache w
  = finish c1 prompt use_cache attempt.1 attempt.2.
Proof.
  intros Hmiss. cbn zeta.
  unfold complete. fold (cache_hit prompt use_cache w). rewrite Hmiss.
  pose proof (_check_rate_limit_invocations c w) as (_ & _ & Hp & _).
  destruct (_check_rate_limit c w) as [c1 w1]; cbn [fst snd] in *.
  rewrite Hp.
  destruct (if String.eqb (provider c) "openai" then _ else _) as [attempt w2].
  cbn [fst snd]. unfold finish.
  destruct attempt as [response|e]; [|reflexivity].
  destruct use_cache; [|reflexivity].
  destruct (_cache_response_end c1 prompt response w2) as (Hend & _).
  destruct (_cache_response c1 prompt response w2) as [r w3]; cbn [fst snd] in *.
  rewrite Hend. now destruct (writes prompt w2).
Qed.

Lemma finish_shape c1 prompt use_cache attempt w2 :
  (exists v, (finish c1 prompt use_cache attempt w2).1.1 = Return (JStr v))
  /\ (finish c1 prompt use_cache attempt w2).1.2 = c1
  /\ invocations (finish c1 prompt use_cache attempt w2).2 = invocations w2
  /\ clock (finish c1 prompt use_cache attempt w2).2 = clock w2
  /\ on_write (finish c1 prompt use_cache attempt w2).2 = on_write w2
  /\ searchable (finish c1 prompt use_cache attempt w2).2 = searchable w2.
Proof.
  unfold finish.
  destruct attempt as [response|e]; [destruct use_cache|]; cbn [fst snd];
    repeat split; eauto; apply _cache_response_end.
Qed.

(** The miss path, step by step, when the quota errors stop in time. *)
Lemma complete_on_miss b retries c prompt max_tokens use_cache w k o :
  cache_hit prompt use_cache w = Return None ->
  provider c = "openai" ->
  openai_installed b = true ->
  settles b (length (invocations w)) prompt max_tokens k o ->
  (k <= retries)%nat ->
  complete b retries c prompt max_tokens use_cache w
  = (Return (JStr (answer c b prompt o (stored prompt use_cache w))),
     (_check_rate_limit c w).1,
     match raw_result o with
     | Return response =>
         if use_cache
         then (_cache_response (_check_rate_limit c w).1 prompt response
                 (after_retries k (_check_rate_limit c w).2)).2
         else after_retries k (_check_rate_limit c w).2
     | Raised _ => after_retries k (_check_rate_limit c w).2
     end).
Proof.
  intros Hmiss Hprov Hinst Hsettles Hretries.
  rewrite (complete_on_miss_raw b retries c prompt max_tokens use_cache w Hmiss).
  cbn zeta. rewrite Hprov, String.eqb_refl.
  pose proof (_check_rate_limit_invocations c w) as (Hinv & _ & _ & _ & Hw & Hs).
  rewrite (_openai_complete_settles b _ prompt max_tokens k retries _ o);
    [|assumption|now rewrite Hinv|assumption].
  cbn [fst snd]. unfold finish, answer, stored.
  rewrite Hprov, String.eqb_refl, Hinst; cbn [negb].
  assert (Hwrites : writes prompt (after_retries k (_check_rate_limit c w).2)
                    = writes prompt w).
  { unfold writes. cbn [after_retries on_write searchable]. now rewrite Hw, Hs. }
  rewrite Hwrites.
  destruct Hsettles as (_ & _ & Hneq).
  destruct o; cbn [raw_result]; try congruence; destruct use_cache; reflexivity.
Qed.

(** The miss path when the quota errors outlast the recursion limit. *)
Lemma complete_on_exhaustion b retries c prompt max_tokens use_cache w :
  cache_hit prompt use_cache w = Return None ->
  provider c = "openai" ->
  openai_installed b = true ->
  quota_persists b (length (invocations w)) prompt max_tokens (S retries) ->
  complete b retries c prompt max_tokens use_cache w
  = (Return (JStr (_fallback_response prompt)),
     (_check_rate_limit c w).1,
     after_quota_errors retries (_check_rate_limit c w).2).
Proof.
  intros Hmiss Hprov Hinst Hquota.
  rewrite (complete_on_miss_raw b retries c prompt max_tokens use_cache w Hmiss).
  cbn zeta. rewrite Hprov, String.eqb_refl.
  pose proof (_check_rate_limit_invocations c w) as (Hinv & _).
  rewrite _openai_complete_exhausted; [reflexivity|assumption|now rewrite Hinv].
Qed.

Lemma writes_after_limit prompt c w :
  writes prompt (_check_rate_limit c w).2 = writes prompt w.
Proof.
  unfold writes.
  pose proof (_check_rate_limit_invocations c w) as (_ & _ & _ & _ & Hw & Hs).
  now rewrite Hw, Hs.
Qed.

(** C6 (as the code has it).  On a cache miss, when the backend answers
    [k] quota errors in a row and then something else, and the
    interpreter's recursion limit admits [k] nested retries, [complete]
    returns after exactly [k + 1] backend invocations, the first when
    the rate limiter lets the call through and each next one 60 seconds
    after the one before: every quota error is retried, not only the
    first.  The gateway counts no retries; what ends a run of quota
    errors that does not stop by itself is the recursion limit: when
    it admits [retries] nested retries, the [RecursionError] that
    follows the invocation number [retries + 1] is caught and the
    fallback string is returned. *)
Theorem complete_retries_every_quota_error
    b retries c prompt max_tokens use_cache w :
  cache_hit prompt use_cache w = Return None ->
  provider c = "openai" ->
  openai_installed b = true ->
  let r := complete b retries c prompt max_tokens use_cache w in
  let n0 := length (invocations w) in
  let t0 := clock (_check_rate_limit c w).2 in
  (forall k o,
      settles b n0 prompt max_tokens k o ->
      (k <= retries)%nat ->
      (exists v, r.1.1 = Return v)
      /\ invocations r.2 = invocations w ++ retry_instants t0 k
      /\ length (invocations r.2) = (n0 + k + 1)%nat)
  /\ (quota_persists b n0 prompt max_tokens (S retries) ->
      r.1.1 = Return (JStr (_fallback_response prompt))
      /\ invocations r.2 = invocations w ++ retry_instants t0 retries
      /\ length (invocations r.2) = (n0 + retries + 1)%nat).
Proof.
  intros Hmiss Hprov Hinst. cbn zeta.
  pose proof (_check_rate_limit_invocations c w) as (Hinv & _).
  split.
  - intros k o Hsettles Hretries.
    rewrite (complete_on_miss b retries c prompt max_tokens use_cache w k o)
      by assumption.
    cbn [fst snd]. split; [eauto|].
    assert (Hi : forall w2,
               invocations
                 (match raw_result o with
                  | Return response =>
                      if use_cache
                      then (_cache_response (_check_rate_limit c w).1 prompt response w2).2
                      else w2
                  | Raised _ => w2
                  end) = invocations w2).
    { intros w2. destruct (raw_result o), use_cache; try reflexivity.
      apply _cache_response_end. }
    rewrite Hi. cbn [after_retries invocations]. rewrite Hinv.
    split; [reflexivity|].
    rewrite length_app, retry_instants_length. lia.
  - intros Hquota.
    rewrite (complete_on_exhaustion b retries c prompt max_tokens use_cache w)
      by assumption.
    cbn [fst snd after_quota_errors invocations]. rewrite Hinv.
    repeat split. rewrite length_app, retry_instants_length. lia.
Qed.

(** C2 (as the code has it).  [complete] hands an exception to its
    caller in two cases, both in the cache lookup, which stands before
    the [try], and so only when [use_cache] is true: the
    [UnicodeEncodeError] of a prompt that cannot be encoded, and the
    [PermissionError] of a cache directory that cannot be searched;
    client and world are then as they were.  In every other case it
    returns: the cached value on a hit; on a miss, the
    fallback string when the provider is unsupported; the empty string
    without the [openai] package or on an authentication error and the
    backend's text on success, each replaced by the fallback string
    when the cache write that follows fails; and the fallback string
    when the backend raises any other error or when the quota errors
    outlast the recursion limit. *)
Theorem complete_returns_degraded b retries c prompt max_tokens use_cache w :
  let r := complete b retries c prompt max_tokens use_cache w in
  let n0 := length (invocations w) in
  let kept := stored prompt use_cache w in
  let fallback := _fallback_response prompt in
  (forall e,
      r.1.1 = Raised e
      <-> use_cache = true
          /\ ((md5_hexdigest prompt = None /\ e = "UnicodeEncodeError")
              \/ (md5_hexdigest prompt <> None /\ searchable w = false
                  /\ e = "PermissionError")))
  /\ (forall e, r.1.1 = Raised e -> r.1.2 = c /\ r.2 = w)
  /\ (forall cached,
        cache_hit prompt use_cache w = Return (Some cached) -> r.1.1 = Return cached)
  /\ (cache_hit prompt use_cache w = Return None ->
      (provider c <> "openai" -> r.1.1 = Return (JStr fallback))
      /\ (provider c = "openai" -> openai_installed b = false ->
          r.1.1 = Return (JStr (if kept then "" else fallback)))
      /\ (forall k o,
            settles b n0 prompt max_tokens k o -> (k <= retries)%nat ->
            r.1.1 = Return (JStr (answer c b prompt o kept)))
      /\ (provider c = "openai" -> openai_installed b = true ->
          quota_persists b n0 prompt max_tokens (S retries) ->
          r.1.1 = Return (JStr fallback))).
Proof.
  cbn zeta.
  assert (Hother : cache_hit prompt use_cache w = Return None ->
                   provider c <> "openai" ->
                   (complete b retries c prompt max_tokens use_cache w).1.1
                   = Return (JStr (_fallback_response prompt))).
  { intros Hmiss Hprov.
    rewrite (complete_on_miss_raw b retries c prompt max_tokens use_cache w Hmiss).
    cbn zeta. apply String.eqb_neq in Hprov. rewrite Hprov. reflexivity. }
  assert (Hbare : cache_hit prompt use_cache w = Return None ->
                  provider c = "openai" -> openai_installed b = false ->
                  (complete b retries c prompt max_tokens use_cache w).1.1
                  = Return (JStr (if stored prompt use_cache w then ""
                                  else _fallback_response prompt))).
  { intros Hmiss Hprov Hinst.
    rewrite (complete_on_miss_raw b retries c prompt max_tokens use_cache w Hmiss).
    cbn zeta. rewrite Hprov, String.eqb_refl.
    assert (Hraw : forall c1 w1,
              _openai_complete b retries c1 prompt max_tokens w1 = (Return "", w1)).
    { intros c1 w1. destruct retries; cbn [_openai_complete]; now rewrite Hinst. }
    rewrite Hraw. cbn [fst snd finish]. unfold stored.
    rewrite writes_after_limit. now destruct use_cache. }
  assert (Hraise : forall e,
            (complete b retries c prompt max_tokens use_cache w).1.1 = Raised e
            <-> cache_hit prompt use_cache w = Raised e).
  { intros e.
    destruct (cache_hit prompt use_cache w) as [[cached|]|e0] eqn:Hhit.
    - rewrite (complete_on_hit _ _ _ _ _ _ _ _ Hhit). cbn [fst].
      split; intros H; discriminate H.
    - rewrite (complete_on_miss_raw b retries c prompt max_tokens use_cache w Hhit).
      cbn zeta.
      match goal with |- context [finish ?c1 ?p ?u ?a ?w2] =>
        destruct (finish_shape c1 p u a w2) as ((v & Hv) & _) end.
      rewrite Hv. split; intros H; discriminate H.
    - rewrite (complete_on_lookup_error _ _ _ _ _ _ _ _ Hhit). cbn [fst].
      split; intros [= <-]; reflexivity. }
  split; [|split; [|split]].
  - intros e. rewrite Hraise, cache_hit_raises, lookup_error_spec. reflexivity.
  - intros e He. apply Hraise in He.
    now rewrite (complete_on_lookup_error _ _ _ _ _ _ _ _ He).
  - intros cached Hhit. now rewrite (complete_on_hit _ _ _ _ _ _ _ _ Hhit).
  - intros Hmiss. split; [now apply Hother|]. split; [now apply Hbare|]. split.
    + intros k o Hsettles Hretries. unfold answer.
      destruct (String.eqb (provider c) "openai") eqn:Hprov; cbn [negb].
      * apply String.eqb_eq in Hprov.
        destruct (openai_installed b) eqn:Hinst; cbn [negb].
        -- rewrite (complete_on_miss b retries c prompt max_tokens use_cache w k o)
             by assumption.
           cbn [fst]. unfold answer.
           now rewrite Hprov, String.eqb_refl, Hinst.
        -- now apply Hbare.
      * apply String.eqb_neq in Hprov. now apply Hother.
    + intros Hprov Hinst Hquota.
      now rewrite (complete_on_exhaustion b retries c prompt max_tokens use_cache w)
        by assumption.
Qed.

(** ** The cache *)

(** C4 (as the code has it).  With [use_cache=True], when the cache
    file of the prompt holds a document stamped less than 24 hours ago
    whose response is not empty, [complete] returns that response and
    leaves the client and the world as they were: no backend
    invocation, no timestamp added to the rate window. *)
Theorem complete_serves_fresh_entry
    b retries c prompt max_tokens w data ts cached_at cached :
  cache_file prompt w = Some (Document data) ->
  subscript data "timestamp" = Some (JStr ts) ->
  fromisoformat ts = Some cached_at ->
  clock w - cached_at < hours 24 ->
  subscript data "response" = Some cached ->
  truthy cached = true ->
  complete b retries c prompt max_tokens true w = (Return cached, c, w).
Proof.
  intros Hfile Hts Hparse Hfresh Hresp Htruthy.
  apply complete_on_hit. unfold cache_hit, _get_cached.
  unfold cache_file in Hfile.
  destruct (md5_hexdigest prompt) as [key|]; [|discriminate].
  destruct (searchable w); [|discriminate]. cbn [negb].
  rewrite Hfile, Hts, Hparse.
  apply Z.ltb_lt in Hfresh. rewrite Hfresh, Hresp, Htruthy. reflexivity.
Qed.

(** What the lookup finds right after a write that returned. *)
Lemma _get_cached_after_store c prompt response w key d :
  (forall t, fromisoformat (isoformat t) = Some t) ->
  md5_hexdigest prompt = Some key ->
  searchable w = true ->
  _get_cached prompt
    (sleep d (store key (Document (cache_entry c prompt response (clock w))) w))
  = Return (if d <? hours 24 then Some (JStr response) else None).
Proof.
  intros Hiso Hkey Hs. unfold _get_cached. rewrite Hkey.
  cbn [sleep store cache_dir clock searchable]. rewrite Hs, lookup_insert_eq.
  cbn [negb].
  cbn [cache_entry subscript assoc String.eqb Ascii.eqb Bool.eqb].
  rewrite Hiso. replace (clock w + d - clock w) with d by lia.
  now destruct (d <? hours 24).
Qed.

(** Two calls in a row: when the first one misses the cache, the
    backend ends up with a non-empty completion and the cache file is
    written, a second call less than 24 hours later is served from the
    cache and changes nothing. *)
Lemma complete_twice b retries retries' c prompt max_tokens w key k text d :
  (forall t, fromisoformat (isoformat t) = Some t) ->
  md5_hexdigest prompt = Some key ->
  on_write w key = Written ->
  cache_hit prompt true w = Return None ->
  provider c = "openai" ->
  openai_installed b = true ->
  settles b (length (invocations w)) prompt max_tokens k (Completion text) ->
  (k <= retries)%nat ->
  text <> "" ->
  d < hours 24 ->
  exists c1 w1,
    complete b retries c prompt max_tokens true w = (Return (JStr text), c1, w1)
    /\ complete b retries' c1 prompt max_tokens true (sleep d w1)
       = (Return (JStr text), c1, sleep d w1).
Proof.
  intros Hiso Hkey Hwrite Hmiss Hprov Hinst Hsettles Hretries Htext Hd.
  rewrite (complete_on_miss b retries c prompt max_tokens true w k (Completion text))
    by assumption.
  cbn [raw_result].
  pose proof (cache_hit_returns prompt w None Hmiss) as Hopen.
  pose proof (_check_rate_limit_invocations c w) as (_ & _ & _ & _ & Hw & Hs).
  rewrite (_cache_response_written _ prompt text _ key Hkey)
    by (cbn [after_retries on_write searchable]; congruence).
  cbn [snd]. do 2 eexists; split.
  { unfold answer, stored, writes.
    rewrite Hprov, String.eqb_refl, Hinst, Hkey, Hwrite, Hopen. reflexivity. }
  apply complete_on_hit. unfold cache_hit.
  rewrite (_get_cached_after_store _ prompt text _ key d Hiso Hkey)
    by (cbn [after_retries searchable]; congruence).
  apply Z.ltb_lt in Hd. rewrite Hd. cbn [truthy].
  destruct text; [congruence|reflexivity].
Qed.

(** A cache file that cannot be used: it cannot be read or is not
    JSON, it has no ["response"], or its ["timestamp"] is missing, is
    not text, or does not parse. *)
Definition corrupt (f : file) : Prop :=
  match f with
  | Unreadable | NotJson => True
  | Document data =>
      subscript data "response" = None
      \/ match subscript data "timestamp" with
         | Some (JStr ts) => fromisoformat ts = None
         | _ => True
         end
  end.

Lemma _get_cached_corrupt prompt w key :
  md5_hexdigest prompt = Some key ->
  searchable w = true ->
  (forall f, cache_dir w !! key = Some f -> corrupt f) ->
  _get_cached prompt w = Return None.
Proof.
  intros Hkey Hs Hbad. unfold _get_cached. rewrite Hkey, Hs. cbn [negb]. f_equal.
  destruct (cache_dir w !! key) as [f|]; [|reflexivity].
  specialize (Hbad f eq_refl).
  destruct f as [| |data]; try reflexivity.
  destruct Hbad as [Hresp|Hts].
  - rewrite Hresp. repeat (case_match; try reflexivity).
  - destruct (subscript data "timestamp") as [[]|]; try reflexivity.
    now rewrite Hts.
Qed.

(** C10.  When the cache file of the prompt is there (the prompt has
    a digest and the cache directory answers) and is corrupt, the lookup
    reports a miss and does not raise, and [complete] takes every step
    of a miss on a missing file, which the statement covers as well:
    the rate limiter prunes the window and records the arrival; the
    call does not raise; with the [openai] provider the backend is
    invoked from the instant the limiter lets the call through, once
    more after each quota error; what is returned is what a miss
    returns; and when the backend call returns a text and the file can
    be written, the corrupt file is replaced by the new entry. *)
Theorem complete_on_corrupt_cache_file b retries c prompt max_tokens w key :
  md5_hexdigest prompt = Some key ->
  searchable w = true ->
  (forall f, cache_dir w !! key = Some f -> corrupt f) ->
  let r := complete b retries c prompt max_tokens true w in
  let n0 := length (invocations w) in
  let c1 := (_check_rate_limit c w).1 in
  let t0 := clock (_check_rate_limit c w).2 in
  _get_cached prompt w = Return None
  /\ r.1.2 = c1
  /\ request_times r.1.2
     = List.filter (fun t => clock w - t <? rate_window) (request_times c)
       ++ [clock w]
  /\ (exists v, r.1.1 = Return (JStr v))
  /\ (provider c = "openai" -> openai_installed b = true ->
      (forall k o,
          settles b n0 prompt max_tokens k o -> (k <= retries)%nat ->
          r.1.1 = Return (JStr (answer c b prompt o (stored prompt true w)))
          /\ invocations r.2 = invocations w ++ retry_instants t0 k
          /\ (forall text,
                raw_result o = Return text -> on_write w key = Written ->
                cache_dir r.2
                = <[key := Document
                             (cache_entry c1 prompt text
                                (t0 + seconds 60 * Z.of_nat k))]> (cache_dir w)))
      /\ (quota_persists b n0 prompt max_tokens (S retries) ->
          r.1.1 = Return (JStr (_fallback_response prompt))
          /\ invocations r.2 = invocations w ++ retry_instants t0 retries)).
Proof.
  intros Hkey Hopen Hbad. cbn zeta.
  pose proof (_get_cached_corrupt prompt w key Hkey Hopen Hbad) as Hlookup.
  assert (Hmiss : cache_hit prompt true w = Return None)
    by (unfold cache_hit; now rewrite Hlookup).
  pose proof (_check_rate_limit_invocations c w) as (Hinv & Hcache & _ & _ & Hw & Hs).
  split; [exact Hlookup|].
  pose proof (complete_on_miss_raw b retries c prompt max_tokens true w Hmiss) as Hraw.
  cbn zeta in Hraw.
  match type of Hraw with _ = finish ?c1 ?p ?u ?a ?w2 =>
    destruct (finish_shape c1 p u a w2) as (Hv & Hc & _) end.
  rewrite <- Hraw in Hv, Hc.
  split; [exact Hc|]. split; [now rewrite Hc|]. split; [exact Hv|].
  intros Hprov Hinst. split.
  - intros k o Hsettles Hretries.
    rewrite (complete_on_miss b retries c prompt max_tokens true w k o) by assumption.
    cbn [fst snd]. split; [reflexivity|]. split.
    + destruct (raw_result o); cbn [after_retries invocations];
        rewrite ?(proj1 (proj2 (_cache_response_end _ _ _ _)));
        cbn [after_retries invocations]; now rewrite Hinv.
    + intros text Htext Hwrite. rewrite Htext.
      rewrite (_cache_response_written _ prompt text _ key Hkey)
        by (cbn [after_retries on_write searchable]; congruence).
      cbn [snd store cache_dir after_retries clock]. now rewrite Hcache.
  - intros Hquota.
    rewrite (complete_on_exhaustion b retries c prompt max_tokens true w) by assumption.
    cbn [fst snd after_quota_errors invocations]. now rewrite Hinv.
Qed.

End WithLibrary.

(** ** The rate window *)

(** At the limit the caller is held until the oldest kept timestamp is
    60 seconds old; the timestamp then recorded is the instant the call
    arrived, not the instant it is let through. *)
Lemma _check_rate_limit_at_limit c w oldest rest :
  List.filter (fun t => clock w - t <? rate_window) (request_times c)
  = oldest :: rest ->
  (rate_limit <= length (oldest :: rest))%nat ->
  clock (_check_rate_limit c w).2 = oldest + rate_window
  /\ clock w < clock (_check_rate_limit c w).2
  /\ request_times (_check_rate_limit c w).1 = (oldest :: rest) ++ [clock w].
Proof.
  intros Hkept Hfull.
  assert (Hyoung : clock w - oldest < rate_window).
  { apply Z.ltb_lt.
    assert (Hin : In oldest (oldest :: rest)) by now left.
    rewrite <- Hkept in Hin. now apply List.filter_In in Hin. }
  unfold _check_rate_limit. rewrite Hkept.
  apply Nat.leb_le in Hfull. rewrite Hfull.
  assert (Hpos : (0 <? oldest + rate_window - clock w) = true)
    by (apply Z.ltb_lt; lia).
  rewrite Hpos. cbn [fst snd sleep clock set_request_times request_times].
  repeat split; lia.
Qed.

(** ** A concrete library and concrete runs *)

(** A stand-in for Unicode's table: the letters beyond ASCII are left
    as they are. *)
Definition plain_unicode : PyStr.Unicode := {|
  PyStr.lower_wide := fun _ here => PyStr.take_chars 1 here;
|}.

(** A lone surrogate as UTF-8 would hold it: byte 237, then a byte from
    160 to 191. *)
Fixpoint holds_surrogate (s : string) : bool :=
  match s with
  | EmptyString => false
  | String a r =>
      match r with
      | EmptyString => false
      | String b _ =>
          ((PyStr.code a =? 237) && (160 <=? PyStr.code b) && (PyStr.code b <=? 191))%nat
          || holds_surrogate r
      end
  end.

(** A stand-in for the standard library: the digest of a text that can
    be encoded is the text itself, and a timestamp is printed as its
    number of microseconds. *)
Definition decimal_lib : PyLib := {|
  unicode := plain_unicode;
  md5_hexdigest := fun s => if holds_surrogate s then None else Some s;
  json_dumps := fun _ _ => "{}";
  fromisoformat := fun s => option_map Z.of_int (NilZero.int_of_string s);
  isoformat := fun t => pretty t;
  path_match := fun path pattern => String.eqb path pattern;
|}.

(** The client after [__init__], and a world with an empty cache whose
    files can be written. *)
Definition fresh_client : LLMClient :=
  {| model := "gpt-4o-mini"; provider := "openai"; request_times := [] |}.

Definition empty_world : World :=
  {| clock := 0; cache_dir := ∅; invocations := []; searchable := true; on_write := fun _ => Written |}.

(** The same world on a file system that takes no write. *)
Definition read_only_world : World :=
  {| clock := 0; cache_dir := ∅; invocations := []; searchable := true; on_write := fun _ => Refused |}.

Definition always_completes : Backend :=
  {| openai_installed := true; reply := fun _ _ _ => Completion "ls -la" |}.

Definition quota_twice : Backend :=
  {| openai_installed := true;
     reply := fun n _ _ => if (n <? 2)%nat then RateLimitError
                           else Completion "ls -la" |}.

Definition quota_forever : Backend :=
  {| openai_installed := true; reply := fun _ _ _ => RateLimitError |}.

Definition bad_key_then_fine : Backend :=
  {| openai_installed := true;
     reply := fun n _ _ => match n with
                           | O => AuthenticationError
                           | S _ => Completion "ls -la"
                           end |}.

Lemma quota_twice_settles prompt max_tokens :
  settles quota_twice 0 prompt max_tokens 2 (Completion "ls -la").
Proof.
  repeat split.
  - intros [|[|i]] Hi; try reflexivity. lia.
  - discriminate.
Defined.

(** C5 (the code differs).  Twenty-one calls, each issued one second
    after the previous one returned, none served from the cache: the
    eleventh is held until second 61 but recorded at second 11, so the
    ten calls that follow pass at once; eleven backend invocations fall
    into the 60 seconds that start at second 61. *)
Theorem rate_window_overrun :
  let w := (run_calls (lib := decimal_lib) always_completes 1
              (repeat (seconds 1, "list files") 21) fresh_client empty_world).2 in
  invocations w
  = List.map seconds [1; 2; 3; 4; 5; 6; 7; 8; 9; 10;
                      61; 62; 63; 64; 65; 66; 67; 68; 69; 70; 71]
  /\ invocations_in_window (seconds 61) w = 11%nat
  /\ (rate_limit < invocations_in_window (seconds 61) w)%nat.
Proof. vm_compute. repeat split; lia. Qed.

Lemma two_quota_errors_three_invocations :
  match complete (lib := decimal_lib) quota_twice 3 fresh_client
          "list files" 500 false empty_world with
  | (Return v, c, w) =>
      v = JStr "ls -la"
      /\ invocations w = [0; seconds 60; seconds 120]
      /\ (2 < length (invocations w))%nat
  | _ => False
  end.
Proof. vm_compute. repeat split; lia. Qed.

(** With room for two nested retries, a backend that never stops
    reporting quota errors is called three times; the [RecursionError]
    of the retry that no longer fits ends in the fallback string. *)
Lemma persistent_quota_errors_end_in_fallback :
  complete (lib := decimal_lib) quota_forever 2 fresh_client "list files" 500 false
    empty_world
  = (Return (JStr "Unable to process request. LLM service unavailable."),
     set_request_times fresh_client [0],
     {| clock := seconds 180; cache_dir := ∅;
        invocations := [0; seconds 60; seconds 120];
        searchable := true; on_write := fun _ => Written |}).
Proof. reflexivity. Qed.

Lemma complete_retries_every_quota_error_witness :
  let r := complete (lib := decimal_lib) quota_twice 3 fresh_client "list files" 500
             false empty_world in
  let n0 := length (invocations empty_world) in
  let t0 := clock (_check_rate_limit fresh_client empty_world).2 in
  (forall k o,
      settles quota_twice n0 "list files" 500 k o ->
      (k <= 3)%nat ->
      (exists v, r.1.1 = Return v)
      /\ invocations r.2 = invocations empty_world ++ retry_instants t0 k
      /\ length (invocations r.2) = (n0 + k + 1)%nat)
  /\ (quota_persists quota_twice n0 "list files" 500 4 ->
      r.1.1 = Return (JStr (_fallback_response (lib := decimal_lib) "list files"))
      /\ invocations r.2 = invocations empty_world ++ retry_instants t0 3
      /\ length (invocations r.2) = (n0 + 3 + 1)%nat).
Proof.
  apply (complete_retries_every_quota_error (lib := decimal_lib) quota_twice 3
           fresh_client "list files" 500 false empty_world).
  - reflexivity.
  - reflexivity.
  - reflexivity.
Defined.

Lemma authentication_error_returns_empty_string :
  match complete (lib := decimal_lib) bad_key_then_fine 1 fresh_client
          "list files" 500 false empty_world with
  | (Return v, c, w) =>
      v = JStr ""
      /\ v <> JStr (_fallback_response (lib := decimal_lib) "list files")
      /\ length (invocations w) = 1%nat
  | _ => False
  end.
Proof. vm_compute. repeat split. discriminate. Qed.

(** A prompt that holds the lone surrogate U+D800: the digest of the
    cache lookup cannot be computed and the exception leaves
    [complete]. *)
Definition lone_surrogate : string :=
  String (ascii_of_nat 237) (String (ascii_of_nat 160) (String (ascii_of_nat 128) "")).

Lemma lone_surrogate_prompt_raises :
  complete (lib := decimal_lib) always_completes 1 fresh_client
    ("list " +:+ lone_surrogate) 500 true empty_world
  = (Raised "UnicodeEncodeError", fresh_client, empty_world)
  /\ (complete (lib := decimal_lib) always_completes 1 fresh_client
        ("list " +:+ lone_surrogate) 500 false empty_world).1.1
     = Return (JStr "ls -la").
Proof. split; reflexivity. Qed.

(** The backend answers, but the cache file cannot be written: the text
    is dropped and the fallback string is returned. *)
Lemma failed_cache_write_returns_fallback :
  (complete (lib := decimal_lib) always_completes 1 fresh_client "list files" 500
     true read_only_world).1.1
  = Return (JStr "Unable to process request. LLM service unavailable.")
  /\ (complete (lib := decimal_lib) always_completes 1 fresh_client "list files" 500
        true empty_world).1.1
     = Return (JStr "ls -la").
Proof. split; reflexivity. Qed.

(** The cache directory cannot be searched: [exists()] raises in the
    lookup, before the [try], and the exception leaves [complete];
    without the cache the same call is answered. *)
Definition closed_world : World :=
  {| clock := 0; cache_dir := ∅; invocations := []; searchable := false;
     on_write := fun _ => Refused |}.

Lemma unsearchable_cache_directory_raises :
  complete (lib := decimal_lib) always_completes 1 fresh_client "list files" 500
    true closed_world
  = (Raised "PermissionError", fresh_client, closed_world)
  /\ (complete (lib := decimal_lib) always_completes 1 fresh_client "list files" 500
        false closed_world).1.1
     = Return (JStr "ls -la").
Proof. split; reflexivity. Qed.

(** The world one hour after [response] was cached for [prompt]. *)
Definition cached_world (prompt response stamp : string) : World :=
  {| clock := hours 1;
     cache_dir := {[ prompt := Document (JObj [("prompt", JStr prompt);
                                               ("response", JStr response);
                                               ("timestamp", JStr stamp);
                                               ("model", JStr "gpt-4o-mini")]) ]};
     invocations := [0];
     searchable := true; on_write := fun _ => Written |}.

Lemma complete_serves_fresh_entry_witness :
  complete (lib := decimal_lib) always_completes 0 fresh_client "list files" 500
    true (cached_world "list files" "ls" "0")
  = (Return (JStr "ls"), fresh_client, cached_world "list files" "ls" "0").
Proof.
  apply (complete_serves_fresh_entry (lib := decimal_lib) always_completes 0
           fresh_client "list files" 500 (cached_world "list files" "ls" "0")
           (JObj [("prompt", JStr "list files"); ("response", JStr "ls");
                  ("timestamp", JStr "0"); ("model", JStr "gpt-4o-mini")])
           "0" 0 (JStr "ls")).
  - reflexivity.
  - reflexivity.
  - reflexivity.
  - reflexivity.
  - reflexivity.
  - reflexivity.
Defined.

(** A first call ends on an authentication error, so the empty string is
    returned and cached; one second later the entry is there and fresh,
    yet the second call goes to the rate limiter and to the backend. *)
Lemma empty_cached_response_is_not_served :
  match complete (lib := decimal_lib) bad_key_then_fine 1 fresh_client
          "list files" 500 true empty_world with
  | (Return v1, c1, w1) =>
      v1 = JStr ""
      /\ _get_cached (lib := decimal_lib) "list files" (sleep (seconds 1) w1)
         = Return (Some (JStr ""))
      /\ match complete (lib := decimal_lib) bad_key_then_fine 1 c1
                 "list files" 500 true (sleep (seconds 1) w1) with
         | (Return v2, c2, w2) =>
             v2 = JStr "ls -la"
             /\ invocations w1 = [0]
             /\ invocations w2 = [0; seconds 1]
             /\ request_times c1 = [0]
             /\ request_times c2 = [0; seconds 1]
         | _ => False
         end
  | _ => False
  end.
Proof. vm_compute. repeat split. Qed.

Lemma complete_on_corrupt_cache_file_witness :
  let w := cached_world "list files" "ls" "yesterday" in
  let r := complete (lib := decimal_lib) always_completes 1 fresh_client
             "list files" 500 true w in
  let n0 := length (invocations w) in
  let c1 := (_check_rate_limit fresh_client w).1 in
  let t0 := clock (_check_rate_limit fresh_client w).2 in
  _get_cached (lib := decimal_lib) "list files" w = Return None
  /\ r.1.2 = c1
  /\ request_times r.1.2
     = List.filter (fun t => clock w - t <? rate_window) (request_times fresh_client)
       ++ [clock w]
  /\ (exists v, r.1.1 = Return (JStr v))
  /\ (provider fresh_client = "openai" -> openai_installed always_completes = true ->
      (forall k o,
          settles always_completes n0 "list files" 500 k o -> (k <= 1)%nat ->
          r.1.1 = Return (JStr (answer (lib := decimal_lib) fresh_client
                                  always_completes "list files" o
                                  (stored (lib := decimal_lib) "list files" true w)))
          /\ invocations r.2 = invocations w ++ retry_instants t0 k
          /\ (forall text,
                raw_result o = Return text -> on_write w "list files" = Written ->
                cache_dir r.2
                = <["list files" :=
                      Document (cache_entry (lib := decimal_lib) c1 "list files" text
                                  (t0 + seconds 60 * Z.of_nat k))]> (cache_dir w)))
      /\ (quota_persists always_completes n0 "list files" 500 2 ->
          r.1.1 = Return (JStr (_fallback_response (lib := decimal_lib) "list files"))
          /\ invocations r.2 = invocations w ++ retry_instants t0 1)).
Proof.
  apply (complete_on_corrupt_cache_file (lib := decimal_lib) always_completes 1
           fresh_client "list files" 500
           (cached_world "list files" "ls" "yesterday") "list files").
  - reflexivity.
  - reflexivity.
  - intros f Hf. vm_compute in Hf. injection Hf as <-. right. reflexivity.
Defined.

End GatewaySpec.
(** * Properties of the agent *)
Module AgentSpec.
Import Agent.
Local Open Scope agent_scope.

(** [st] after its collaborators moved to [w] and the events [evs] were
    added; the agent's fields and the task store are as in [st]. *)
Definition advance {W} (st : State W) (w : W) (evs : list event) : State W :=
  {| self := self st; world := w; tasks_file := tasks_file st;
     trace := trace st ++ evs |}.

(** One plan step as the trace shows it: the command, then at most one
    request to the gateway, then at most one more command. *)
Definition step_shape (cmd : string) (chunk : list event) : Prop :=
  chunk = [EvExecute cmd]
  \/ (exists p, chunk = [EvExecute cmd; EvComplete p])
  \/ (exists p f, chunk = [EvExecute cmd; EvComplete p; EvExecute f]).


Lemma advance_advance {W} (st : State W) w1 evs1 w2 evs2 :
  advance (advance st w1 evs1) w2 evs2 = advance st w2 (evs1 ++ evs2).
Proof. unfold advance; cbn. now rewrite app_assoc. Qed.

Lemma advance_nil {W} (st : State W) : advance st (world st) [] = st.
Proof. destruct st; unfold advance; cbn. now rewrite app_nil_r. Qed.

Lemma dispatched_app tr1 tr2 : dispatched (tr1 ++ tr2) = dispatched tr1 ++ dispatched tr2.
Proof. unfold dispatched. apply omap_app. Qed.


Section WithServices.
Context {W : Type} {lib : PyLib} {services : Services W}.

Lemma self_executor_execute_eq command (st : State W) :
  self_executor_execute command st
  = (Return (executor_execute command (world st)).1,
     advance st (executor_execute command (world st)).2 [EvExecute command]).
Proof.
  unfold self_executor_execute, bind, log, call, advance; cbn.
  now destruct (executor_execute command (world st)).
Qed.

Lemma self_llm_complete_eq prompt (st : State W) :
  self_llm_complete prompt st
  = (Return (llm_complete prompt (world st)).1,
     advance st (llm_complete prompt (world st)).2 [EvComplete prompt]).
Proof.
  unfold self_llm_complete, bind, log, call, advance; cbn.
  now destruct (llm_complete prompt (world st)).
Qed.

(** The loop body of [_execute_task], by cases. *)
Lemma run_step_eq cmd (st : State W) :
  let r := (executor_execute cmd (world st)).1 in
  let w1 := (executor_execute cmd (world st)).2 in
  let p := fallback_prompt cmd (error r) in
  let f := PyStr.strip (llm_complete p w1).1 in
  let w2 := (llm_complete p w1).2 in
  run_step cmd st
  = (Return tt,
     if success r then advance st w1 [EvExecute cmd]
     else if String.eqb f "SKIP" || String.eqb f ""
          then advance st w2 [EvExecute cmd; EvComplete p]
          else advance st (executor_execute f w2).2
                 [EvExecute cmd; EvComplete p; EvExecute f]).
Proof.
  cbn zeta. unfold run_step, bind. rewrite self_executor_execute_eq.
  destruct (success (executor_execute cmd (world st)).1); [reflexivity|].
  unfold _get_fallback_strategy, bind. rewrite self_llm_complete_eq.
  unfold ret.
  destruct (String.eqb _ "SKIP") eqn:Hskip; cbn [orb].
  - now rewrite advance_advance.
  - destruct (PyStr.strip _) as [|ch rest] eqn:Hstrip; cbn [PyStr.truthy String.eqb].
    + now rewrite advance_advance.
    + rewrite self_executor_execute_eq, !advance_advance. reflexivity.
Qed.

Lemma run_step_shape cmd (st : State W) :
  exists st' chunk,
    run_step cmd st = (Return tt, st')
    /\ step_shape cmd chunk
    /\ trace st' = trace st ++ chunk
    /\ tasks_file st' = tasks_file st
    /\ self st' = self st.
Proof.
  rewrite run_step_eq.
  destruct (success _); [|destruct (_ || _)];
    eexists _, _; (split; [reflexivity|]); cbn [advance trace tasks_file self];
    repeat split; unfold step_shape; eauto.
Qed.

(** Every step of a plan is attempted, in order, whatever became of the
    steps before it. *)
Lemma plan_steps_all_attempted cmds :
  forall st : State W,
  exists st' chunks,
    for_each cmds run_step st = (Return tt, st')
    /\ Forall2 step_shape cmds chunks
    /\ trace st' = trace st ++ concat chunks
    /\ tasks_file st' = tasks_file st
    /\ self st' = self st.
Proof.
  induction cmds as [|cmd cmds IH]; intros st; cbn [for_each].
  - exists st, []. cbn. rewrite app_nil_r. repeat split; constructor.
  - destruct (run_step_shape cmd st) as (st1 & chunk & Hstep & Hshape & Htr & Htf & Hself).
    destruct (IH st1) as (st2 & chunks & Hrest & Hshapes & Htr2 & Htf2 & Hself2).
    exists st2, (chunk :: chunks). unfold bind. rewrite Hstep, Hrest.
    repeat split; try congruence.
    + now constructor.
    + rewrite Htr2, Htr. cbn [concat]. now rewrite app_assoc.
Qed.



(** C7 (as the code has it).  A plan step [cmd] fails with result [r];
    the gateway is asked once, with the prompt built from [cmd] and the
    error text, and answers [reply].  When [reply], stripped of the white
    space around it, is [SKIP] or is empty, nothing more is run for this
    step; otherwise the stripped reply is executed once and its result is
    not looked at.  Either way the step returns normally and the loop goes
    on with the remaining steps [rest], each of which is attempted in
    order with at most one gateway request and one fallback of its own. *)
Theorem failed_step_gets_one_fallback cmd rest (st : State W) r w1 reply w2 :
  executor_execute cmd (world st) = (r, w1) ->
  success r = false ->
  llm_complete (fallback_prompt cmd (error r)) w1 = (reply, w2) ->
  let p := fallback_prompt cmd (error r) in
  let f := PyStr.strip reply in
  let st1 :=
    if String.eqb f "SKIP" || String.eqb f ""
    then advance st w2 [EvExecute cmd; EvComplete p]
    else advance st (executor_execute f w2).2
           [EvExecute cmd; EvComplete p; EvExecute f] in
  run_step cmd st = (Return tt, st1)
  /\ for_each (cmd :: rest) run_step st = for_each rest run_step st1
  /\ exists st2 chunks,
       for_each rest run_step st1 = (Return tt, st2)
       /\ Forall2 step_shape rest chunks
       /\ trace st2 = trace st1 ++ concat chunks.
Proof.
  intros Hexec Hfail Hreply p f st1.
  assert (Hstep : run_step cmd st = (Return tt, st1)).
  { rewrite run_step_eq, Hexec. cbn [fst snd]. rewrite Hfail, Hreply. reflexivity. }
  split; [exact Hstep|]. split.
  - cbn [for_each]. unfold bind. now rewrite Hstep.
  - destruct (plan_steps_all_attempted rest st1) as (st2 & chunks & Hrun & Hshapes & Htr & _).
    eauto.
Qed.




(** ** The workflow dispatcher *)

Lemma _initial_analysis_quiet (st : State W) :
  dispatched (trace (_initial_analysis st).2) = dispatched (trace st).
Proof.
  unfold _initial_analysis, bind, log, get_self, put_self, call, lift, ret, raise.
  cbn [fst snd self world tasks_file trace].
  destruct (detector_detect (world st)) as [detection|e]; cbn [snd trace].
  - destruct (analyzer_analyze_project (detected_type detection) (world st))
      as [[result|e] w1]; cbn [snd trace].
    + destruct (py_len _); cbn [snd trace];
        rewrite dispatched_app; cbn; now rewrite app_nil_r.
    + rewrite dispatched_app; cbn; now rewrite app_nil_r.
  - rewrite dispatched_app; cbn; now rewrite app_nil_r.
Qed.

(** An action name outside [actions_map] is logged twice, as dispatched
    and as unknown, and nothing else happens. *)
Lemma unknown_action_skipped action file impact (st : State W) :
  actions_map (W := W) file impact action = None ->
  _execute_workflow_action action file impact st
  = (Return tt, advance st (world st) [EvAction action; EvUnknownAction action]).
Proof.
  intros Hnone. unfold _execute_workflow_action, bind, log. rewrite Hnone.
  unfold advance; cbn. now rewrite <- app_assoc.
Qed.

Lemma workflow_action_spec action file impact (st : State W) :
  exists r st',
    _execute_workflow_action action file impact st = (r, st')
    /\ dispatched (trace st') = dispatched (trace st) ++ [action]
    /\ (action <> "analyze_context" -> r = Return tt).
Proof.
  destruct (actions_map (W := W) file impact action) as [handler|] eqn:Hmap.
  - unfold _execute_workflow_action, bind, log. rewrite Hmap.
    cbn [fst snd self world tasks_file trace].
    unfold actions_map in Hmap.
    destruct (String.eqb action "detect_impact");
      [|destruct (String.eqb action "analyze_context") eqn:Hctx;
        [|destruct (String.eqb action "analyze_commit");
          [|destruct (String.eqb action "suggest_improvements")]]];
      try discriminate; injection Hmap as <-.
    + eexists _, _; split; [reflexivity|]. cbn [trace].
      rewrite dispatched_app. split; [reflexivity|auto].
    + apply String.eqb_eq in Hctx.
      unfold _action_analyze_context.
      match goal with |- context [_initial_analysis ?s] =>
        pose proof (_initial_analysis_quiet s) as Hq;
        destruct (_initial_analysis s) as [r st'] end.
      exists r, st'. cbn [snd trace] in Hq. rewrite Hq, dispatched_app.
      repeat split; try reflexivity. congruence.
    + unfold _action_analyze_commit, bind. rewrite self_executor_execute_eq.
      eexists _, _; split; [reflexivity|]. cbn [advance trace].
      rewrite !dispatched_app; cbn. rewrite app_nil_r. split; [reflexivity|auto].
    + unfold _action_suggest_improvements, bind. rewrite self_llm_complete_eq.
      eexists _, _; split; [reflexivity|]. cbn [advance trace].
      rewrite !dispatched_app; cbn. rewrite app_nil_r. split; [reflexivity|auto].
  - rewrite (unknown_action_skipped _ _ _ _ Hmap).
    eexists _, _; split; [reflexivity|]. cbn [advance trace].
    rewrite dispatched_app; cbn. split; [reflexivity|auto].
Qed.

Lemma workflow_loop_spec file impact workflow :
  forall st : State W,
  exists r st' n,
    for_each workflow (fun action => _execute_workflow_action action file impact) st
    = (r, st')
    /\ (n <= length workflow)%nat
    /\ dispatched (trace st') = dispatched (trace st) ++ take n workflow
    /\ (r = Return tt -> n = length workflow)
    /\ (~ In "analyze_context" workflow -> r = Return tt).
Proof.
  induction workflow as [|action workflow IH]; intros st; cbn [for_each].
  - exists (Return tt), st, 0%nat. cbn. rewrite app_nil_r. repeat split; auto.
  - destruct (workflow_action_spec action file impact st) as (r1 & st1 & Hact & Htr & Hok).
    unfold bind. rewrite Hact. destruct r1 as [[]|e].
    + destruct (IH st1) as (r & st2 & n & Hrest & Hn & Htr2 & Hall & Hsafe).
      exists r, st2, (S n). rewrite Hrest. cbn [length take].
      repeat split.
      * lia.
      * rewrite Htr2, Htr. now rewrite <- app_assoc.
      * intros Hr. now rewrite (Hall Hr).
      * intros Hnot. apply Hsafe. intros Hin. apply Hnot. now right.
    + exists (Raised e), st1, 1%nat. cbn [length take].
      repeat split.
      * lia.
      * now rewrite take_0.
      * discriminate.
      * intros Hnot. apply Hok. intros ->. apply Hnot. now left.
Qed.

(** C9 (as the code has it).  A file event that is not ignored and
    whose impact is classified [high]: the action names of the configured
    [on_file_change] list are dispatched in list order, all of them when
    the handler returns normally, which it does whenever the list does
    not name [analyze_context]; an action name with no registered handler
    is logged as unknown and skipped, without stopping the loop. *)
Theorem high_impact_dispatches_workflow path event_type (st : State W) impact w1 :
  _should_ignore (self st) path = false ->
  analyzer_analyze_file_change path event_type (project_type (self st)) (world st)
  = (impact, w1) ->
  is_high impact = true ->
  let workflow := default [] (workflows_on_file_change (config (self st))) in
  (exists r st' n,
      on_file_change path event_type st = (r, st')
      /\ (n <= length workflow)%nat
      /\ dispatched (trace st') = dispatched (trace st) ++ take n workflow
      /\ (r = Return tt -> n = length workflow)
      /\ (~ In "analyze_context" workflow -> r = Return tt))
  /\ (forall action (st0 : State W),
        actions_map (W := W) path impact action = None ->
        _execute_workflow_action action path impact st0
        = (Return tt,
           advance st0 (world st0) [EvAction action; EvUnknownAction action])).
Proof.
  intros Hignore Himpact Hhigh workflow.
  split; [|intros; now apply unknown_action_skipped].
  unfold on_file_change, bind, get_self, call.
  cbn [fst snd self world tasks_file trace].
  rewrite Hignore, Himpact. cbn [self]. rewrite Hhigh.
  match goal with |- context [for_each ?wf ?body ?s] =>
    destruct (workflow_loop_spec path impact wf s)
      as (r & st' & n & Hrun & Hn & Htr & Hall & Hsafe) end.
  exists r, st', n. cbn [trace] in Htr. repeat split; assumption.
Qed.

End WithServices.

(** ** Stubbed collaborators and concrete runs *)

Definition ran (rc : Z) (err : string) : ExecutionResult :=
  {| success := rc =? 0; output := ""; error := err; exit_code := rc |}.

(** A stubbed gateway that answers [plan], or [reply] when asked for a
    fallback; a stubbed executor on which exactly the commands selected by
    [fails] fail; a detector that raises unless [tree_ok]; an analyzer
    that classifies every change as [high]. *)
Definition stub (plan reply : string) (fails : string -> bool) (tree_ok : bool)
  : Services unit := {|
  llm_complete := fun prompt w =>
    (if PyStr.startswith prompt "The command failed" then reply else plan, w);
  executor_execute := fun command w =>
    (if fails command then ran 2 "No rule to make target" else ran 0 "", w);
  detector_detect := fun _ =>
    if tree_ok
    then Return {| detected_type := "node"; detected_files := ["package.json"] |}
    else Raised "JSONDecodeError";
  analyzer_analyze_project := fun _ w => (Return [("insights", JArr [])], w);
  analyzer_analyze_file_change := fun _ _ _ w => ([("severity", JStr "high")], w);
  datetime_now := fun _ => 0;
|}.

(** The agent right after [__init__], with a given [on_file_change] list. *)
Definition new_agent (workflow : list string) : AutonomousAgent :=
  {| config := {| agent_ignore_patterns := None;
                  workflows_on_file_change := Some workflow |};
     project_type := None; project_files := None; analysis := None;
     last_analysis := None |}.

Definition idle (agent : AutonomousAgent) (tasks : option (list Task)) : State unit :=
  {| self := agent; world := tt; tasks_file := tasks; trace := [] |}.

Definition list_files : Task :=
  {| id := "3f2a9c1e"; description := "list files"; status := "pending";
     auto_execute := false; created_at := "12.5" |}.

Definition commands_run (tr : list event) : list string :=
  omap (fun e => match e with EvExecute c => Some c | _ => None end) tr.


(** The gateway answers a fallback request with the empty string (what
    [complete] returns on an authentication error): the reply is not
    [SKIP], and no fallback is executed. *)
Lemma empty_reply_runs_no_fallback :
  let services := stub "make build" "" (String.eqb "make build") true in
  let p := fallback_prompt "make build" "No rule to make target" in
  (llm_complete (Services := services) p tt).1 = ""
  /\ (llm_complete (Services := services) p tt).1 <> "SKIP"
  /\ run_step (services := services) "make build" (idle (new_agent []) None)
     = (Return tt,
        {| self := new_agent []; world := tt; tasks_file := None;
           trace := [EvExecute "make build"; EvComplete p] |}).
Proof. vm_compute. repeat split. discriminate. Qed.

Lemma failed_step_gets_one_fallback_witness :
  let services := stub "make build" "  make -k build " (String.eqb "make build") true in
  let st := idle (new_agent []) None in
  let p := fallback_prompt "make build" "No rule to make target" in
  let st1 := advance st tt
               [EvExecute "make build"; EvComplete p; EvExecute "make -k build"] in
  run_step (services := services) "make build" st = (Return tt, st1)
  /\ for_each ["make build"; "make test"] (run_step (services := services)) st
     = for_each ["make test"] (run_step (services := services)) st1
  /\ exists st2 chunks,
       for_each ["make test"] (run_step (services := services)) st1 = (Return tt, st2)
       /\ Forall2 step_shape ["make test"] chunks
       /\ trace st2 = trace st1 ++ concat chunks.
Proof.
  intros services st p st1.
  apply (failed_step_gets_one_fallback (services := services)
           "make build" ["make test"] st (ran 2 "No rule to make target") tt
           "  make -k build " tt).
  - reflexivity.
  - reflexivity.
  - reflexivity.
Defined.

(** [package.json] is being edited and does not parse: the re-analysis
    started by [analyze_context] raises in the detector, the exception
    leaves [on_file_change], and [suggest_improvements] is not
    dispatched. *)
Lemma raising_handler_stops_workflow :
  match on_file_change (lib := GatewaySpec.decimal_lib)
          (services := stub "" "SKIP" (fun _ => false) false)
          "package.json" "modified"
          (idle (new_agent ["analyze_context"; "suggest_improvements"]) None) with
  | (r, st') =>
      r = Raised "JSONDecodeError"
      /\ dispatched (trace st') = ["analyze_context"]
      /\ dispatched (trace st') <> ["analyze_context"; "suggest_improvements"]
  end.
Proof. vm_compute. repeat split. discriminate. Qed.

Lemma high_impact_dispatches_workflow_witness :
  let services := stub "" "SKIP" (fun _ => false) true in
  let lib := GatewaySpec.decimal_lib in
  let st := idle (new_agent ["detect_impact"; "deploy"; "analyze_commit"]) None in
  let workflow := ["detect_impact"; "deploy"; "analyze_commit"] in
  (exists r st' n,
      on_file_change (lib := lib) (services := services) "src/app.py" "modified" st
      = (r, st')
      /\ (n <= length workflow)%nat
      /\ dispatched (trace st') = dispatched (trace st) ++ take n workflow
      /\ (r = Return tt -> n = length workflow)
      /\ (~ In "analyze_context" workflow -> r = Return tt))
  /\ (forall action (st0 : State unit),
        actions_map (lib := lib) (services := services) "src/app.py"
          [("severity", JStr "high")] action = None ->
        _execute_workflow_action (lib := lib) (services := services) action
          "src/app.py" [("severity", JStr "high")] st0
        = (Return tt,
           advance st0 (world st0) [EvAction action; EvUnknownAction action])).
Proof.
  intros services lib st workflow.
  apply (high_impact_dispatches_workflow (lib := lib) (services := services)
           "src/app.py" "modified" st [("severity", JStr "high")] tt).
  - reflexivity.
  - reflexivity.
  - reflexivity.
Defined.

End AgentSpec.

(** * Facts about the [str] methods *)
Module PyStrFacts.
Import PyStr.

Lemma append_cons c a b : String c a +:+ b = String c (a +:+ b).
Proof. reflexivity. Qed.

Lemma append_nil_r a : a +:+ "" = a.
Proof. induction a as [|c a IH]; [reflexivity|]. now rewrite append_cons, IH. Qed.

Lemma append_assoc a b c : (a +:+ b) +:+ c = a +:+ (b +:+ c).
Proof.
  induction a as [|d a IH]; [reflexivity|]. now rewrite !append_cons, IH.
Qed.

Lemma startswith_spec s p :
  startswith s p = true <-> exists post, s = p +:+ post.
Proof.
  revert s; induction p as [|a p IH]; intros s; cbn.
  - split; [intros _; now exists s | intros _; now destruct s].
  - destruct s as [|b s]; cbn.
    + split; [discriminate | intros [post Hpost]; discriminate].
    + rewrite andb_true_iff, IH. split.
      * intros [Hab [post ->]]. apply Ascii.eqb_eq in Hab as ->. now exists post.
      * intros [post Hpost]. injection Hpost as -> ->.
        split; [apply Ascii.eqb_refl | now exists post].
Qed.

(** [p in s] holds exactly when [s] is some text, then [p], then some
    text. *)
Lemma contains_spec s p :
  contains s p = true <-> exists pre post, s = pre +:+ p +:+ post.
Proof.
  induction s as [|c s IH].
  - cbn [contains]. rewrite orb_false_r, startswith_spec. split.
    + intros [post Hpost]. now exists "", post.
    + intros (pre & post & Hs). destruct pre; [now exists post|discriminate].
  - cbn [contains]. rewrite orb_true_iff, startswith_spec, IH. split.
    + intros [[post Hpost]|(pre & post & ->)].
      * now exists "", post.
      * now exists (String c pre), post.
    + intros (pre & post & Hs). destruct pre as [|d pre]; cbn in Hs.
      * left. now exists post.
      * right. injection Hs as -> ->. now exists pre, post.
Qed.

Lemma contains_app_r a s p : contains s p = true -> contains (a +:+ s) p = true.
Proof.
  rewrite !contains_spec. intros (pre & post & ->).
  exists (a +:+ pre), post. now rewrite append_assoc.
Qed.

(** ** [str.lower] *)

Section Lower.
Context {U : Unicode}.

(** ASCII text is lowered by the ASCII table, whatever stands before
    and after it. *)
Lemma lower_from_ascii_app lit :
  is_ascii lit = true ->
  forall before post,
    lower_from before (lit +:+ post)
    = ascii_lower lit +:+ lower_from (before +:+ lit) post.
Proof.
  induction lit as [|a lit IH]; intros Hascii before post.
  - now rewrite append_nil_r.
  - cbn [is_ascii] in Hascii. apply andb_true_iff in Hascii as [Ha Hlit].
    rewrite append_cons. cbn [lower_from ascii_lower]. rewrite Ha.
    rewrite (IH Hlit), append_assoc. reflexivity.
Qed.

Lemma lower_from_app a :
  forall before b,
    exists x, lower_from before (a +:+ b) = x +:+ lower_from (before +:+ a) b.
Proof.
  induction a as [|c a IH]; intros before b.
  - exists "". now rewrite append_nil_r.
  - rewrite append_cons. cbn [lower_from].
    destruct (IH (before +:+ String c "") b) as [x Hx]. rewrite Hx.
    eexists. rewrite <- append_assoc. f_equal.
    now rewrite append_assoc.
Qed.

Lemma lower_ascii s : is_ascii s = true -> lower s = ascii_lower s.
Proof.
  intros Hascii. unfold lower.
  rewrite <- (append_nil_r s) at 1.
  rewrite (lower_from_ascii_app s Hascii). cbn [lower_from]. apply append_nil_r.
Qed.

(** Where ASCII text stands in a text, its ASCII lower case stands in
    the lowered text. *)
Lemma lower_keeps_ascii pre lit post :
  is_ascii lit = true ->
  exists pre' post', lower (pre +:+ lit +:+ post) = pre' +:+ ascii_lower lit +:+ post'.
Proof.
  intros Hascii. unfold lower.
  destruct (lower_from_app pre "" (lit +:+ post)) as [x Hx].
  rewrite Hx, (lower_from_ascii_app lit Hascii). eauto.
Qed.

Lemma lower_contains_ascii pre lit post p :
  is_ascii lit = true ->
  contains (ascii_lower lit) p = true ->
  contains (lower (pre +:+ lit +:+ post)) p = true.
Proof.
  intros Hascii Hp.
  destruct (lower_keeps_ascii pre lit post Hascii) as (pre' & post' & ->).
  apply contains_app_r. apply contains_spec in Hp as (x & y & ->).
  apply contains_spec. exists x, (y +:+ post'). now rewrite !append_assoc.
Qed.

Lemma lower_contains_suffix pre lit p :
  is_ascii lit = true ->
  contains (ascii_lower lit) p = true ->
  contains (lower (pre +:+ lit)) p = true.
Proof.
  intros Hascii Hp. rewrite <- (append_nil_r lit).
  now apply lower_contains_ascii.
Qed.

End Lower.

(** ** [str.strip] *)

(** The text begins with a white-space character. *)
Definition starts_with_space (s : string) : bool :=
  match s with
  | EmptyString => false
  | String a r =>
      space1 a
      || match r with
         | EmptyString => false
         | String b r1 =>
             space2 a b
             || match r1 with
                | EmptyString => false
                | String c _ => space3 a b c
                end
         end
  end.

Lemma string_length_ind (P : string -> Prop) :
  (forall s, (forall t, (String.length t < String.length s)%nat -> P t) -> P s) ->
  forall s, P s.
Proof.
  intros Hstep.
  assert (Hall : forall n s, (String.length s < n)%nat -> P s).
  { induction n as [|n IH]; intros s Hs; [lia|].
    apply Hstep. intros t Ht. apply IH. lia. }
  intros s. apply (Hall (S (String.length s))). lia.
Qed.

Lemma lstrip_fixed s : starts_with_space s = false -> lstrip s = s.
Proof.
  destruct s as [|a [|b [|c r2]]]; cbn [starts_with_space lstrip];
    try reflexivity.
  - rewrite orb_false_r. now intros ->.
  - rewrite orb_false_r. intros H. now apply orb_false_iff in H as [-> ->].
  - intros H. apply orb_false_iff in H as [-> H].
    now apply orb_false_iff in H as [-> ->].
Qed.

Lemma lstrip_no_space s : starts_with_space (lstrip s) = false.
Proof.
  induction s as [s IH] using string_length_ind.
  destruct s as [|a r]; [reflexivity|]. cbn [lstrip].
  destruct (space1 a) eqn:H1; [apply IH; cbn; lia|].
  destruct r as [|b r1]; [cbn; now rewrite H1|].
  destruct (space2 a b) eqn:H2; [apply IH; cbn; lia|].
  destruct r1 as [|c r2]; [cbn; now rewrite H1, H2|].
  destruct (space3 a b c) eqn:H3; [apply IH; cbn; lia|].
  cbn. now rewrite H1, H2, H3.
Qed.

Lemma lstrip_idem s : lstrip (lstrip s) = lstrip s.
Proof. apply lstrip_fixed, lstrip_no_space. Qed.

(** White space in front of a text does not count. *)
Lemma lstrip_app a b : lstrip a = "" -> lstrip (a +:+ b) = lstrip b.
Proof.
  induction a as [a IH] using string_length_ind. intros Ha.
  destruct a as [|x r]; [reflexivity|].
  rewrite append_cons. cbn [lstrip] in *.
  destruct (space1 x); [apply IH; [cbn; lia|exact Ha]|].
  destruct r as [|y r1]; [discriminate|].
  rewrite append_cons.
  destruct (space2 x y); [apply IH; [cbn; lia|exact Ha]|].
  destruct r1 as [|z r2]; [discriminate|].
  rewrite append_cons.
  destruct (space3 x y z); [apply IH; [cbn; lia|exact Ha]|].
  discriminate.
Qed.

Lemma starts_with_space_app p q :
  starts_with_space p = true -> starts_with_space (p +:+ q) = true.
Proof.
  destruct p as [|a [|b [|c r]]]; cbn [starts_with_space];
    rewrite ?append_cons; cbn [starts_with_space]; try discriminate.
  - rewrite orb_false_r. intros ->. reflexivity.
  - rewrite orb_false_r. intros H. apply orb_true_iff in H as [->| ->];
      [reflexivity|]. change ("" +:+ q) with q.
    destruct q; now rewrite ?orb_true_r.
  - easy.
Qed.

Lemma rstrip_split s : exists q, s = rstrip s +:+ q /\ all_space q = true.
Proof.
  induction s as [|a r (q & Hq & Hspace)]; [now exists ""|].
  cbn [rstrip]. destruct (all_space (String a r)) eqn:Hall.
  - now exists (String a r).
  - exists q. rewrite append_cons. now rewrite <- Hq.
Qed.

Lemma all_space_app a b :
  all_space a = true -> all_space b = true -> all_space (a +:+ b) = true.
Proof.
  unfold all_space. intros Ha Hb.
  rewrite lstrip_app; [exact Hb|]. now destruct (lstrip a).
Qed.

Lemma rstrip_idem s : rstrip (rstrip s) = rstrip s.
Proof.
  induction s as [|a r IH]; [reflexivity|].
  cbn [rstrip]. destruct (all_space (String a r)) eqn:Hall; [reflexivity|].
  cbn [rstrip]. rewrite IH.
  destruct (all_space (String a (rstrip r))) eqn:Hcut; [|reflexivity].
  destruct (rstrip_split r) as (q & Hq & Hspace).
  pose proof (all_space_app _ _ Hcut Hspace) as Hwhole.
  rewrite append_cons, <- Hq in Hwhole. congruence.
Qed.

(** A text that does not begin with white space still does not once
    the white space at its end is removed. *)
Lemma rstrip_no_space s :
  starts_with_space s = false -> starts_with_space (rstrip s) = false.
Proof.
  intros Hs. destruct (starts_with_space (rstrip s)) eqn:Hcut; [|reflexivity].
  destruct (rstrip_split s) as (q & Hq & _).
  apply (starts_with_space_app _ q) in Hcut. rewrite <- Hq in Hcut. congruence.
Qed.

Lemma lstrip_rstrip_lstrip s : lstrip (rstrip (lstrip s)) = rstrip (lstrip s).
Proof. apply lstrip_fixed, rstrip_no_space, lstrip_no_space. Qed.

Lemma strip_idem s : strip (strip s) = strip s.
Proof. unfold strip. now rewrite lstrip_rstrip_lstrip, rstrip_idem. Qed.

(** A stripped text neither begins nor ends with white space. *)
Lemma strip_no_space s :
  starts_with_space (strip s) = false
  /\ forall p q, strip s = p +:+ q -> q <> "" -> all_space q = false.
Proof.
  split; [apply rstrip_no_space, lstrip_no_space|].
  unfold strip. generalize (lstrip s) as t. clear s.
  induction t as [|a r IH]; intros p q Hpq Hq.
  - cbn in Hpq. destruct p; [|discriminate].
    change ("" +:+ q) with q in Hpq. congruence.
  - cbn [rstrip] in Hpq. destruct (all_space (String a r)) eqn:Hall.
    + destruct p; [|discriminate]. change ("" +:+ q) with q in Hpq. congruence.
    + destruct p as [|x p].
      * change ("" +:+ q) with q in Hpq. subst q.
        destruct (all_space (String a (rstrip r))) eqn:Hcut; [|reflexivity].
        destruct (rstrip_split r) as (q & Hq' & Hspace).
        pose proof (all_space_app _ _ Hcut Hspace) as Hwhole.
        rewrite append_cons, <- Hq' in Hwhole. congruence.
      * rewrite append_cons in Hpq. injection Hpq as -> Hpq. now apply (IH p).
Qed.

(** The two replies of a gateway that would be read wrongly with the
    ASCII table alone: a no-break space before the sentinel, and a lone
    em space. *)
Definition no_break_space : string :=
  String (ascii_of_nat 194) (String (ascii_of_nat 160) "").

Definition em_space : string :=
  String (ascii_of_nat 226) (String (ascii_of_nat 128) (String (ascii_of_nat 131) "")).

Lemma strip_wide_space :
  strip (no_break_space +:+ "SKIP") = "SKIP"
  /\ strip em_space = ""
  /\ strip ("ls -la" +:+ no_break_space) = "ls -la".
Proof. repeat split. Qed.

End PyStrFacts.
(** * More on the executor *)
Module ExecutorMore.
Import Executor.

(** The process [execute] creates for the command: through the sandbox
    helper when the probe found it, through the shell otherwise. *)
Definition command_spawn (x : OpenCoreExecutor) (h : Host) (command : string)
    (cwd : option string) (tr : list os_event) : spawn :=
  if (_opencore_available h tr).1
  then SpawnExec (opencore_argv command (default (project_root x) cwd))
  else SpawnShell command (default (project_root x) cwd).

Definition is_kill (e : os_event) : bool :=
  match e with EvKill _ => true | EvSpawn _ => false end.

Definition consistent (r : ExecutionResult) : Prop :=
  success r = (exit_code r =? 0).

(** X1.  [is_safe_command] rejects every command in which one of its
    six patterns occurs, written in whatever mix of upper- and lower-case
    ASCII letters, and whatever text, ASCII or not, stands around it. *)
Theorem is_safe_command_rejects_any_letter_case
    {U : PyStr.Unicode} pattern pre hit post :
  In pattern dangerous ->
  PyStr.is_ascii hit = true ->
  PyStr.ascii_lower hit = pattern ->
  is_safe_command (pre +:+ hit +:+ post) = false.
Proof.
  intros Hin Hascii Hlower. unfold is_safe_command.
  rewrite negb_false_iff, existsb_exists. exists pattern. split; [exact Hin|].
  apply PyStrFacts.lower_contains_ascii; [exact Hascii|].
  rewrite Hlower. apply PyStrFacts.contains_spec.
  exists "", "". now rewrite PyStrFacts.append_nil_r.
Qed.

Lemma execute_cases x h command silent cwd tr :
  let tr1 := tr ++ [EvSpawn which_probe] in
  let s := command_spawn x h command cwd tr in
  execute x h command silent cwd tr
  = match run_process h tr1 s with
    | SpawnError msg =>
        ({| success := false; output := ""; error := msg; exit_code := -1 |},
         tr1 ++ [EvSpawn s])
    | Exited rc out err =>
        ({| success := rc =? 0; output := out; error := err; exit_code := rc |},
         tr1 ++ [EvSpawn s])
    | TimedOut => (timeout_result x, (tr1 ++ [EvSpawn s]) ++ [EvKill s])
    end.
Proof.
  cbn zeta. unfold execute, command_spawn, _opencore_available,
    _execute_via_opencore, _execute_via_subprocess, run_spawned.
  destruct (which_opencore h tr) as [rc|]; [destruct (rc =? 0)|]; cbn [fst snd];
    match goal with
    | |- context [run_process h ?t ?s] => destruct (run_process h t s)
    end; reflexivity.
Qed.

(** X2.  Every result of [execute] reports success exactly when its exit
    code is 0, and so does every result in a batch. *)
Theorem execute_success_iff_exit_code_zero x h :
  (forall command silent cwd tr,
      consistent (execute x h command silent cwd tr).1)
  /\ (forall commands stop_on_error tr,
        Forall consistent (execute_batch x h commands stop_on_error tr).1).
Proof.
  assert (Hone : forall command silent cwd tr,
             consistent (execute x h command silent cwd tr).1).
  { intros. rewrite execute_cases. cbn zeta.
    destruct (run_process h _ _); reflexivity. }
  split; [exact Hone|].
  induction commands as [|cmd commands IH]; intros stop tr; cbn [execute_batch].
  - constructor.
  - pose proof (Hone cmd None None tr) as Hc.
    destruct (execute x h cmd None None tr) as [r tr1]; cbn [fst] in Hc.
    destruct (stop && negb (success r)).
    + repeat constructor. exact Hc.
    + specialize (IH stop tr1).
      destruct (execute_batch x h commands stop tr1) as [rs tr2].
      constructor; assumption.
Qed.

(** X3.  On either path, when the process created for the command does
    not finish within the timeout, that process is killed, nothing else
    is, and the result is a failure with exit code -1, no output and an
    error text that starts with [Command timed out after]. *)
Theorem execute_kills_on_timeout x h command silent cwd tr :
  run_process h (tr ++ [EvSpawn which_probe]) (command_spawn x h command cwd tr)
  = TimedOut ->
  let r := (execute x h command silent cwd tr).1 in
  let tr' := (execute x h command silent cwd tr).2 in
  tr' = tr ++ [EvSpawn which_probe; EvSpawn (command_spawn x h command cwd tr);
               EvKill (command_spawn x h command cwd tr)]
  /\ success r = false /\ exit_code r = -1 /\ output r = ""
  /\ PyStr.startswith (error r) "Command timed out after " = true.
Proof.
  intros Hto. cbn zeta. rewrite execute_cases. cbn zeta. rewrite Hto.
  cbn [fst snd timeout_result success exit_code output error].
  repeat split.
  - now rewrite <- !app_assoc.
  - apply PyStrFacts.startswith_spec. eexists. reflexivity.
Qed.

(** X4.  A process that ends, or that could not be created, is never
    killed: [execute] kills only on a timeout. *)
Theorem execute_kills_only_on_timeout x h command silent cwd tr :
  run_process h (tr ++ [EvSpawn which_probe]) (command_spawn x h command cwd tr)
  <> TimedOut ->
  List.filter is_kill (execute x h command silent cwd tr).2 = List.filter is_kill tr
  /\ (forall msg,
        run_process h (tr ++ [EvSpawn which_probe])
          (command_spawn x h command cwd tr) = SpawnError msg ->
        (execute x h command silent cwd tr).1
        = {| success := false; output := ""; error := msg; exit_code := -1 |}).
Proof.
  intros Hnot. rewrite execute_cases. cbn zeta.
  destruct (run_process h _ _) as [msg|rc out err|] eqn:Hrun;
    try congruence; cbn [fst snd]; rewrite !List.filter_app; cbn;
    rewrite !app_nil_r; (split; [reflexivity|]); intros msg' Hmsg; congruence.
Qed.

(** X5.  Without [stop_on_error] a batch runs every command, in list
    order, and returns one result per command. *)
Theorem execute_batch_runs_all_without_stop x h commands tr :
  length (execute_batch x h commands false tr).1 = length commands
  /\ launched (execute_batch x h commands false tr).2 = launched tr ++ commands.
Proof.
  pose proof (ExecutorSpec.execute_batch_no_stop x h commands tr) as Hruns.
  split.
  - exact (ExecutorSpec.Runs_length _ _ _ _ _ _ Hruns).
  - exact (ExecutorSpec.Runs_launched _ _ _ _ _ _ Hruns).
Qed.

(** X6.  With [stop_on_error] only the last result of a batch can be a
    failure; when the last result is a success too, every command of the
    list was run. *)
Theorem execute_batch_only_last_can_fail x h commands tr :
  let rs := (execute_batch x h commands true tr).1 in
  Forall (fun r => success r = true) (removelast rs)
  /\ (Forall (fun r => success r = true) rs -> length rs = length commands).
Proof.
  cbn zeta. revert tr.
  induction commands as [|cmd commands IH]; intros tr; cbn [execute_batch].
  - split; [constructor|reflexivity].
  - destruct (execute x h cmd None None tr) as [r tr1].
    destruct (success r) eqn:Hr; cbn [andb negb fst].
    + destruct (IH tr1) as [IH1 IH2].
      destruct (execute_batch x h commands true tr1) as [rs tr2]; cbn [fst] in *.
      split.
      * destruct rs as [|r' rs]; [constructor|].
        change (removelast (r :: r' :: rs)) with (r :: removelast (r' :: rs)).
        constructor; assumption.
      * intros Hall. inversion Hall; subst. cbn [length]. f_equal. now apply IH2.
    + split; [constructor|].
      intros Hall. inversion Hall; subst. congruence.
Qed.

(** A host with the sandbox helper on which every sandboxed command
    hangs. *)
Definition hanging_host : Host := {|
  which_opencore := fun _ => Some 0;
  run_process := fun _ _ => TimedOut;
|}.

Lemma execute_kills_on_timeout_witness :
  let x := ExecutorSpec.app_executor in
  let s := SpawnExec (opencore_argv "sleep 900" "/srv/app") in
  (execute x hanging_host "sleep 900" None None []).2
  = [] ++ [EvSpawn which_probe; EvSpawn s; EvKill s]
  /\ success (execute x hanging_host "sleep 900" None None []).1 = false
  /\ exit_code (execute x hanging_host "sleep 900" None None []).1 = -1
  /\ output (execute x hanging_host "sleep 900" None None []).1 = ""
  /\ PyStr.startswith (error (execute x hanging_host "sleep 900" None None []).1)
       "Command timed out after " = true.
Proof.
  intros x s.
  apply (execute_kills_on_timeout x hanging_host "sleep 900" None None []).
  reflexivity.
Defined.

Lemma execute_kills_only_on_timeout_witness :
  let x := ExecutorSpec.app_executor in
  let h := ExecutorSpec.plain_host in
  List.filter is_kill (execute x h "false" None None []).2 = List.filter is_kill []
  /\ (forall msg,
        run_process h ([] ++ [EvSpawn which_probe])
          (command_spawn x h "false" None []) = SpawnError msg ->
        (execute x h "false" None None []).1
        = {| success := false; output := ""; error := msg; exit_code := -1 |}).
Proof.
  intros x h.
  apply (execute_kills_only_on_timeout x h "false" None None []).
  discriminate.
Defined.

Lemma is_safe_command_rejects_any_letter_case_witness :
  is_safe_command (U := GatewaySpec.plain_unicode)
    ("sudo " +:+ "MkFs" +:+ ".ext4 /dev/sda1") = false.
Proof.
  apply (is_safe_command_rejects_any_letter_case (U := GatewaySpec.plain_unicode)
           "mkfs" "sudo " "MkFs" ".ext4 /dev/sda1").
  - cbn. tauto.
  - reflexivity.
  - reflexivity.
Defined.

End ExecutorMore.

(** * More on the gateway *)
Module GatewayMore.
Import Gateway GatewaySpec.

(** The rate window is in order of arrival and holds no instant of the
    future. *)
Definition window_ok (c : LLMClient) (w : World) : Prop :=
  StronglySorted Z.le (request_times c)
  /\ Forall (fun t => t <= clock w) (request_times c).

Lemma StronglySorted_filter (f : Z -> bool) l :
  StronglySorted Z.le l -> StronglySorted Z.le (List.filter f l).
Proof.
  induction 1 as [|a l Hl IH Ha]; cbn; [constructor|].
  destruct (f a); [|exact IH]. constructor; [exact IH|].
  apply List.Forall_forall. intros t Ht. apply List.filter_In in Ht as [Ht _].
  rewrite List.Forall_forall in Ha. now apply Ha.
Qed.

Lemma StronglySorted_snoc l (x : Z) :
  StronglySorted Z.le l -> Forall (fun t => t <= x) l ->
  StronglySorted Z.le (l ++ [x]).
Proof.
  induction 1 as [|a l Hl IH Ha]; intros Hx; cbn.
  - repeat constructor.
  - inversion Hx as [|? ? Hax Hlx]; subst. constructor; [now apply IH|].
    apply List.Forall_app. split; [exact Ha|]. now repeat constructor.
Qed.

Lemma Forall_filter_weaken (P : Z -> Prop) (f : Z -> bool) l :
  Forall P l -> Forall P (List.filter f l).
Proof.
  rewrite !List.Forall_forall. intros Hl t Ht.
  apply List.filter_In in Ht as [Ht _]. now apply Hl.
Qed.

Lemma _check_rate_limit_times c w :
  request_times (_check_rate_limit c w).1
  = List.filter (fun t => clock w - t <? rate_window) (request_times c) ++ [clock w].
Proof. reflexivity. Qed.

Lemma _check_rate_limit_clock c w :
  window_ok c w ->
  clock w <= clock (_check_rate_limit c w).2 <= clock w + rate_window
  /\ ((length (List.filter (fun t => (clock w - t <? rate_window)%Z) (request_times c))
       < rate_limit)%nat -> (_check_rate_limit c w).2 = w).
Proof.
  intros [Hsorted Hpast].
  set (kept := List.filter (fun t => clock w - t <? rate_window) (request_times c)).
  assert (Hkept_past : Forall (fun t => t <= clock w) kept)
    by now apply Forall_filter_weaken.
  assert (Hkept_young : Forall (fun t => clock w - t < rate_window) kept).
  { apply List.Forall_forall. intros t Ht. apply List.filter_In in Ht as [_ Ht].
    now apply Z.ltb_lt in Ht. }
  assert (Hwindow : 0 < rate_window) by reflexivity.
  unfold _check_rate_limit. fold kept. cbn [snd].
  destruct (rate_limit <=? length kept)%nat eqn:Hfull.
  - apply Nat.leb_le in Hfull.
    destruct kept as [|oldest rest]; [cbn in Hfull; unfold rate_limit in Hfull; lia|].
    inversion Hkept_past as [|? ? Hold _]; subst.
    inversion Hkept_young as [|? ? Hyoung _]; subst.
    unfold rate_limit in Hfull.
    destruct (Z.ltb_spec 0 (oldest + rate_window - clock w)) as [Hwait|Hwait];
      cbn [sleep clock];
      (split; [lia | intros Hlt; unfold rate_limit in Hlt; cbn [length] in *; lia]).
  - split; [lia | reflexivity].
Qed.

Lemma _check_rate_limit_window_ok c w :
  window_ok c w -> window_ok (_check_rate_limit c w).1 (_check_rate_limit c w).2.
Proof.
  intros Hok. destruct (_check_rate_limit_clock c w Hok) as [Hclock _].
  destruct Hok as [Hsorted Hpast].
  assert (Hkept_past : Forall (fun t => t <= clock w)
                         (List.filter (fun t => clock w - t <? rate_window)
                            (request_times c)))
    by now apply Forall_filter_weaken.
  split; rewrite _check_rate_limit_times.
  - apply StronglySorted_snoc; [now apply StronglySorted_filter|exact Hkept_past].
  - apply List.Forall_app. split.
    + eapply List.Forall_impl; [|exact Hkept_past]. intros t Ht; cbn beta in *; lia.
    + repeat constructor. lia.
Qed.

(** X7.  [_check_rate_limit] keeps the rate window in order of arrival
    and free of future instants, so [request_times[0]] is its oldest
    entry; every entry it keeps is less than 60 seconds older than the
    arrival; the caller waits at most 60 seconds, and not at all while
    fewer than ten entries are kept. *)
Theorem _check_rate_limit_keeps_window c w :
  window_ok c w ->
  let c' := (_check_rate_limit c w).1 in
  let w' := (_check_rate_limit c w).2 in
  window_ok c' w'
  /\ Forall (fun t => clock w - t < rate_window) (request_times c')
  /\ clock w <= clock w' <= clock w + rate_window
  /\ ((length (List.filter (fun t => (clock w - t <? rate_window)%Z) (request_times c))
       < rate_limit)%nat -> w' = w).
Proof.
  intros Hok. cbn zeta.
  split; [now apply _check_rate_limit_window_ok|].
  split; [|now apply _check_rate_limit_clock].
  rewrite _check_rate_limit_times. apply List.Forall_app. split.
  - apply List.Forall_forall. intros t Ht. apply List.filter_In in Ht as [_ Ht].
    now apply Z.ltb_lt in Ht.
  - repeat constructor. assert (Hwindow : 0 < rate_window) by reflexivity. lia.
Qed.

Lemma _openai_complete_clock (b : Backend) c prompt max_tokens :
  forall retries w,
    clock w <= clock (_openai_complete b retries c prompt max_tokens w).2
    /\ cache_dir (_openai_complete b retries c prompt max_tokens w).2 = cache_dir w
    /\ exists more,
         invocations (_openai_complete b retries c prompt max_tokens w).2
         = invocations w ++ more.
Proof.
  assert (Hwait : 0 <= seconds 60) by (unfold seconds; lia).
  induction retries as [|retries IH]; intros w; cbn [_openai_complete];
    (destruct (negb (openai_installed b));
     [cbn; repeat split; [lia|]; exists []; now rewrite app_nil_r|]);
    destruct (reply b (length (invocations w)) prompt max_tokens);
    try (cbn; repeat split; [lia|]; now exists [clock w]).
  destruct (IH (sleep (seconds 60) (invoke w))) as (Hclock & Hcache & more & Hmore).
  cbn [sleep invoke clock cache_dir invocations] in *.
  repeat split.
  - lia.
  - exact Hcache.
  - exists ([clock w] ++ more). now rewrite Hmore, <- app_assoc.
Qed.

Section WithLibrary.
Context {lib : PyLib}.

(** The attempt of a call that misses the cache. *)
Definition attempt (b : Backend) (retries : nat) (c : LLMClient) (prompt : string)
    (max_tokens : Z) (w : World) : outcome string * World :=
  if String.eqb (provider c) "openai"
  then _openai_complete b retries (_check_rate_limit c w).1 prompt max_tokens
         (_check_rate_limit c w).2
  else (Raised ("Unsupported provider: " +:+ provider c), (_check_rate_limit c w).2).

Lemma attempt_clock b retries c prompt max_tokens w :
  clock (_check_rate_limit c w).2 <= clock (attempt b retries c prompt max_tokens w).2
  /\ cache_dir (attempt b retries c prompt max_tokens w).2 = cache_dir w
  /\ exists more,
       invocations (attempt b retries c prompt max_tokens w).2 = invocations w ++ more.
Proof.
  unfold attempt.
  pose proof (_check_rate_limit_invocations c w) as (Hinv & Hcache & _).
  destruct (String.eqb (provider c) "openai").
  - destruct (_openai_complete_clock b (_check_rate_limit c w).1 prompt max_tokens
                retries (_check_rate_limit c w).2) as (Hclock & Hc & more & Hmore).
    repeat split; [exact Hclock|congruence|]. exists more. now rewrite Hmore, Hinv.
  - cbn [snd]. repeat split; [lia|exact Hcache|]. exists []. now rewrite app_nil_r.
Qed.

Lemma complete_cases b retries c prompt max_tokens use_cache w :
  complete b retries c prompt max_tokens use_cache w
  = match cache_hit prompt use_cache w with
    | Raised e => (Raised e, c, w)
    | Return (Some cached) => (Return cached, c, w)
    | Return None =>
        finish (_check_rate_limit c w).1 prompt use_cache
          (attempt b retries c prompt max_tokens w).1
          (attempt b retries c prompt max_tokens w).2
    end.
Proof.
  destruct (cache_hit prompt use_cache w) as [[cached|]|e] eqn:Hhit.
  - now apply complete_on_hit.
  - now rewrite (complete_on_miss_raw b retries c prompt max_tokens use_cache w Hhit).
  - now apply complete_on_lookup_error.
Qed.

(** X8.  Whatever the backend does, a call of [complete] leaves the rate
    window in order and free of future instants, adds at most one entry
    to it, never moves the clock back and only appends to the record of
    backend invocations. *)
Theorem complete_keeps_window b retries c prompt max_tokens use_cache w o c' w' :
  window_ok c w ->
  complete b retries c prompt max_tokens use_cache w = (o, c', w') ->
  window_ok c' w'
  /\ clock w <= clock w'
  /\ (length (request_times c') <= S (length (request_times c)))%nat
  /\ exists more, invocations w' = invocations w ++ more.
Proof.
  intros Hok Hrun. rewrite complete_cases in Hrun.
  assert (Hsame : window_ok c w /\ clock w <= clock w
                  /\ (length (request_times c) <= S (length (request_times c)))%nat
                  /\ exists more, invocations w = invocations w ++ more).
  { repeat split; try apply Hok; try lia. exists []. now rewrite app_nil_r. }
  destruct (cache_hit prompt use_cache w) as [[cached|]|e].
  { now injection Hrun as <- <- <-. }
  2: { now injection Hrun as <- <- <-. }
  pose proof (_check_rate_limit_window_ok c w Hok) as [Hs Hp].
  pose proof (_check_rate_limit_clock c w Hok) as [Hclock _].
  destruct (attempt_clock b retries c prompt max_tokens w) as (Hc2 & _ & more & Hmore).
  match type of Hrun with finish ?c1 ?p ?u ?a ?w2 = _ =>
    destruct (finish_shape c1 p u a w2) as (_ & Hc & Hinv & Hclk & _) end.
  rewrite Hrun in Hc, Hinv, Hclk. cbn [fst snd] in Hc, Hinv, Hclk. subst c'.
  repeat split.
  - exact Hs.
  - eapply List.Forall_impl; [|exact Hp]. intros t Ht; cbn beta in *; lia.
  - lia.
  - rewrite _check_rate_limit_times, length_app; cbn [length].
    pose proof (List.filter_length_le
                  (fun t => clock w - t <? rate_window) (request_times c)). lia.
  - exists more. congruence.
Qed.

(** X9.  After a call of [_cache_response] that returned, the document
    is found again for the same prompt as long as less than 24 hours
    have passed, and not from 24 hours on; a prompt with another digest
    sees what it saw before. *)
Theorem cache_round_trip c prompt response w w1 d other :
  (forall t, fromisoformat (isoformat t) = Some t) ->
  _cache_response c prompt response w = (Return tt, w1) ->
  let w2 := sleep d w1 in
  (d < hours 24 -> _get_cached prompt w2 = Return (Some (JStr response)))
  /\ (hours 24 <= d -> _get_cached prompt w2 = Return None)
  /\ (md5_hexdigest other <> md5_hexdigest prompt ->
      _get_cached other w2 = _get_cached other (sleep d w)).
Proof.
  intros Hiso Hwritten. cbn zeta.
  unfold _cache_response, write_file in Hwritten.
  destruct (md5_hexdigest prompt) as [key|] eqn:Hkey; [|discriminate].
  destruct (searchable w) eqn:Hopen; cbn [negb] in Hwritten; [|discriminate].
  destruct (on_write w key); try discriminate. injection Hwritten as <-.
  rewrite (_get_cached_after_store c prompt response w key d Hiso Hkey Hopen).
  repeat split.
  - intros Hd. apply Z.ltb_lt in Hd. now rewrite Hd.
  - intros Hd. apply Z.ltb_ge in Hd. now rewrite Hd.
  - intros Hne. unfold _get_cached.
    destruct (md5_hexdigest other) as [key'|]; [|reflexivity].
    cbn [sleep store cache_dir clock searchable].
    rewrite lookup_insert_ne by congruence. reflexivity.
Qed.

(** X10.  Two calls in a row with [use_cache=True], for a prompt that
    can be encoded and whose cache file can be written: when the first
    one misses the cache and the backend ends with a non-empty
    completion after [k] quota errors, the recursion limit admitting [k]
    nested retries, a second call less than 24 hours later returns the
    same text without any backend invocation and without touching the
    rate window. *)
Theorem second_call_served_from_cache
    b retries retries' c prompt max_tokens w key k text d :
  (forall t, fromisoformat (isoformat t) = Some t) ->
  md5_hexdigest prompt = Some key ->
  on_write w key = Written ->
  cache_hit prompt true w = Return None ->
  provider c = "openai" ->
  openai_installed b = true ->
  settles b (length (invocations w)) prompt max_tokens k (Completion text) ->
  (k <= retries)%nat ->
  text <> "" ->
  d < hours 24 ->
  exists c1 w1 c2 w2,
    complete b retries c prompt max_tokens true w = (Return (JStr text), c1, w1)
    /\ complete b retries' c1 prompt max_tokens true (sleep d w1)
       = (Return (JStr text), c2, w2)
    /\ invocations w2 = invocations w1
    /\ request_times c2 = request_times c1.
Proof.
  intros Hiso Hkey Hwrite Hmiss Hprov Hinst Hsettles Hretries Htext Hd.
  destruct (complete_twice b retries retries' c prompt max_tokens w key k text d
              Hiso Hkey Hwrite Hmiss Hprov Hinst Hsettles Hretries Htext Hd)
    as (c1 & w1 & Hfirst & Hsecond).
  exists c1, w1, c1, (sleep d w1). repeat split; assumption.
Qed.

(** X11.  An entry that is 24 hours old or older counts as absent: the
    call goes to the backend, and on a completion that arrives after
    [k] quota errors, the recursion limit admitting [k] nested retries
    and the cache file being writable, the entry is replaced, so that
    a lookup right after the call finds the new text. *)
Theorem stale_entry_is_replaced
    b retries c prompt max_tokens w key data ts cached_at k text :
  (forall t, fromisoformat (isoformat t) = Some t) ->
  md5_hexdigest prompt = Some key ->
  searchable w = true ->
  cache_dir w !! key = Some (Document data) ->
  subscript data "timestamp" = Some (JStr ts) ->
  fromisoformat ts = Some cached_at ->
  hours 24 <= clock w - cached_at ->
  on_write w key = Written ->
  provider c = "openai" ->
  openai_installed b = true ->
  settles b (length (invocations w)) prompt max_tokens k (Completion text) ->
  (k <= retries)%nat ->
  _get_cached prompt w = Return None
  /\ exists c' w',
       complete b retries c prompt max_tokens true w = (Return (JStr text), c', w')
       /\ _get_cached prompt w' = Return (Some (JStr text))
       /\ length (invocations w') = (length (invocations w) + k + 1)%nat.
Proof.
  intros Hiso Hkey Hopen Hfile Hts Hparse Hold Hwrite Hprov Hinst Hsettles Hretries.
  assert (Hmiss : _get_cached prompt w = Return None).
  { unfold _get_cached. rewrite Hkey, Hopen, Hfile, Hts, Hparse. cbn [negb].
    apply Z.ltb_ge in Hold. now rewrite Hold. }
  split; [exact Hmiss|].
  assert (Hhit : cache_hit prompt true w = Return None)
    by (unfold cache_hit; now rewrite Hmiss).
  rewrite (complete_on_miss b retries c prompt max_tokens true w k (Completion text))
    by assumption.
  cbn [raw_result].
  pose proof (_check_rate_limit_invocations c w) as (Hinv & _ & _ & _ & Hw & Hs).
  assert (Hopen' : searchable (after_retries k (_check_rate_limit c w).2) = true)
    by (cbn [after_retries searchable]; congruence).
  rewrite (_cache_response_written _ prompt text _ key Hkey Hopen')
    by (cbn [after_retries on_write]; congruence).
  cbn [snd]. do 2 eexists. split; [|split].
  - unfold answer, stored, writes.
    rewrite Hprov, String.eqb_refl, Hinst, Hkey, Hwrite, Hopen. reflexivity.
  - pose proof (_get_cached_after_store (_check_rate_limit c w).1 prompt text
                  (after_retries k (_check_rate_limit c w).2) key 0 Hiso Hkey Hopen')
      as Hfresh.
    assert (Hsame : forall w0, sleep 0 w0 = w0).
    { intros [t m i s f]. unfold sleep; cbn. f_equal. lia. }
    rewrite Hsame in Hfresh. exact Hfresh.
  - cbn [store after_retries invocations].
    rewrite Hinv, length_app, retry_instants_length. lia.
Qed.

(** X12.  Nothing is written to the cache by a call with
    [use_cache=False], and nothing either, whatever [use_cache], when the
    answer is the fallback string because the provider is not supported,
    the backend call raised or the quota errors outlasted the recursion
    limit. *)
Theorem fallback_is_never_cached b retries c prompt max_tokens use_cache w o c' w' :
  complete b retries c prompt max_tokens use_cache w = (o, c', w') ->
  (use_cache = false -> cache_dir w' = cache_dir w)
  /\ (provider c <> "openai" -> cache_dir w' = cache_dir w)
  /\ (forall k msg,
        cache_hit prompt use_cache w = Return None ->
        provider c = "openai" ->
        openai_installed b = true ->
        settles b (length (invocations w)) prompt max_tokens k (OtherError msg) ->
        (k <= retries)%nat ->
        o = Return (JStr (_fallback_response prompt))
        /\ cache_dir w' = cache_dir w)
  /\ (cache_hit prompt use_cache w = Return None ->
      provider c = "openai" ->
      openai_installed b = true ->
      quota_persists b (length (invocations w)) prompt max_tokens (S retries) ->
      o = Return (JStr (_fallback_response prompt))
      /\ cache_dir w' = cache_dir w).
Proof.
  intros Hrun.
  pose proof (_check_rate_limit_invocations c w) as (_ & Hcache & _).
  destruct (attempt_clock b retries c prompt max_tokens w) as (_ & Hac & _).
  split; [|split; [|split]].
  - intros ->. rewrite complete_cases in Hrun. cbn [cache_hit finish] in Hrun.
    destruct (attempt b retries c prompt max_tokens w) as [[response|e] w2];
      cbn [fst snd] in *; injection Hrun as <- <- <-; exact Hac.
  - intros Hprov. rewrite complete_cases in Hrun.
    destruct (cache_hit prompt use_cache w) as [[cached|]|e].
    + now injection Hrun as <- <- <-.
    + unfold attempt in Hrun. apply String.eqb_neq in Hprov.
      rewrite Hprov in Hrun. cbn [fst snd finish] in Hrun.
      injection Hrun as <- <- <-. exact Hcache.
    + now injection Hrun as <- <- <-.
  - intros k msg Hmiss Hprov Hinst Hsettles Hretries.
    rewrite (complete_on_miss b retries c prompt max_tokens use_cache w k (OtherError msg))
      in Hrun by assumption.
    cbn [raw_result] in Hrun. injection Hrun as <- <- <-. split.
    + unfold answer. now rewrite Hprov, String.eqb_refl, Hinst.
    + cbn [after_retries cache_dir]. exact Hcache.
  - intros Hmiss Hprov Hinst Hquota.
    rewrite (complete_on_exhaustion b retries c prompt max_tokens use_cache w)
      in Hrun by assumption.
    injection Hrun as <- <- <-. split; [reflexivity|].
    cbn [after_quota_errors cache_dir]. exact Hcache.
Qed.

(** X13.  A call that misses the cache records one timestamp, the
    instant it arrived, whatever the backend does, and the retries after
    quota errors record none: [k] quota errors, when the recursion limit
    admits [k] nested retries, give [k + 1] backend invocations for one
    entry of the rate window, and quota errors that outlast the
    [retries] nested retries the limit admits give [retries + 1]
    invocations for that one entry. *)
Theorem retries_bypass_rate_window b retries c prompt max_tokens use_cache w :
  cache_hit prompt use_cache w = Return None ->
  provider c = "openai" ->
  openai_installed b = true ->
  let r := complete b retries c prompt max_tokens use_cache w in
  let n0 := length (invocations w) in
  request_times r.1.2
  = List.filter (fun t => clock w - t <? rate_window) (request_times c) ++ [clock w]
  /\ (forall k o,
        settles b n0 prompt max_tokens k o -> (k <= retries)%nat ->
        length (invocations r.2) = (n0 + k + 1)%nat)
  /\ (quota_persists b n0 prompt max_tokens (S retries) ->
      length (invocations r.2) = (n0 + retries + 1)%nat).
Proof.
  intros Hmiss Hprov Hinst. cbn zeta.
  pose proof (_check_rate_limit_invocations c w) as (Hinv & _).
  split; [|split].
  - rewrite (complete_on_miss_raw b retries c prompt max_tokens use_cache w Hmiss).
    cbn zeta.
    match goal with |- context [finish ?c1 ?p ?u ?a ?w2] =>
      destruct (finish_shape c1 p u a w2) as (_ & -> & _) end.
    reflexivity.
  - intros k o Hsettles Hretries.
    rewrite (complete_on_miss b retries c prompt max_tokens use_cache w k o) by assumption.
    cbn [snd].
    assert (Hi : forall w2,
               invocations
                 (match raw_result o with
                  | Return response =>
                      if use_cache
                      then (_cache_response (_check_rate_limit c w).1 prompt response w2).2
                      else w2
                  | Raised _ => w2
                  end) = invocations w2).
    { intros w2. destruct (raw_result o), use_cache; try reflexivity.
      apply _cache_response_end. }
    rewrite Hi. cbn [after_retries invocations].
    rewrite Hinv, length_app, retry_instants_length. lia.
  - intros Hquota.
    rewrite (complete_on_exhaustion b retries c prompt max_tokens use_cache w)
      by assumption.
    cbn [snd after_quota_errors invocations].
    rewrite Hinv, length_app, retry_instants_length. lia.
Qed.

End WithLibrary.

(** ** Concrete runs *)

(** A stand-in for the standard library in which a timestamp is printed
    as its number of microseconds and read back from it. *)
Definition stamp_lib : PyLib := {|
  unicode := plain_unicode;
  md5_hexdigest := fun s => if holds_surrogate s then None else Some s;
  json_dumps := fun _ _ => "{}";
  fromisoformat := fun s => option_map Z.of_int (NilEmpty.int_of_string s);
  isoformat := fun t => NilEmpty.string_of_int (Z.to_int t);
  path_match := fun path pattern => String.eqb path pattern;
|}.

Lemma stamp_lib_round_trip t :
  fromisoformat (PyLib := stamp_lib) (isoformat (PyLib := stamp_lib) t) = Some t.
Proof.
  cbn [fromisoformat isoformat stamp_lib].
  rewrite NilEmpty.isi. cbn [option_map]. f_equal. apply DecimalZ.of_to.
Defined.

Definition busy_client : LLMClient :=
  {| model := "gpt-4o-mini"; provider := "openai";
     request_times := List.map seconds [1; 2; 3; 4; 5; 6; 7; 8; 9; 10] |}.

Definition at_second (n : Z) : World :=
  {| clock := seconds n; cache_dir := ∅; invocations := [];
     searchable := true; on_write := fun _ => Written |}.

Lemma busy_client_window_ok : window_ok busy_client (at_second 11).
Proof.
  split; cbn [busy_client request_times List.map at_second clock];
    repeat first [apply SSorted_nil | apply SSorted_cons
                 | apply List.Forall_nil | apply List.Forall_cons];
    unfold seconds; lia.
Defined.

Lemma _check_rate_limit_keeps_window_witness :
  let c' := (_check_rate_limit busy_client (at_second 11)).1 in
  let w' := (_check_rate_limit busy_client (at_second 11)).2 in
  window_ok c' w'
  /\ Forall (fun t => clock (at_second 11) - t < rate_window) (request_times c')
  /\ clock (at_second 11) <= clock w' <= clock (at_second 11) + rate_window
  /\ ((length (List.filter (fun t => (clock (at_second 11) - t <? rate_window)%Z)
                 (request_times busy_client))
       < rate_limit)%nat -> w' = at_second 11).
Proof.
  apply (_check_rate_limit_keeps_window busy_client (at_second 11)).
  apply busy_client_window_ok.
Defined.

Lemma complete_keeps_window_witness :
  let r := complete (lib := stamp_lib) always_completes 1 busy_client "list files"
             500 true (at_second 11) in
  window_ok r.1.2 r.2
  /\ clock (at_second 11) <= clock r.2
  /\ (length (request_times r.1.2) <= S (length (request_times busy_client)))%nat
  /\ exists more, invocations r.2 = invocations (at_second 11) ++ more.
Proof.
  intros r.
  apply (complete_keeps_window (lib := stamp_lib) always_completes 1 busy_client
           "list files" 500 true (at_second 11) r.1.1 r.1.2 r.2).
  - apply busy_client_window_ok.
  - reflexivity.
Defined.

Lemma cache_round_trip_witness :
  let w1 := store "list files"
              (Document (cache_entry (lib := stamp_lib) fresh_client "list files"
                           "ls -la" 0)) empty_world in
  let w2 := sleep (hours 1) w1 in
  (hours 1 < hours 24 ->
   _get_cached (lib := stamp_lib) "list files" w2 = Return (Some (JStr "ls -la")))
  /\ (hours 24 <= hours 1 ->
      _get_cached (lib := stamp_lib) "list files" w2 = Return None)
  /\ (md5_hexdigest (PyLib := stamp_lib) "run tests"
      <> md5_hexdigest (PyLib := stamp_lib) "list files" ->
      _get_cached (lib := stamp_lib) "run tests" w2
      = _get_cached (lib := stamp_lib) "run tests" (sleep (hours 1) empty_world)).
Proof.
  intros w1.
  apply (cache_round_trip (lib := stamp_lib) fresh_client "list files" "ls -la"
           empty_world w1 (hours 1) "run tests").
  - apply stamp_lib_round_trip.
  - reflexivity.
Defined.

Lemma always_completes_settles n prompt max_tokens :
  settles always_completes n prompt max_tokens 0 (Completion "ls -la").
Proof. repeat split; [intros i Hi; lia | discriminate]. Defined.

Lemma second_call_served_from_cache_witness :
  exists c1 w1 c2 w2,
    complete (lib := stamp_lib) always_completes 1 fresh_client "list files" 500
      true empty_world = (Return (JStr "ls -la"), c1, w1)
    /\ complete (lib := stamp_lib) always_completes 0 c1 "list files" 500 true
         (sleep (hours 1) w1) = (Return (JStr "ls -la"), c2, w2)
    /\ invocations w2 = invocations w1
    /\ request_times c2 = request_times c1.
Proof.
  apply (second_call_served_from_cache (lib := stamp_lib) always_completes 1 0
           fresh_client "list files" 500 empty_world "list files" 0 "ls -la"
           (hours 1)).
  - apply stamp_lib_round_trip.
  - reflexivity.
  - reflexivity.
  - reflexivity.
  - reflexivity.
  - reflexivity.
  - apply always_completes_settles.
  - lia.
  - discriminate.
  - reflexivity.
Defined.

(** The world 25 hours after [response] was cached for [prompt] at
    instant 0. *)
Definition day_old_world : World :=
  {| clock := hours 25;
     cache_dir := {[ "list files" := Document (JObj [("response", JStr "ls");
                                                     ("timestamp", JStr "0")]) ]};
     invocations := [0];
     searchable := true; on_write := fun _ => Written |}.

Lemma stale_entry_is_replaced_witness :
  _get_cached (lib := stamp_lib) "list files" day_old_world = Return None
  /\ exists c' w',
       complete (lib := stamp_lib) always_completes 1 fresh_client "list files" 500
         true day_old_world = (Return (JStr "ls -la"), c', w')
       /\ _get_cached (lib := stamp_lib) "list files" w' = Return (Some (JStr "ls -la"))
       /\ length (invocations w') = (length (invocations day_old_world) + 0 + 1)%nat.
Proof.
  apply (stale_entry_is_replaced (lib := stamp_lib) always_completes 1 fresh_client
           "list files" 500 day_old_world "list files"
           (JObj [("response", JStr "ls"); ("timestamp", JStr "0")]) "0" 0 0 "ls -la").
  - apply stamp_lib_round_trip.
  - reflexivity.
  - reflexivity.
  - reflexivity.
  - reflexivity.
  - reflexivity.
  - vm_compute. discriminate.
  - reflexivity.
  - reflexivity.
  - reflexivity.
  - apply always_completes_settles.
  - lia.
Defined.

Definition always_down : Backend :=
  {| openai_installed := true;
     reply := fun _ _ _ => OtherError "Connection refused" |}.

Lemma fallback_is_never_cached_witness :
  let r := complete (lib := stamp_lib) always_down 1 fresh_client "list files" 500
             true empty_world in
  (true = false -> cache_dir r.2 = cache_dir empty_world)
  /\ (provider fresh_client <> "openai" -> cache_dir r.2 = cache_dir empty_world)
  /\ (forall k msg,
        cache_hit (lib := stamp_lib) "list files" true empty_world = Return None ->
        provider fresh_client = "openai" ->
        openai_installed always_down = true ->
        settles always_down (length (invocations empty_world)) "list files" 500 k
          (OtherError msg) ->
        (k <= 1)%nat ->
        r.1.1 = Return (JStr (_fallback_response (lib := stamp_lib) "list files"))
        /\ cache_dir r.2 = cache_dir empty_world)
  /\ (cache_hit (lib := stamp_lib) "list files" true empty_world = Return None ->
      provider fresh_client = "openai" ->
      openai_installed always_down = true ->
      quota_persists always_down (length (invocations empty_world)) "list files" 500 2 ->
      r.1.1 = Return (JStr (_fallback_response (lib := stamp_lib) "list files"))
      /\ cache_dir r.2 = cache_dir empty_world).
Proof.
  intros r.
  apply (fallback_is_never_cached (lib := stamp_lib) always_down 1 fresh_client
           "list files" 500 true empty_world r.1.1 r.1.2 r.2).
  reflexivity.
Defined.

Lemma retries_bypass_rate_window_witness :
  let r := complete (lib := stamp_lib) quota_twice 3 fresh_client "list files" 500
             false empty_world in
  let n0 := length (invocations empty_world) in
  request_times r.1.2
  = List.filter (fun t => clock empty_world - t <? rate_window)
      (request_times fresh_client) ++ [clock empty_world]
  /\ (forall k o,
        settles quota_twice n0 "list files" 500 k o -> (k <= 3)%nat ->
        length (invocations r.2) = (n0 + k + 1)%nat)
  /\ (quota_persists quota_twice n0 "list files" 500 4 ->
      length (invocations r.2) = (n0 + 3 + 1)%nat).
Proof.
  apply (retries_bypass_rate_window (lib := stamp_lib) quota_twice 3 fresh_client
           "list files" 500 false empty_world).
  - reflexivity.
  - reflexivity.
  - reflexivity.
Defined.

End GatewayMore.
(** * More on the agent *)
Module AgentMore.
Import Agent AgentSpec.
Local Open Scope agent_scope.

(** [await asyncio.sleep(seconds)], on the collaborators' state. *)
Class Sleeper (W : Type) := {
  asyncio_sleep : Z -> W -> W;
}.


(** [_should_reanalyze()], at the instant [now] (in microseconds). *)
Definition _should_reanalyze (a : AutonomousAgent) (now : Z) : bool :=
  match last_analysis a with
  | None => true
  | Some last => Gateway.seconds 1800 <? now - last
  end.

Section WithServices.
Context {W : Type} {lib : PyLib} {services : Services W} {sleeper : Sleeper W}.



End WithServices.

Definition gateway_calls (tr : list event) : nat :=
  length (omap (fun e => match e with EvComplete p => Some p | _ => None end) tr).

(** A command as [_parse_commands] hands it on: not empty, with no
    white-space character, of Unicode's, at its start or at its end,
    and neither a comment nor a code fence. *)
Definition well_formed_command (c : string) : Prop :=
  c <> "" /\ PyStr.strip c = c
  /\ PyStrFacts.starts_with_space c = false
  /\ (forall p q, c = p +:+ q -> q <> "" -> PyStr.all_space q = false)
  /\ PyStr.startswith c "#" = false /\ PyStr.startswith c "```" = false.

Section Facts.
Context {W : Type} {lib : PyLib} {services : Services W} {sleeper : Sleeper W}.

(** X14.  When the gateway falls back on the prompt that asks for a
    task's plan, the plan parsed from its answer is the single command
    [echo 'LLM unavailable'], whatever the task and the project context. *)
Theorem fallback_plan_is_one_echo (a : AutonomousAgent) (task : Task) :
  _parse_commands (Gateway._fallback_response (_build_execution_prompt a task))
  = ["echo 'LLM unavailable'"].
Proof.
  unfold Gateway._fallback_response.
  assert (Hc : PyStr.contains (PyStr.lower (_build_execution_prompt a task))
                 "commands" = true).
  { unfold _build_execution_prompt. rewrite <- !PyStrFacts.append_assoc.
    apply PyStrFacts.lower_contains_suffix; reflexivity. }
  rewrite Hc. reflexivity.
Qed.

(** X15.  Every command [_parse_commands] returns is non-empty, has no
    white space around it and starts neither with [#] nor with a code
    fence. *)
Theorem _parse_commands_well_formed llm_response :
  Forall well_formed_command (_parse_commands llm_response).
Proof.
  unfold _parse_commands. apply List.Forall_forall. intros c Hc.
  apply List.filter_In in Hc as [Hin Hline].
  apply List.in_map_iff in Hin as (line & <- & _).
  unfold is_command_line in Hline.
  apply andb_true_iff in Hline as [Hline Hfence].
  apply andb_true_iff in Hline as [Hne Hhash].
  apply negb_true_iff in Hfence, Hhash.
  destruct (PyStrFacts.strip_no_space line) as [Hstart Hend].
  repeat split; try assumption.
  - intros Hempty. rewrite Hempty in Hne. discriminate.
  - apply PyStrFacts.strip_idem.
Qed.

(** X16.  [on_file_change] returns at once, with nothing changed, for an
    ignored path; for a path that is not ignored and a classification
    other than [high] it only runs the classification: no action is
    dispatched, no command is executed, the gateway is not asked by the
    agent, and the agent's fields stay as they were. *)
Theorem on_file_change_quiet_unless_high path event_type (st : State W) :
  (_should_ignore (self st) path = true ->
   on_file_change path event_type st = (Return tt, st))
  /\ (_should_ignore (self st) path = false ->
      is_high (analyzer_analyze_file_change path event_type
                 (project_type (self st)) (world st)).1 = false ->
      on_file_change path event_type st
      = (Return tt,
         {| self := self st;
            world := (analyzer_analyze_file_change path event_type
                        (project_type (self st)) (world st)).2;
            tasks_file := tasks_file st;
            trace := trace st |})).
Proof.
  unfold on_file_change, bind, get_self, call, ret.
  cbn [fst snd self world tasks_file trace]. split.
  - now intros ->.
  - intros -> Hlow.
    destruct (analyzer_analyze_file_change _ _ _ _) as [impact w1]; cbn [fst snd] in *.
    now rewrite Hlow.
Qed.

Lemma step_shape_counts cmd chunk :
  step_shape cmd chunk ->
  (gateway_calls chunk <= 1)%nat
  /\ (1 <= length (commands_run chunk) <= 2)%nat.
Proof.
  intros [->|[(p & ->)|(p & f & ->)]]; cbn; lia.
Qed.

Lemma gateway_calls_app tr1 tr2 :
  gateway_calls (tr1 ++ tr2) = (gateway_calls tr1 + gateway_calls tr2)%nat.
Proof. unfold gateway_calls. now rewrite omap_app, length_app. Qed.

Lemma commands_run_app tr1 tr2 :
  commands_run (tr1 ++ tr2) = commands_run tr1 ++ commands_run tr2.
Proof. unfold commands_run. apply omap_app. Qed.

Lemma steps_counts cmds chunks :
  Forall2 step_shape cmds chunks ->
  (gateway_calls (concat chunks) <= length cmds)%nat
  /\ (length cmds <= length (commands_run (concat chunks)) <= 2 * length cmds)%nat.
Proof.
  induction 1 as [|cmd chunk cmds chunks Hshape _ IH]; cbn [concat length].
  - cbn. lia.
  - destruct (step_shape_counts _ _ Hshape) as [Hg Hc].
    rewrite gateway_calls_app, commands_run_app, length_app. lia.
Qed.

Lemma steps_sublist cmds chunks :
  Forall2 step_shape cmds chunks ->
  sublist cmds (commands_run (concat chunks)).
Proof.
  induction 1 as [|cmd chunk cmds chunks Hshape _ IH]; cbn [concat].
  - constructor.
  - rewrite commands_run_app.
    destruct Hshape as [->|[(p & ->)|(p & f & ->)]]; cbn.
    + now apply sublist_skip.
    + now apply sublist_skip.
    + now apply sublist_skip, sublist_cons.
Qed.

(** X17.  Executing a task records the task and asks the gateway for the
    plan; for the commands [plan] that [_parse_commands] reads in the
    reply, what follows is one chunk per command, in the order of the
    plan: the command is run, then the gateway is asked at most once (after
    a failure) and at most one more command is run.  So the gateway is
    asked at least once and at most [1 + n] times for a plan of [n]
    commands, and at least [n] and at most [2 n] commands are run, those
    of the plan among them, in order. *)
Theorem _execute_task_cost task (st : State W) :
  let prompt := _build_execution_prompt (self st) task in
  let plan := _parse_commands (llm_complete prompt (world st)).1 in
  let st' := (_execute_task task st).2 in
  exists evs chunks,
    trace st' = trace st ++ evs
    /\ evs = [EvTask task; EvComplete prompt] ++ concat chunks
    /\ Forall2 step_shape plan chunks
    /\ (1 <= gateway_calls evs <= 1 + length plan)%nat
    /\ (length plan <= length (commands_run evs) <= 2 * length plan)%nat
    /\ sublist plan (commands_run evs)
    /\ self st' = self st
    /\ tasks_file st' = tasks_file st.
Proof.
  cbn zeta. unfold _execute_task, bind, log, get_self.
  cbn [fst snd self world tasks_file trace].
  rewrite self_llm_complete_eq. cbn [fst snd self world advance].
  match goal with
  | |- context [for_each ?cmds run_step ?s] =>
      destruct (plan_steps_all_attempted cmds s)
        as (st' & chunks & Hrun & Hshapes & Htr & Htf & Hself)
  end.
  destruct (steps_counts _ _ Hshapes) as [Hg Hc].
  pose proof (steps_sublist _ _ Hshapes) as Hsub.
  exists ([EvTask task; EvComplete (_build_execution_prompt (self st) task)]
          ++ concat chunks), chunks.
  rewrite Hrun. cbn [snd]. split; [|split; [reflexivity|split; [exact Hshapes|]]].
  - rewrite Htr. cbn [advance trace]. rewrite <- !app_assoc. reflexivity.
  - rewrite gateway_calls_app, commands_run_app, length_app.
    repeat split; try (cbn; lia).
    + exact Hsub.
    + exact Hself.
    + exact Htf.
Qed.

End Facts.


Section Loop.
Context {W : Type} {lib : PyLib} {services : Services W} {sleeper : Sleeper W}.

(** X18.  [_initial_analysis] records its entry and leaves the task
    store alone.  When the detector raises, the exception goes to the
    caller and the agent's fields and the collaborators' state are as
    before.  When it returns, the agent holds the detected type and files
    and the collaborators are as the project analysis left them; if the
    analysis raises, its exception goes to the caller and [analysis] and
    [last_analysis] are as before; if it returns [result], the agent
    holds that very [result] and [last_analysis] is the instant the
    analysis came back, so that a re-analysis is due exactly when more
    than 1800 seconds have passed since, and the call returns unless the
    insights of [result] have no length, which raises [TypeError]. *)
Theorem _initial_analysis_outcome (st : State W) :
  let r := (_initial_analysis st).1 in
  let st' := (_initial_analysis st).2 in
  trace st' = trace st ++ [EvAnalysis]
  /\ tasks_file st' = tasks_file st
  /\ config (self st') = config (self st)
  /\ (forall e,
        detector_detect (world st) = Raised e ->
        r = Raised e /\ self st' = self st /\ world st' = world st)
  /\ (forall detection,
        detector_detect (world st) = Return detection ->
        let run := analyzer_analyze_project (detected_type detection) (world st) in
        world st' = run.2
        /\ project_type (self st') = Some (detected_type detection)
        /\ project_files (self st') = Some (detected_files detection)
        /\ (forall e,
              run.1 = Raised e ->
              r = Raised e
              /\ analysis (self st') = analysis (self st)
              /\ last_analysis (self st') = last_analysis (self st))
        /\ (forall result,
              run.1 = Return result ->
              analysis (self st') = Some result
              /\ last_analysis (self st') = Some (datetime_now run.2)
              /\ (forall now,
                    _should_reanalyze (self st') now
                    = (Gateway.seconds 1800 <? now - datetime_now run.2))
              /\ r = match py_len (default (JArr []) (assoc result "insights")) with
                     | Some _ => Return tt
                     | None => Raised "TypeError"
                     end)).
Proof.
  cbn zeta.
  unfold _initial_analysis, bind, log, get_self, put_self, call, lift, ret, raise.
  cbn [fst snd self world tasks_file trace].
  destruct (detector_detect (world st)) as [detection|e0];
    cbn [fst snd self world tasks_file trace config].
  2: { split_and!; try reflexivity; [|discriminate].
       intros e He. injection He as ->. now split_and!. }
  destruct (analyzer_analyze_project (detected_type detection) (world st))
    as [[result|e1] w1] eqn:Hrun; cbn [fst snd self world tasks_file trace config].
  - destruct (py_len _) eqn:Hlen; cbn [fst snd self world tasks_file trace config];
      (split_and!; try reflexivity; [discriminate|]);
      intros d Hd; injection Hd as <-; cbn zeta; rewrite Hrun; cbn [fst snd];
      (split_and!; try reflexivity; [discriminate|]);
      intros res Hres; injection Hres as <-; rewrite Hlen; now split_and!.
  - split_and!; try reflexivity; [discriminate|].
    intros d Hd. injection Hd as <-. cbn zeta. rewrite Hrun. cbn [fst snd].
    split_and!; try reflexivity; [|discriminate].
    intros e He. injection He as <-. now split_and!.
Qed.




End Loop.

(** A fallback reply made of [SKIP] behind a NO-BREAK SPACE, or of an
    EM SPACE alone, is white space to [str.strip]: nothing is run for the
    step after the failed command. *)
Lemma wide_space_reply_runs_no_fallback :
  let p := fallback_prompt "make build" "No rule to make target" in
  let quiet := {| self := new_agent []; world := tt; tasks_file := None;
                  trace := [EvExecute "make build"; EvComplete p] |} in
  run_step (services := stub "make build" (PyStrFacts.no_break_space +:+ "SKIP")
                          (String.eqb "make build") true)
    "make build" (idle (new_agent []) None) = (Return tt, quiet)
  /\ run_step (services := stub "make build" PyStrFacts.em_space
                             (String.eqb "make build") true)
       "make build" (idle (new_agent []) None) = (Return tt, quiet).
Proof. vm_compute. split; reflexivity. Qed.

End AgentMore.

(** * The REST front end: [api/server.py] *)
Module ApiServer.
Import Agent.

(** What an endpoint answers: a body, or [raise HTTPException(...)]. *)
Inductive http (A : Type) : Type :=
| Ok200 (body : A)
| HTTPException (status_code : Z) (detail : string).
Arguments Ok200 {A} body.
Arguments HTTPException {A} status_code detail.

(** [TaskResponse] *)
Record TaskResponse := {
  response_task_id : string;
  response_status : string;
}.

(** The entry [create_task] appends; [task_id] stands for
    [str(uuid.uuid4())[:8]] and [loop_time] for
    [str(asyncio.get_event_loop().time())]. *)
Definition new_task (task_id loop_time description : string) (auto : bool) : Task :=
  {| id := task_id; description := description; status := "pending";
     auto_execute := auto; created_at := loop_time |}.

(** [create_task(task)], on the task store ([None]: no file yet), for an
    initialised [agent_instance]. *)
Definition create_task (task_id loop_time description : string) (auto : bool)
    (tasks_file : option (list Task)) : TaskResponse * option (list Task) :=
  let tasks := match tasks_file with Some tasks => tasks | None => [] end in
  ({| response_task_id := task_id; response_status := "pending" |},
   Some (tasks ++ [new_task task_id loop_time description auto])).

(** [next((t for t in tasks if t["id"] == task_id), None)] *)
Fixpoint first_with_id (task_id : string) (tasks : list Task) : option Task :=
  match tasks with
  | [] => None
  | t :: rest => if String.eqb (id t) task_id then Some t else first_with_id task_id rest
  end.

(** [get_task(task_id)] *)
Definition get_task (task_id : string) (tasks_file : option (list Task)) : http Task :=
  match tasks_file with
  | None => HTTPException 404 "Task not found"
  | Some tasks =>
      match first_with_id task_id tasks with
      | Some task => Ok200 task
      | None => HTTPException 404 "Task not found"
      end
  end.

Lemma first_with_id_app task_id tasks more :
  first_with_id task_id (tasks ++ more)
  = match first_with_id task_id tasks with
    | Some t => Some t
    | None => first_with_id task_id more
    end.
Proof.
  induction tasks as [|t tasks IH]; cbn; [reflexivity|].
  destruct (String.eqb (id t) task_id); [reflexivity|exact IH].
Qed.

Lemma first_with_id_fresh task_id tasks :
  Forall (fun t => id t <> task_id) tasks -> first_with_id task_id tasks = None.
Proof.
  induction 1 as [|t tasks Ht _ IH]; cbn; [reflexivity|].
  apply String.eqb_neq in Ht. now rewrite Ht.
Qed.

(** X20.  A task created under an identifier that no stored task
    carries is found again by [get_task], with status [pending] and the
    description it was given; the store only grows at its end, and a
    lookup of any other identifier answers as before the creation. *)
Theorem create_then_get_task task_id loop_time description auto tasks_file other :
  Forall (fun t => id t <> task_id) (default [] tasks_file) ->
  let created := create_task task_id loop_time description auto tasks_file in
  get_task task_id created.2
  = Ok200 (new_task task_id loop_time description auto)
  /\ created.1 = {| response_task_id := task_id; response_status := "pending" |}
  /\ created.2 = Some (default [] tasks_file
                       ++ [new_task task_id loop_time description auto])
  /\ (other <> task_id -> get_task other created.2 = get_task other tasks_file).
Proof.
  intros Hfresh. cbn zeta. unfold create_task, get_task. cbn [fst snd].
  assert (Htasks : match tasks_file with Some tasks => tasks | None => [] end
                   = default [] tasks_file) by now destruct tasks_file.
  rewrite Htasks. repeat split.
  - rewrite first_with_id_app, (first_with_id_fresh _ _ Hfresh). cbn.
    now rewrite String.eqb_refl.
  - intros Hother. rewrite first_with_id_app. cbn [first_with_id new_task id].
    apply not_eq_sym in Hother. apply String.eqb_neq in Hother. rewrite Hother.
    destruct tasks_file as [tasks|]; cbn; [|reflexivity].
    now destruct (first_with_id other tasks).
Qed.

Definition build_task : Task := new_task "9b1deb4d" "1532.25" "run the tests" false.

Lemma create_then_get_task_witness :
  let created := create_task "9b1deb4d" "1532.25" "run the tests" false
                   (Some [AgentSpec.list_files]) in
  get_task "9b1deb4d" created.2 = Ok200 build_task
  /\ created.1 = {| response_task_id := "9b1deb4d"; response_status := "pending" |}
  /\ created.2 = Some (default [] (Some [AgentSpec.list_files]) ++ [build_task])
  /\ ("3f2a9c1e" <> "9b1deb4d" ->
      get_task "3f2a9c1e" created.2 = get_task "3f2a9c1e" (Some [AgentSpec.list_files])).
Proof.
  apply (create_then_get_task "9b1deb4d" "1532.25" "run the tests" false
           (Some [AgentSpec.list_files]) "3f2a9c1e").
  repeat constructor. discriminate.
Defined.


End ApiServer.

(** * The tools server: [mcp/tools_server.py] *)
Module ToolsServer.

(** How [subprocess.run(command, shell=True, ..., timeout=timeout)] ends. *)
Inductive run_outcome :=
| Completed (returncode : Z) (stdout stderr : string)
| TimeoutExpired
| RunError (msg : string).

(** The shell; its answer may depend on the commands run before.
    [joinpath root cwd] is [root / cwd]. *)
Record Shell := {
  run : list string -> string -> string -> Z -> run_outcome;
  joinpath : string -> string -> string;
}.

(** The server's [command_history] and, as a probe, the commands handed
    to [subprocess.run], in order. *)
Record ToolsServer := {
  project_root : string;
  command_history : list json;
  spawned : list string;
}.

Definition dangerous : list string :=
  ["rm -rf"; "sudo"; "shutdown"; "reboot"; "> /dev/"].

Definition blocked (command : string) : bool :=
  existsb (fun d => PyStr.contains command d) dangerous.

(** [execute_command(command, cwd, timeout)] *)
Definition execute_command (sh : Shell) (command : string) (cwd : option string)
    (timeout : Z) (srv : ToolsServer) : json * ToolsServer :=
  if blocked command then
    (JObj [("error", JStr "Command blocked for safety"); ("command", JStr command)],
     srv)
  else
    let work_dir :=
      match cwd with
      | Some d => if PyStr.truthy d then joinpath sh (project_root srv) d
                  else project_root srv
      | None => project_root srv
      end in
    let ran := {| project_root := project_root srv;
                  command_history := command_history srv;
                  spawned := spawned srv ++ [command] |} in
    match run sh (spawned srv) command work_dir timeout with
    | Completed rc out err =>
        let output := JObj [("command", JStr command); ("returncode", JNum rc);
                            ("stdout", JStr out); ("stderr", JStr err);
                            ("success", JBool (rc =? 0))] in
        (output,
         {| project_root := project_root srv;
            command_history := command_history srv ++ [output];
            spawned := spawned srv ++ [command] |})
    | TimeoutExpired =>
        (JObj [("error", JStr "Command timed out"); ("command", JStr command)], ran)
    | RunError msg =>
        (JObj [("error", JStr msg); ("command", JStr command)], ran)
    end.

(** [l[-limit:]] *)
Definition last_slice {A} (limit : Z) (l : list A) : list A :=
  let len := Z.of_nat (length l) in
  let start := if 0 <? limit then Z.max (len - limit) 0 else Z.min (- limit) len in
  drop (Z.to_nat start) l.

(** [get_command_history(limit)] *)
Definition get_command_history (limit : Z) (srv : ToolsServer) : list json :=
  last_slice limit (command_history srv).

(** X22.  [execute_command] hands nothing to the shell exactly when the
    command contains one of its five patterns, spelled as in the list;
    the answer is then the error [Command blocked for safety] and the
    history is unchanged.  Every other command is handed to the shell
    once. *)
Theorem execute_command_blocks_iff_pattern_inside sh command cwd timeout srv :
  let srv' := (execute_command sh command cwd timeout srv).2 in
  ((exists pattern pre post,
       In pattern dangerous /\ command = pre +:+ pattern +:+ post)
   -> (execute_command sh command cwd timeout srv).1
      = JObj [("error", JStr "Command blocked for safety"); ("command", JStr command)]
      /\ srv' = srv)
  /\ (~ (exists pattern pre post,
           In pattern dangerous /\ command = pre +:+ pattern +:+ post)
      -> spawned srv' = spawned srv ++ [command]).
Proof.
  cbn zeta.
  assert (Hiff : blocked command = true
                 <-> exists pattern pre post,
                       In pattern dangerous /\ command = pre +:+ pattern +:+ post).
  { unfold blocked. rewrite existsb_exists. split.
    - intros (pattern & Hin & Hc).
      apply PyStrFacts.contains_spec in Hc as (pre & post & Hc).
      now exists pattern, pre, post.
    - intros (pattern & pre & post & Hin & Hc). exists pattern. split; [exact Hin|].
      apply PyStrFacts.contains_spec. now exists pre, post. }
  unfold execute_command. split.
  - intros Hin. apply Hiff in Hin. now rewrite Hin.
  - intros Hnot. destruct (blocked command) eqn:Hb.
    + exfalso. apply Hnot. now apply Hiff.
    + destruct (run sh _ _ _ _); reflexivity.
Qed.

(** X23.  The history only grows, by at most one entry per call: the
    returned output when the command ran to its end, whatever its return
    code, and nothing when the command was blocked, timed out or could
    not be run. *)
Theorem execute_command_history sh command cwd timeout srv :
  let out := (execute_command sh command cwd timeout srv).1 in
  let srv' := (execute_command sh command cwd timeout srv).2 in
  (command_history srv' = command_history srv
   /\ subscript out "error" <> None)
  \/ (command_history srv' = command_history srv ++ [out]
      /\ subscript out "error" = None
      /\ exists rc, subscript out "returncode" = Some (JNum rc)
                    /\ subscript out "success" = Some (JBool (rc =? 0))).
Proof.
  cbn zeta. unfold execute_command.
  destruct (blocked command); [left; split; [reflexivity|discriminate]|].
  destruct (run sh _ _ _ _) as [rc out err| |msg]; cbn [fst snd command_history].
  - right. repeat split. now exists rc.
  - left. split; [reflexivity|discriminate].
  - left. split; [reflexivity|discriminate].
Qed.

Lemma last_slice_positive {A} (limit : Z) (l : list A) :
  0 < limit ->
  last_slice limit l = drop (length l - Z.to_nat limit) l.
Proof.
  intros Hpos. unfold last_slice.
  apply Z.ltb_lt in Hpos as Hb. rewrite Hb. f_equal. lia.
Qed.

(** X24.  [get_command_history(limit)] returns the last [limit] entries,
    or all of them when there are fewer, for a positive [limit]; for
    [limit = 0] it returns the whole history, not the empty list, and for
    a negative [limit] it drops that many of the oldest entries. *)
Theorem get_command_history_slice limit srv :
  (0 < limit ->
   exists older,
     command_history srv = older ++ get_command_history limit srv
     /\ Z.of_nat (length (get_command_history limit srv))
        = Z.min limit (Z.of_nat (length (command_history srv))))
  /\ (limit = 0 -> get_command_history limit srv = command_history srv)
  /\ (limit < 0 ->
      get_command_history limit srv = drop (Z.to_nat (- limit)) (command_history srv)).
Proof.
  unfold get_command_history. split; [|split]; cycle 2.
  { intros Hneg. unfold last_slice.
    assert (Hb : (0 <? limit) = false) by (apply Z.ltb_ge; lia). rewrite Hb.
    destruct (Z.le_gt_cases (- limit) (Z.of_nat (length (command_history srv))))
      as [Hle|Hgt].
    - now rewrite Z.min_l by lia.
    - rewrite Z.min_r by lia. rewrite !drop_ge by lia. reflexivity. }
  - intros Hpos. rewrite (last_slice_positive _ _ Hpos).
    exists (take (length (command_history srv) - Z.to_nat limit) (command_history srv)).
    split; [now rewrite take_drop|]. rewrite length_drop. lia.
  - intros ->. unfold last_slice. cbn [Z.ltb Z.compare Z.opp].
    rewrite Z.min_l by lia. reflexivity.
Qed.

End ToolsServer.

(** * The memory server: [mcp/memory_server.py] *)
Module MemoryServer.
Import Gateway.

(** [d[key] = v] on a dictionary: the value is replaced where the key
    stands, or the pair is added at the end. *)
Fixpoint assoc_set (fields : list (string * json)) (key : string) (v : json)
  : list (string * json) :=
  match fields with
  | [] => [(key, v)]
  | (k, x) :: rest =>
      if String.eqb k key then (k, v) :: rest else (k, x) :: assoc_set rest key v
  end.

(** [self.memory], whatever [json.loads] made of the file, and the file
    [agent_memory.json] ([None]: it does not exist), held as the document
    [json.loads] reads from it.  [writable] tells whether
    [write_text(json.dumps(...))] succeeds. *)
Record MemoryServer := {
  memory : json;
  memory_file : option file;
  writable : bool;
}.

Definition default_memory (now : Z) {lib : PyLib} : json :=
  JObj [("facts", JObj []); ("decisions", JArr []); ("learnings", JArr []);
        ("project_context", JObj []); ("created_at", JStr (isoformat now))].

(** [_load_memory()] *)
Definition _load_memory {lib : PyLib} (now : Z) (f : option file) : json :=
  match f with
  | Some (Document data) => data
  | _ => default_memory now
  end.

(** [_save_memory()]: a failure to write is logged and swallowed. *)
Definition _save_memory (srv : MemoryServer) : MemoryServer :=
  if writable srv
  then {| memory := memory srv; memory_file := Some (Document (memory srv));
          writable := writable srv |}
  else srv.

(** [self.memory[section][key] = entry] *)
Definition set_entry (m : json) (section key : string) (entry : json)
  : outcome json :=
  match m with
  | JObj fields =>
      match assoc fields section with
      | Some (JObj entries) =>
          Return (JObj (assoc_set fields section (JObj (assoc_set entries key entry))))
      | Some _ => Raised "TypeError"
      | None => Raised "KeyError"
      end
  | _ => Raised "TypeError"
  end.

(** [store_fact(key, value)] *)
Definition store_fact {lib : PyLib} (key : string) (value : json) (now : Z)
    (srv : MemoryServer) : outcome json * MemoryServer :=
  let entry := JObj [("value", value); ("timestamp", JStr (isoformat now))] in
  match set_entry (memory srv) "facts" key entry with
  | Return m =>
      (Return (JObj [("status", JStr "stored"); ("key", JStr key)]),
       _save_memory {| memory := m; memory_file := memory_file srv;
                       writable := writable srv |})
  | Raised e => (Raised e, srv)
  end.

(** [retrieve_fact(key)]; Python's [None] is [JNull]. *)
Definition retrieve_fact (key : string) (srv : MemoryServer) : outcome json :=
  match memory srv with
  | JObj fields =>
      match assoc fields "facts" with
      | Some (JObj facts) =>
          match assoc facts key with
          | Some fact =>
              if truthy fact then
                match subscript fact "value" with
                | Some v => Return v
                | None => Raised "KeyError or TypeError"
                end
              else Return JNull
          | None => Return JNull
          end
      | Some _ => Raised "AttributeError"
      | None => Raised "KeyError"
      end
  | _ => Raised "TypeError"
  end.

Lemma assoc_set_same fields key v : assoc (assoc_set fields key v) key = Some v.
Proof.
  induction fields as [|[k x] rest IH]; cbn.
  - now rewrite String.eqb_refl.
  - destruct (String.eqb k key) eqn:Hk; cbn; now rewrite Hk.
Qed.

Lemma assoc_set_other fields key v other :
  other <> key -> assoc (assoc_set fields key v) other = assoc fields other.
Proof.
  intros Hne. induction fields as [|[k x] rest IH]; cbn.
  - apply not_eq_sym in Hne. apply String.eqb_neq in Hne. now rewrite Hne.
  - destruct (String.eqb k key) eqn:Hk; cbn.
    + apply String.eqb_eq in Hk as ->.
      apply not_eq_sym in Hne. apply String.eqb_neq in Hne. now rewrite Hne.
    + now rewrite IH.
Qed.

(** X25.  On a memory that has a [facts] dictionary, [store_fact] answers
    [stored]; the value is retrieved again under its key, whatever was
    there before; every other key answers as before; and when the file
    can be written, a server that loads it starts from the same memory. *)
Theorem store_then_retrieve_fact {lib : PyLib} key value now later srv fields facts other :
  memory srv = JObj fields ->
  assoc fields "facts" = Some (JObj facts) ->
  let r := (store_fact key value now srv).1 in
  let srv' := (store_fact key value now srv).2 in
  r = Return (JObj [("status", JStr "stored"); ("key", JStr key)])
  /\ retrieve_fact key srv' = Return value
  /\ (other <> key -> retrieve_fact other srv' = retrieve_fact other srv)
  /\ (writable srv = true -> _load_memory later (memory_file srv') = memory srv').
Proof.
  intros Hm Hf. cbn zeta. unfold store_fact, set_entry. rewrite Hm, Hf.
  cbn [fst snd].
  assert (Hsaved : forall s, memory (_save_memory s) = memory s).
  { intros s. unfold _save_memory. now destruct (writable s). }
  repeat split.
  - unfold retrieve_fact. rewrite Hsaved. cbn [memory].
    rewrite assoc_set_same, assoc_set_same. reflexivity.
  - intros Hother. unfold retrieve_fact. rewrite Hsaved, Hm. cbn [memory].
    rewrite assoc_set_same, Hf. now rewrite assoc_set_other.
  - intros Hw. unfold _save_memory. cbn [writable]. rewrite Hw. reflexivity.
Qed.

Lemma store_then_retrieve_fact_witness :
  let lib := GatewayMore.stamp_lib in
  let srv := {| memory := default_memory 0; memory_file := None; writable := true |} in
  let r := (store_fact "db" (JStr "postgres") 5 srv).1 in
  let srv' := (store_fact "db" (JStr "postgres") 5 srv).2 in
  r = Return (JObj [("status", JStr "stored"); ("key", JStr "db")])
  /\ retrieve_fact "db" srv' = Return (JStr "postgres")
  /\ ("cache" <> "db" -> retrieve_fact "cache" srv' = retrieve_fact "cache" srv)
  /\ (writable srv = true -> _load_memory 9 (memory_file srv') = memory srv').
Proof.
  intros lib srv.
  apply (store_then_retrieve_fact (lib := lib) "db" (JStr "postgres") 5 9 srv
           [("facts", JObj []); ("decisions", JArr []); ("learnings", JArr []);
            ("project_context", JObj []); ("created_at", JStr (isoformat 0))]
           [] "cache").
  - reflexivity.
  - reflexivity.
Defined.

(** X26.  [_load_memory] takes whatever document the file holds, and the
    default memory when the file is missing or does not parse; on a
    loaded document without a [facts] dictionary [store_fact] and
    [retrieve_fact] raise, and the memory and the file stay as they
    were. *)
Theorem memory_without_facts_raises {lib : PyLib} key value now srv :
  (forall fields, memory srv = JObj fields -> assoc fields "facts" = None) ->
  (forall f, _load_memory now (Some (Document f)) = f)
  /\ _load_memory now None = default_memory now
  /\ _load_memory now (Some NotJson) = default_memory now
  /\ (exists e, store_fact key value now srv = (Raised e, srv))
  /\ (exists e, retrieve_fact key srv = Raised e).
Proof.
  intros Hnone. repeat split.
  - unfold store_fact, set_entry. destruct (memory srv) as [| | | | |fields] eqn:Hm;
      try (now eexists). rewrite (Hnone fields eq_refl). now eexists.
  - unfold retrieve_fact. destruct (memory srv) as [| | | | |fields] eqn:Hm;
      try (now eexists). rewrite (Hnone fields eq_refl). now eexists.
Qed.

Lemma memory_without_facts_raises_witness :
  let lib := GatewayMore.stamp_lib in
  let srv := {| memory := _load_memory 0 (Some (Document (JObj [])));
                memory_file := Some (Document (JObj [])); writable := true |} in
  (forall f, _load_memory 0 (Some (Document f)) = f)
  /\ _load_memory 0 None = default_memory 0
  /\ _load_memory 0 (Some NotJson) = default_memory 0
  /\ (exists e, store_fact "db" (JStr "postgres") 0 srv = (Raised e, srv))
  /\ (exists e, retrieve_fact "db" srv = Raised e).
Proof.
  intros lib srv.
  apply (memory_without_facts_raises (lib := lib) "db" (JStr "postgres") 0 srv).
  intros fields Hm. injection Hm as <-. reflexivity.
Defined.

End MemoryServer.

(** * The analyzer: [core/analyzer.py] *)
Module Analyzer.

(** [json.loads]; [None] is the exception it raises. *)
Class JsonLoads := {
  json_loads : string -> option json;
}.

(** Position of the first [c] in [s]. *)
Fixpoint find_char (c : ascii) (s : string) : option nat :=
  match s with
  | EmptyString => None
  | String a r => if Ascii.eqb a c then Some 0%nat else option_map S (find_char c r)
  end.

(** Position of the last [c] in [s]. *)
Fixpoint rfind_char (c : ascii) (s : string) : option nat :=
  match s with
  | EmptyString => None
  | String a r =>
      match rfind_char c r with
      | Some i => Some (S i)
      | None => if Ascii.eqb a c then Some 0%nat else None
      end
  end.

(** The integer [str.find] and [str.rfind] return: [-1] when absent. *)
Definition py_index (o : option nat) : Z :=
  match o with Some i => Z.of_nat i | None => -1 end.

(** [s[start:stop]] for [start] and [stop] that are not negative. *)
Definition slice (s : string) (start stop : Z) : string :=
  String.substring (Z.to_nat start) (Z.to_nat (stop - start)) s.

Definition quoted (s : string) : string :=
  String "034"%char s +:+ String "034"%char "".

Definition default_impact : list (string * json) :=
  [("severity", JStr "low"); ("affected_components", JArr []);
   ("required_actions", JArr [])].

Definition default_analysis : list (string * json) :=
  [("insights", JArr []); ("suggestions", JArr []); ("priorities", JArr []);
   ("risks", JArr [])].

(** The prompt of [analyze_file_change]. *)
Definition file_change_prompt (file_path event_type : string)
    (project_type : option string) : string :=
  "A file was " +:+ event_type +:+ ":

File: " +:+ file_path +:+ "
Project: " +:+ default "unknown" project_type +:+ "

Assess the impact (JSON):
{
  " +:+ quoted "severity" +:+ ": " +:+ quoted "low|medium|high" +:+ ",
  " +:+ quoted "affected_components" +:+ ": [...],
  " +:+ quoted "required_actions" +:+ ": [...]
}

JSON:".

Section WithJson.
Context {loads : JsonLoads}.

(** The [try] block of [analyze_file_change] and what follows it. *)
Definition parse_impact (response : string) : json :=
  let json_start := py_index (find_char "{"%char response) in
  let json_end := py_index (rfind_char "}"%char response) + 1 in
  if 0 <=? json_start then
    match json_loads (slice response json_start json_end) with
    | Some parsed => parsed
    | None => JObj default_impact
    end
  else JObj default_impact.

(** The [try] block of [analyze_project] and what follows it. *)
Definition parse_analysis (response : string) : json :=
  let json_start := py_index (find_char "{"%char response) in
  let json_end := py_index (rfind_char "}"%char response) + 1 in
  if (0 <=? json_start) && (json_start <? json_end) then
    match json_loads (slice response json_start json_end) with
    | Some parsed => parsed
    | None => JObj default_analysis
    end
  else JObj default_analysis.

(** [analyze_file_change(file_path, event_type, context)], over the
    analyzer's own client: [llm prompt max_tokens]. *)
Definition analyze_file_change {W} (llm : string -> Z -> W -> string * W)
    (file_path event_type : string) (project_type : option string) (w : W)
  : json * W :=
  let '(response, w') := llm (file_change_prompt file_path event_type project_type) 200 w in
  (parse_impact response, w').

End WithJson.

Lemma find_char_none c s :
  find_char c s = None <-> PyStr.contains s (String c "") = false.
Proof.
  induction s as [|a s IH]; cbn [find_char PyStr.contains PyStr.startswith].
  - split; reflexivity.
  - rewrite (Ascii.eqb_sym a c).
    destruct (Ascii.eqb c a) eqn:Hca; cbn.
    + split; [discriminate|]. now destruct s.
    + rewrite <- IH. destruct (find_char c s); cbn; split; congruence.
Qed.

Lemma rfind_char_none c s : rfind_char c s = None <-> find_char c s = None.
Proof.
  induction s as [|a s IH]; cbn [rfind_char find_char]; [reflexivity|].
  destruct (rfind_char c s), (find_char c s), (Ascii.eqb a c); cbn;
    split; try congruence; intros; exfalso;
    (destruct IH as [IH1 IH2]; first [now specialize (IH1 eq_refl) | now specialize (IH2 eq_refl)]).
Qed.

Lemma find_char_app c pre r :
  find_char c pre = None ->
  find_char c (pre +:+ String c r) = Some (String.length pre).
Proof.
  induction pre as [|a pre IH]; cbn [find_char]; intros Hnone.
  - change (find_char c (String c r) = Some 0%nat). cbn [find_char].
    now rewrite Ascii.eqb_refl.
  - rewrite PyStrFacts.append_cons. cbn [find_char String.length].
    destruct (Ascii.eqb a c); [discriminate|].
    destruct (find_char c pre); [discriminate|]. now rewrite IH.
Qed.

Lemma rfind_char_app c s post :
  rfind_char c post = None ->
  rfind_char c (s +:+ String c post) = Some (String.length s).
Proof.
  intros Hpost. induction s as [|a s IH].
  - change (rfind_char c (String c post) = Some 0%nat). cbn [rfind_char].
    now rewrite Hpost, Ascii.eqb_refl.
  - rewrite PyStrFacts.append_cons. cbn [rfind_char String.length]. now rewrite IH.
Qed.

Lemma length_append a b : String.length (a +:+ b) = (String.length a + String.length b)%nat.
Proof.
  induction a as [|c a IH]; [reflexivity|].
  rewrite PyStrFacts.append_cons. cbn [String.length]. now rewrite IH.
Qed.

Lemma substring_prefix body post :
  String.substring 0 (String.length body) (body +:+ post) = body.
Proof.
  induction body as [|c body IH].
  - cbn. now destruct post.
  - rewrite PyStrFacts.append_cons. cbn [String.length String.substring].
    now rewrite IH.
Qed.

Lemma substring_skip pre rest n :
  String.substring (String.length pre) n (pre +:+ rest) = String.substring 0 n rest.
Proof.
  induction pre as [|c pre IH]; [reflexivity|].
  rewrite PyStrFacts.append_cons. cbn [String.length String.substring]. exact IH.
Qed.

Section Facts.
Context {lib : PyLib} {loads : JsonLoads}.

Lemma parse_without_brace response :
  PyStr.contains response "{" = false ->
  parse_impact response = JObj default_impact
  /\ parse_analysis response = JObj default_analysis.
Proof.
  intros Hno. apply find_char_none in Hno.
  unfold parse_impact, parse_analysis. rewrite Hno. split; reflexivity.
Qed.

(** X27.  A response without an opening brace is never handed to
    [json.loads]: [analyze_file_change] answers its default, severity
    [low], and [analyze_project] its empty analysis.  Both strings the
    gateway falls back to are such responses, so while the backend is
    down every file change is classified [low], which is not [high]. *)
Theorem analyzer_defaults_without_brace :
  (forall response,
      PyStr.contains response "{" = false ->
      parse_impact response = JObj default_impact
      /\ parse_analysis response = JObj default_analysis)
  /\ (forall prompt,
        parse_impact (Gateway._fallback_response prompt) = JObj default_impact
        /\ parse_analysis (Gateway._fallback_response prompt) = JObj default_analysis)
  /\ (forall {W} (llm : string -> Z -> W -> string * W) file_path event_type
             project_type w,
        PyStr.contains
          (llm (file_change_prompt file_path event_type project_type) 200 w).1 "{"
        = false ->
        analyze_file_change llm file_path event_type project_type w
        = (JObj default_impact,
           (llm (file_change_prompt file_path event_type project_type) 200 w).2))
  /\ Agent.is_high default_impact = false.
Proof.
  split; [exact parse_without_brace|]. split; [|split; [|reflexivity]].
  - intros prompt. apply parse_without_brace.
    unfold Gateway._fallback_response.
    destruct (PyStr.contains (PyStr.lower prompt) "commands"); reflexivity.
  - intros W llm file_path event_type project_type w Hno.
    unfold analyze_file_change.
    destruct (llm _ 200 w) as [response w']; cbn [fst snd] in *.
    now destruct (parse_without_brace response Hno) as [-> _].
Qed.

Lemma braces_located pre mid post :
  PyStr.contains pre "{" = false ->
  PyStr.contains post "}" = false ->
  let body := "{" +:+ mid +:+ "}" in
  let response := pre +:+ body +:+ post in
  py_index (find_char "{"%char response) = Z.of_nat (String.length pre)
  /\ py_index (rfind_char "}"%char response) + 1
     = Z.of_nat (String.length pre) + Z.of_nat (String.length body)
  /\ slice response (Z.of_nat (String.length pre))
       (Z.of_nat (String.length pre) + Z.of_nat (String.length body)) = body.
Proof.
  intros Hpre Hpost. cbn zeta.
  apply find_char_none in Hpre, Hpost. apply rfind_char_none in Hpost.
  split; [|split].
  - change ("{" +:+ mid +:+ "}") with (String "{"%char (mid +:+ "}")).
    rewrite PyStrFacts.append_cons.
    now rewrite (find_char_app _ _ _ Hpre).
  - assert (Hshape : pre +:+ ("{" +:+ mid +:+ "}") +:+ post
                     = (pre +:+ "{" +:+ mid) +:+ String "}"%char post).
    { rewrite !PyStrFacts.append_assoc. reflexivity. }
    rewrite Hshape, (rfind_char_app _ _ _ Hpost). cbn [py_index].
    rewrite !length_append. cbn [String.length]. lia.
  - unfold slice.
    replace (Z.of_nat (String.length pre) + Z.of_nat (String.length ("{" +:+ mid +:+ "}"))
             - Z.of_nat (String.length pre))
      with (Z.of_nat (String.length ("{" +:+ mid +:+ "}"))) by lia.
    rewrite !Nat2Z.id, substring_skip. apply substring_prefix.
Qed.

(** X28.  Prose around the braces is ignored: when nothing before the
    first opening brace and nothing after the last closing brace is a
    brace of that kind, both analyses hand exactly the text from the one
    to the other to [json.loads], return what it yields, and their
    default when it raises. *)
Theorem analyzer_reads_between_braces pre mid post :
  PyStr.contains pre "{" = false ->
  PyStr.contains post "}" = false ->
  let body := "{" +:+ mid +:+ "}" in
  let response := pre +:+ body +:+ post in
  parse_impact response
  = match json_loads body with Some parsed => parsed | None => JObj default_impact end
  /\ parse_analysis response
     = match json_loads body with Some parsed => parsed | None => JObj default_analysis end.
Proof.
  intros Hpre Hpost. cbn zeta.
  destruct (braces_located pre mid post Hpre Hpost) as (Hstart & Hend & Hslice).
  cbn zeta in *. unfold parse_impact, parse_analysis.
  rewrite Hstart, Hend, Hslice.
  assert (H0 : (0 <=? Z.of_nat (String.length pre)) = true) by (apply Z.leb_le; lia).
  assert (H1 : (Z.of_nat (String.length pre)
                <? Z.of_nat (String.length pre)
                   + Z.of_nat (String.length ("{" +:+ mid +:+ "}"))) = true).
  { apply Z.ltb_lt. change ("{" +:+ mid +:+ "}") with (String "{"%char (mid +:+ "}")).
    cbn [String.length]. lia. }
  rewrite H0, H1. split; reflexivity.
Qed.

End Facts.

(** A parser that knows one document. *)
Definition one_document : JsonLoads := {|
  json_loads := fun s =>
    if String.eqb s ("{" +:+ quoted "severity" +:+ ": " +:+ quoted "high" +:+ "}")
    then Some (JObj [("severity", JStr "high")])
    else None;
|}.

Lemma analyzer_reads_between_braces_witness :
  let mid := quoted "severity" +:+ ": " +:+ quoted "high" in
  let body := "{" +:+ mid +:+ "}" in
  let response := "Here is the assessment: " +:+ body +:+ " Hope this helps." in
  parse_impact (loads := one_document) response
  = match json_loads (JsonLoads := one_document) body with
    | Some parsed => parsed
    | None => JObj default_impact
    end
  /\ parse_analysis (loads := one_document) response
     = match json_loads (JsonLoads := one_document) body with
       | Some parsed => parsed
       | None => JObj default_analysis
       end.
Proof.
  intros mid body response.
  apply (analyzer_reads_between_braces (loads := one_document)
           "Here is the assessment: " mid " Hope this helps.").
  - reflexivity.
  - reflexivity.
Defined.

End Analyzer.

(** * The detector: [core/detector.py] *)
Module Detector.

(** What [detect] reads of the project tree.  [package_json] is the list
    of keys of [json.loads(package.json).get("dependencies", {})], taken
    to be an object, or the exception raised on the way (the file cannot
    be read, is not JSON, is not an object, or its dependencies support
    no membership test); [requirements_txt] is the text of
    [requirements.txt] ([None]: reading it raises). *)
Record ProjectTree := {
  present : string -> bool;             (* (root / name).exists() *)
  package_json : outcome (list string);
  requirements_txt : option string;
  app_has_py : bool;                    (* any((root / "app").glob("*.py")) *)
  html_files : list string;             (* names of root.glob("*.html") *)
}.

(** The dictionary [detect] returns; [confidence] is in hundredths. *)
Record Detected := {
  type : string;
  confidence : Z;
  files : list string;
  dependencies : list string;
}.

Definition has (name : string) (l : list string) : bool :=
  existsb (String.eqb name) l.

Definition python_markers : list string :=
  ["requirements.txt"; "setup.py"; "pyproject.toml"].

Section WithUnicode.
Context {U : PyStr.Unicode}.

(** [detect()] *)
Definition detect (t : ProjectTree) : outcome Detected :=
  if present t "package.json" then
    match package_json t with
    | Raised e => Raised e
    | Return deps =>
        let '(project_type, conf) :=
          if has "react" deps then ("react", 90)
          else if has "vue" deps then ("vue", 90)
          else if has "next" deps then ("nextjs", 95)
          else if has "express" deps then ("express", 85)
          else ("node", 70) in
        Return {| type := project_type; confidence := conf;
                  files := ["package.json"]; dependencies := deps |}
    end
  else if existsb (present t) python_markers then
    let '(project_type, conf) :=
      if present t "manage.py" then ("django", 95)
      else if app_has_py t || present t "main.py" then
        if present t "requirements.txt" then
          match requirements_txt t with
          | Some text =>
              if PyStr.contains (PyStr.lower text) "fastapi" then ("fastapi", 90)
              else ("python", 80)
          | None => ("python", 80)
          end
        else ("python", 80)
      else ("python", 80) in
    Return {| type := project_type; confidence := conf;
              files := List.filter (present t) python_markers;
              dependencies := [] |}
  else if present t "go.mod" then
    Return {| type := "go"; confidence := 90; files := ["go.mod"]; dependencies := [] |}
  else if present t "Cargo.toml" then
    Return {| type := "rust"; confidence := 90; files := ["Cargo.toml"];
              dependencies := [] |}
  else
    match html_files t with
    | [] => Return {| type := "unknown"; confidence := 0; files := [];
                      dependencies := [] |}
    | names => Return {| type := "html_static"; confidence := 60;
                         files := take 5 names; dependencies := [] |}
    end.

(** No marker file of any kind. *)
Definition bare (t : ProjectTree) : Prop :=
  present t "package.json" = false
  /\ existsb (present t) python_markers = false
  /\ present t "go.mod" = false
  /\ present t "Cargo.toml" = false
  /\ html_files t = [].

(** X29.  [detect] raises exactly when [package.json] exists and cannot
    be read as a JSON object with usable dependencies; a readable
    [package.json] decides the type among the five JavaScript kinds
    whatever other marker files exist, and is the only file listed. *)
Theorem detect_raises_iff_package_json_unreadable t :
  ((exists e, detect t = Raised e)
   <-> present t "package.json" = true /\ exists e, package_json t = Raised e)
  /\ (forall deps,
        present t "package.json" = true ->
        package_json t = Return deps ->
        exists d, detect t = Return d
                  /\ In (type d) ["react"; "vue"; "nextjs"; "express"; "node"]
                  /\ files d = ["package.json"]
                  /\ dependencies d = deps).
Proof.
  split.
  - unfold detect. destruct (present t "package.json").
    + destruct (package_json t) as [deps|e].
      * split.
        -- intros [e He].
           destruct (has "react" deps), (has "vue" deps), (has "next" deps),
             (has "express" deps); discriminate.
        -- intros [_ [e He]]. discriminate.
      * split; [intros _; split; [reflexivity|now exists e] | intros _; now exists e].
    + split; [|intros [H _]; discriminate].
      intros [e He].
      destruct (existsb (present t) python_markers).
      * destruct (present t "manage.py"); [discriminate|].
        destruct (app_has_py t || present t "main.py"); [|discriminate].
        destruct (present t "requirements.txt"); [|discriminate].
        destruct (requirements_txt t) as [text|]; [|discriminate].
        destruct (PyStr.contains _ _); discriminate.
      * destruct (present t "go.mod"); [discriminate|].
        destruct (present t "Cargo.toml"); [discriminate|].
        destruct (html_files t); discriminate.
  - intros deps Hp Hdeps. unfold detect. rewrite Hp, Hdeps.
    destruct (has "react" deps); [|destruct (has "vue" deps);
      [|destruct (has "next" deps); [|destruct (has "express" deps)]]];
      eexists; (split; [reflexivity|]); cbn; repeat split; tauto.
Qed.

(** X30.  When [detect] returns, the type is [unknown] exactly for a
    tree without any marker file, and then the confidence is 0 and no
    file is listed; in every case the confidence lies between 0 and 0.95
    and at most five files are listed. *)
Theorem detect_unknown_iff_bare t d :
  detect t = Return d ->
  (type d = "unknown" <-> bare t)
  /\ (type d = "unknown" -> confidence d = 0 /\ files d = [])
  /\ 0 <= confidence d <= 95
  /\ (length (files d) <= 5)%nat.
Proof.
  unfold detect, bare. intros Hd.
  destruct (present t "package.json") eqn:Hpkg.
  { destruct (package_json t) as [deps|e]; [|discriminate].
    destruct (has "react" deps); [|destruct (has "vue" deps);
      [|destruct (has "next" deps); [|destruct (has "express" deps)]]];
      injection Hd as <-; cbn; (split; [split; [discriminate|intros [H _]; discriminate]|]);
      (split; [discriminate|]); split; lia. }
  destruct (existsb (present t) python_markers) eqn:Hpy.
  { assert (Hlen : (length (List.filter (present t) python_markers) <= 5)%nat).
    { pose proof (List.filter_length_le (present t) python_markers). cbn in *. lia. }
    destruct (present t "manage.py");
      [|destruct (app_has_py t || present t "main.py");
        [destruct (present t "requirements.txt");
         [destruct (requirements_txt t) as [text|];
          [destruct (PyStr.contains _ _)|]|]|]];
      injection Hd as <-; cbn [type confidence files];
      (split; [split; [discriminate|intros (_ & H & _); discriminate]|]);
      (split; [discriminate|]); (split; [lia|exact Hlen]). }
  destruct (present t "go.mod") eqn:Hgo.
  { injection Hd as <-; cbn.
    (split; [split; [discriminate|intros (_ & _ & H & _); discriminate]|]);
    (split; [discriminate|]); split; lia. }
  destruct (present t "Cargo.toml") eqn:Hrust.
  { injection Hd as <-; cbn.
    (split; [split; [discriminate|intros (_ & _ & _ & H & _); discriminate]|]);
    (split; [discriminate|]); split; lia. }
  destruct (html_files t) as [|name names] eqn:Hhtml.
  - injection Hd as <-; cbn. repeat split; try reflexivity; lia.
  - injection Hd as <-; cbn [type confidence files].
    split; [split; [discriminate|intros (_ & _ & _ & _ & H); discriminate]|].
    split; [discriminate|]. split; [lia|]. cbn [length]. rewrite length_take. lia.
Qed.

End WithUnicode.

Definition node_tree : ProjectTree := {|
  present := fun name => String.eqb name "package.json" || String.eqb name "setup.py";
  package_json := Return ["express"; "pg"];
  requirements_txt := None;
  app_has_py := false;
  html_files := ["index.html"];
|}.

Lemma detect_unknown_iff_bare_witness :
  let d := {| type := "express"; confidence := 85; files := ["package.json"];
              dependencies := ["express"; "pg"] |} in
  (type d = "unknown" <-> bare node_tree)
  /\ (type d = "unknown" -> confidence d = 0 /\ files d = [])
  /\ 0 <= confidence d <= 95
  /\ (length (files d) <= 5)%nat.
Proof.
  intros d. apply (detect_unknown_iff_bare (U := GatewaySpec.plain_unicode) node_tree d). reflexivity.
Defined.

End Detector.

